(** * K_Oracles: the KUSD price oracle, on chain and off chain

    A shallow embedding of
    - the Solidity contract [KUSDOracle] (registry of the published price,
      publisher nodes, median and deviation validation),
    - the Solidity contract [KUSDOracleFactory], which deploys the oracles
      and calls them in batches, and
    - the JavaScript oracle node ([OracleNode]), the base class of its price
      sources ([PriceSource]) and the sources [BinanceAPI] and
      [GeckoTerminalAPI],
    followed by the properties of the specification stated on them and by
    further properties of the code. *)

From Stdlib Require Import ZArith Lia List String QArith Lqa.
From stdpp Require Import base option list gmap strings sorting pretty.

Local Open Scope string_scope.
Local Open Scope list_scope.
Local Open Scope Z_scope.

(** ** Solidity 0.8 execution results

    A call either returns, reverts with the reason string of a failed
    [require], or panics: since Solidity 0.8 arithmetic is checked, so that an
    overflow or underflow raises Panic(0x11), a division by zero Panic(0x12)
    and an array access out of bounds Panic(0x32). A revert or a panic rolls
    the state back, which is why a failed call carries no state. Gas is not
    modelled: a call is given enough of it. *)

Inductive panic_code : Type :=
  | ArithmeticOverflow   (* 0x11 *)
  | DivisionByZero       (* 0x12 *)
  | IndexOutOfBounds.    (* 0x32 *)

Inductive result (A : Type) : Type :=
  | Ok (a : A)
  | Revert (reason : string)
  | Panic (code : panic_code).

Arguments Ok {A} a.
Arguments Revert {A} reason.
Arguments Panic {A} code.

Definition bind {A B : Type} (r : result A) (k : A -> result B) : result B :=
  match r with
  | Ok a => k a
  | Revert m => Revert m
  | Panic c => Panic c
  end.

Notation "'let*' x ':=' r 'in' k" := (bind r (fun x => k))
  (at level 10, x name, r at level 100, k at level 200).

Definition require (c : bool) (reason : string) : result unit :=
  if c then Ok tt else Revert reason.

(** [for (uint256 i = start; i < start + n; i++) body]: the body is run for
    [n] consecutive values of the counter and stops at the first failure.
    The counter stays below the length of an array, so that its increment
    never overflows. *)
Fixpoint for_loop {S : Type} (n : nat) (i : nat)
    (body : nat -> S -> result S) (s : S) : result S :=
  match n with
  | O => Ok s
  | Datatypes.S n' => let* s' := body i s in for_loop n' (Datatypes.S i) body s'
  end.

(** ** uint256 arithmetic, checked

    A uint256 is an integer between 0 and [UINT256_MAX]. *)

Definition UINT256_MAX : Z := 2 ^ 256 - 1.

Definition checked_add (a b : Z) : result Z :=
  if a + b <=? UINT256_MAX then Ok (a + b) else Panic ArithmeticOverflow.

Definition checked_sub (a b : Z) : result Z :=
  if b <=? a then Ok (a - b) else Panic ArithmeticOverflow.

Definition checked_mul (a b : Z) : result Z :=
  if a * b <=? UINT256_MAX then Ok (a * b) else Panic ArithmeticOverflow.

Definition checked_div (a b : Z) : result Z :=
  if b =? 0 then Panic DivisionByZero else Ok (a / b).

(** Memory arrays: every access is bounds-checked. *)
Definition array_get (a : list Z) (i : nat) : result Z :=
  match a !! i with
  | Some v => Ok v
  | None => Panic IndexOutOfBounds
  end.

Definition array_set (a : list Z) (i : nat) (v : Z) : result (list Z) :=
  if (i <? length a)%nat then Ok (<[i := v]> a) else Panic IndexOutOfBounds.


(** ** The contract KUSDOracle *)

Module KUSDOracle.

Record PriceData : Type := mkPriceData {
  price : Z;          (* Price in USD (18 decimals) *)
  timestamp : Z;      (* When price was last updated *)
  valid : bool        (* Is price data valid *)
}.

Record OracleNode : Type := mkOracleNode {
  nodeAddress : Z;
  stake : Z;
  reputation : Z;
  active : bool;
  lastUpdate : Z
}.

Inductive Event : Type :=
  | PriceUpdate (price timestamp updater : Z)
  | NodeRegistered (node stake : Z)
  | NodeDeactivated (node : Z) (reason : string)
  | Rely (usr : Z)
  | Deny (usr : Z).

(** Storage. Addresses are 160-bit numbers; a Solidity mapping is total and
    reads the zero value where nothing was written. *)
Record State : Type := mkState {
  wards : gmap Z Z;
  asset : Z;
  priceData : PriceData;
  nodes : gmap Z OracleNode;
  nodeList : list Z;
  requiredConfirmations : Z;
  events : list Event
}.

Definition STALENESS_THRESHOLD : Z := 3600.
Definition MAX_DEVIATION : Z := 1000.
Definition MIN_SOURCES : Z := 3.

Definition zero_node : OracleNode := mkOracleNode 0 0 0 false 0.

Definition ward_of (st : State) (usr : Z) : Z := default 0 (wards st !! usr).
Definition node_of (st : State) (a : Z) : OracleNode := default zero_node (nodes st !! a).

Definition set_wards (w : gmap Z Z) (st : State) : State :=
  mkState w (asset st) (priceData st) (nodes st) (nodeList st)
          (requiredConfirmations st) (events st).
Definition set_priceData (p : PriceData) (st : State) : State :=
  mkState (wards st) (asset st) p (nodes st) (nodeList st)
          (requiredConfirmations st) (events st).
Definition set_nodes (n : gmap Z OracleNode) (st : State) : State :=
  mkState (wards st) (asset st) (priceData st) n (nodeList st)
          (requiredConfirmations st) (events st).
Definition set_nodeList (l : list Z) (st : State) : State :=
  mkState (wards st) (asset st) (priceData st) (nodes st) l
          (requiredConfirmations st) (events st).
Definition emit (e : Event) (st : State) : State :=
  mkState (wards st) (asset st) (priceData st) (nodes st) (nodeList st)
          (requiredConfirmations st) (events st ++ [e]).

(** [constructor(bytes32 _asset)], deployed by [msg_sender]. *)
Definition constructor (msg_sender _asset : Z) : State :=
  emit (Rely msg_sender)
    (mkState {[ msg_sender := 1 ]} _asset (mkPriceData 0 0 false) ∅ [] 3 []).

(** [modifier auth]. *)
Definition auth (st : State) (msg_sender : Z) : result unit :=
  require (ward_of st msg_sender =? 1) "KUSDOracle/not-authorized".

Definition rely (st : State) (msg_sender usr : Z) : result State :=
  let* _ := auth st msg_sender in
  Ok (emit (Rely usr) (set_wards (<[usr := 1]> (wards st)) st)).

Definition deny (st : State) (msg_sender usr : Z) : result State :=
  let* _ := auth st msg_sender in
  Ok (emit (Deny usr) (set_wards (<[usr := 0]> (wards st)) st)).

(** [peek()]: the price and its validity. *)
Definition peek (st : State) (block_timestamp : Z) : result (Z * bool) :=
  let* age := checked_sub block_timestamp (timestamp (priceData st)) in
  let fresh := age <=? STALENESS_THRESHOLD in
  let valid := valid (priceData st) && fresh && (price (priceData st) >? 0) in
  Ok (price (priceData st), valid).

Definition read (st : State) (block_timestamp : Z) : result Z :=
  let* _ := require (valid (priceData st)) "KUSDOracle/invalid-price" in
  let* age := checked_sub block_timestamp (timestamp (priceData st)) in
  let* _ := require (age <=? STALENESS_THRESHOLD) "KUSDOracle/stale-price" in
  Ok (price (priceData st)).

Definition registerNode (st : State) (msg_sender nodeAddress stake : Z)
    : result State :=
  let* _ := auth st msg_sender in
  let* _ := require (negb (nodeAddress =? 0)) "KUSDOracle/invalid-address" in
  let* _ := require (negb (active (node_of st nodeAddress)))
                    "KUSDOracle/node-already-active" in
  let st1 := set_nodes
               (<[nodeAddress := mkOracleNode nodeAddress stake 100 true 0]> (nodes st))
               st in
  let st2 := set_nodeList (nodeList st1 ++ [nodeAddress]) st1 in
  Ok (emit (NodeRegistered nodeAddress stake) st2).

Definition deactivateNode (st : State) (msg_sender nodeAddress : Z)
    (reason : string) : result State :=
  let* _ := auth st msg_sender in
  let* _ := require (active (node_of st nodeAddress)) "KUSDOracle/node-not-active" in
  let n := node_of st nodeAddress in
  let n' := mkOracleNode (KUSDOracle.nodeAddress n) (KUSDOracle.stake n)
                         (reputation n) false (lastUpdate n) in
  Ok (emit (NodeDeactivated nodeAddress reason)
           (set_nodes (<[nodeAddress := n']> (nodes st)) st)).

(** One comparison of the bubble sort: swap the neighbours at [j], [j+1]
    when they are out of order. *)
Definition swap_step (j : nat) (sortedPrices : list Z) : result (list Z) :=
  let* x := array_get sortedPrices j in
  let* y := array_get sortedPrices (j + 1) in
  if x >? y then
    let temp := x in
    let* a1 := array_set sortedPrices j y in
    array_set a1 (j + 1) temp
  else Ok sortedPrices.

Definition bubble_pass (i : nat) (sortedPrices : list Z) : result (list Z) :=
  let* b0 := checked_sub (Z.of_nat (length sortedPrices)) (Z.of_nat i) in
  let* b := checked_sub b0 1 in
  for_loop (Z.to_nat b) 0 swap_step sortedPrices.

Definition copy_step (prices : list Z) (i : nat) (sortedPrices : list Z)
    : result (list Z) :=
  let* v := array_get prices i in array_set sortedPrices i v.

Definition _calculateMedian (prices : list Z) : result Z :=
  (* uint256[] memory sortedPrices = new uint256[](prices.length); copy *)
  let* sortedPrices :=
    for_loop (length prices) 0 (copy_step prices) (replicate (length prices) 0) in
  (* bubble sort *)
  let* passes := checked_sub (Z.of_nat (length sortedPrices)) 1 in
  let* sortedPrices := for_loop (Z.to_nat passes) 0 bubble_pass sortedPrices in
  (* median *)
  let* mid := checked_div (Z.of_nat (length sortedPrices)) 2 in
  if Z.of_nat (length sortedPrices) mod 2 =? 0 then
    let* m1 := checked_sub mid 1 in
    let* a := array_get sortedPrices (Z.to_nat m1) in
    let* b := array_get sortedPrices (Z.to_nat mid) in
    let* s := checked_add a b in
    checked_div s 2
  else array_get sortedPrices (Z.to_nat mid).

Definition _validatePrice (newPrice : Z) (sourcePrices : list Z) : result bool :=
  if Z.of_nat (length sourcePrices) <? MIN_SOURCES then Ok false else
  let* median := _calculateMedian sourcePrices in
  let* deviation :=
    if newPrice >? median then
      let* d := checked_sub newPrice median in
      let* s := checked_mul d 10000 in
      checked_div s median
    else
      let* d := checked_sub median newPrice in
      let* s := checked_mul d 10000 in
      checked_div s median in
  Ok (deviation <=? MAX_DEVIATION).

Definition set_lastUpdate (t : Z) (n : OracleNode) : OracleNode :=
  mkOracleNode (nodeAddress n) (stake n) (reputation n) (active n) t.

Definition updatePrice (st : State) (msg_sender block_timestamp : Z)
    (newPrice : Z) (sourcePrices : list Z) (sources : list Z) : result State :=
  let* _ := require (active (node_of st msg_sender)) "KUSDOracle/node-not-active" in
  let* _ := require (newPrice >? 0) "KUSDOracle/invalid-price" in
  let* _ := require (Z.of_nat (length sourcePrices) >=? MIN_SOURCES)
                    "KUSDOracle/insufficient-sources" in
  let* _ := require (Z.of_nat (length sourcePrices) =? Z.of_nat (length sources))
                    "KUSDOracle/mismatched-arrays" in
  let* ok := _validatePrice newPrice sourcePrices in
  let* _ := require ok "KUSDOracle/price-validation-failed" in
  let st1 := set_priceData (mkPriceData newPrice block_timestamp true) st in
  let st2 := set_nodes
               (<[msg_sender := set_lastUpdate block_timestamp (node_of st1 msg_sender)]>
                  (nodes st1)) st1 in
  Ok (emit (PriceUpdate newPrice block_timestamp msg_sender) st2).

Definition emergencyUpdatePrice (st : State) (msg_sender block_timestamp : Z)
    (newPrice : Z) : result State :=
  let* _ := auth st msg_sender in
  let* _ := require (newPrice >? 0) "KUSDOracle/invalid-price" in
  let st1 := set_priceData (mkPriceData newPrice block_timestamp true) st in
  Ok (emit (PriceUpdate newPrice block_timestamp msg_sender) st1).

Definition invalidatePrice (st : State) (msg_sender : Z) : result State :=
  let* _ := auth st msg_sender in
  let p := priceData st in
  Ok (set_priceData (mkPriceData (price p) (timestamp p) false) st).

Definition getPriceData (st : State) : Z * Z * bool :=
  (price (priceData st), timestamp (priceData st), valid (priceData st)).

Definition isFresh (st : State) (block_timestamp : Z) : result bool :=
  let* age := checked_sub block_timestamp (timestamp (priceData st)) in
  Ok (age <=? STALENESS_THRESHOLD).

Definition count_step (st : State) (i : nat) (count : Z) : result Z :=
  let* a := array_get (nodeList st) i in
  if active (node_of st a) then checked_add count 1 else Ok count.

Definition getActiveNodeCount (st : State) : result Z :=
  for_loop (length (nodeList st)) 0 (count_step st) 0.

(** *** Transactions

    The external functions that change the state, as calls; a transaction
    that fails leaves the state as it was. *)

Inductive call : Type :=
  | CallRely (usr : Z)
  | CallDeny (usr : Z)
  | CallRegisterNode (nodeAddress stake : Z)
  | CallDeactivateNode (nodeAddress : Z) (reason : string)
  | CallUpdatePrice (newPrice : Z) (sourcePrices sources : list Z)
  | CallEmergencyUpdatePrice (newPrice : Z)
  | CallInvalidatePrice.

Record transaction : Type := mkTransaction {
  tx_sender : Z;
  tx_timestamp : Z;
  tx_call : call
}.

Definition exec (st : State) (tx : transaction) : result State :=
  match tx_call tx with
  | CallRely usr => rely st (tx_sender tx) usr
  | CallDeny usr => deny st (tx_sender tx) usr
  | CallRegisterNode a s => registerNode st (tx_sender tx) a s
  | CallDeactivateNode a r => deactivateNode st (tx_sender tx) a r
  | CallUpdatePrice p sp srcs =>
      updatePrice st (tx_sender tx) (tx_timestamp tx) p sp srcs
  | CallEmergencyUpdatePrice p =>
      emergencyUpdatePrice st (tx_sender tx) (tx_timestamp tx) p
  | CallInvalidatePrice => invalidatePrice st (tx_sender tx)
  end.

Definition step (st : State) (tx : transaction) : State :=
  match exec st tx with
  | Ok st' => st'
  | Revert _ => st
  | Panic _ => st
  end.

Definition run (st : State) (txs : list transaction) : State :=
  fold_left step txs st.

(** The calls that write a price with a new timestamp. *)
Definition is_publish (c : call) : bool :=
  match c with
  | CallUpdatePrice _ _ _ => true
  | CallEmergencyUpdatePrice _ => true
  | _ => false
  end.

(** States of a deployed contract: block timestamps never decrease along the
    chain, and [reachable st t] says that [st] is the state at some block of
    timestamp [t]. *)
Inductive reachable : State -> Z -> Prop :=
  | reachable_deploy (msg_sender _asset t : Z) :
      0 <= t -> reachable (constructor msg_sender _asset) t
  | reachable_step (st : State) (t : Z) (tx : transaction) :
      reachable st t -> t <= tx_timestamp tx ->
      reachable (step st tx) (tx_timestamp tx)
  | reachable_later (st : State) (t t' : Z) :
      reachable st t -> t <= t' -> reachable st t'.

(** The entries of a list of addresses whose node record is active. *)
Definition active_entries (st : State) (l : list Z) : list Z :=
  filter (fun a => active (node_of st a) = true) l.

(** The number of distinct addresses whose node record is active. *)
Definition distinct_active_count (st : State) : Z :=
  Z.of_nat (length (filter (fun kv => active (snd kv)) (map_to_list (nodes st)))).

End KUSDOracle.


(** ** JavaScript: completions and effects

    An operation of the oracle node either returns a value or throws; it runs
    against a world [W] (mutable fields, log, calls made), threaded through
    explicitly. [await] on a rejected promise throws, so that an [async]
    function is modelled by the completion of its body. *)

Module JS.

Inductive exn : Type :=
  | Error (message : string)
  | TypeError (message : string).

Definition message (e : exn) : string :=
  match e with Error m => m | TypeError m => m end.

Inductive completion (A : Type) : Type :=
  | Return (a : A)
  | Throw (e : exn).

Arguments Return {A} a.
Arguments Throw {A} e.

Definition M (W A : Type) : Type := W -> completion A * W.

Definition ret {W A : Type} (a : A) : M W A := fun w => (Return a, w).

Definition throw {W A : Type} (e : exn) : M W A := fun w => (Throw e, w).

Definition lift {W A : Type} (c : completion A) : M W A := fun w => (c, w).

Definition bind {W A B : Type} (m : M W A) (k : A -> M W B) : M W B :=
  fun w => match m w with
           | (Return a, w') => k a w'
           | (Throw e, w') => (Throw e, w')
           end.

(** [try { m } catch (error) { h error }] *)
Definition try_catch {W A : Type} (m : M W A) (h : exn -> M W A) : M W A :=
  fun w => match m w with
           | (Return a, w') => (Return a, w')
           | (Throw e, w') => h e w'
           end.


(** The outcome of one promise under [Promise.allSettled]. *)
Inductive settled (A : Type) : Type :=
  | fulfilled (value : A)
  | rejected (reason : exn).

Arguments fulfilled {A} value.
Arguments rejected {A} reason.

Definition settle {W A : Type} (p : M W A) : M W (settled A) :=
  fun w => match p w with
           | (Return a, w') => (Return (fulfilled a), w')
           | (Throw e, w') => (Return (rejected e), w')
           end.

(** [Promise.allSettled]: every promise is run to its outcome; the results
    come in the order of the array, whatever the order of completion (the
    promises are run here one after the other, in that order). *)
Fixpoint allSettled {W A : Type} (ps : list (M W A)) : M W (list (settled A)) :=
  match ps with
  | [] => ret []
  | p :: ps' =>
      bind (settle p) (fun r => bind (allSettled ps') (fun rs => ret (r :: rs)))
  end.

(** [v || d] on an optional integer: [undefined] and [0] are falsy. *)
Definition or_else (v : option Z) (d : Z) : Z :=
  match v with
  | Some x => if x =? 0 then d else x
  | None => d
  end.

(** [v >= n] on an optional integer: [undefined >= n] is false. *)
Definition ge (v : option Z) (n : Z) : bool :=
  match v with
  | Some x => x >=? n
  | None => false
  end.

End JS.

Notation "'let!' x ':=' m 'in' k" := (JS.bind m (fun x => k))
  (at level 10, x name, m at level 100, k at level 200).

(** ** JavaScript numbers

    What the price sources look at in a number: whether it is [NaN], and how
    it compares with zero. A finite number is represented by its exact
    rational value. *)

Module Number.

Inductive number : Type :=
  | NaN
  | Finite (q : Q)
  | Infinity
  | NegInfinity.

Definition isNaN (x : number) : bool :=
  match x with NaN => true | _ => false end.

(** [x <= 0]: a comparison with [NaN] is false. *)
Definition le_zero (x : number) : bool :=
  match x with
  | NaN => false
  | Finite q => Qle_bool q 0
  | Infinity => false
  | NegInfinity => true
  end.

End Number.

(** ** PriceSource: the base class of the price sources *)

Module PriceSource.

Record config : Type := mkConfig {
  config_timeout : option Z;
  config_retries : option Z
}.

Record PriceSource : Type := mkPriceSource {
  name : string;
  timeout : Z;
  retries : Z
}.

(** [constructor(name, config = {})]: the retry count is an integer. *)
Definition constructor (name : string) (cfg : config) : PriceSource :=
  mkPriceSource name
    (JS.or_else (config_timeout cfg) 10000)   (* 10 seconds default *)
    (JS.or_else (config_retries cfg) 3).

Section WithRetry.

Context {W A : Type}.
Variable sleep : Z -> JS.M W unit.

(** The loop of [withRetry] from counter [i], with [n] iterations left. Its
    result is [None] when the loop is left without a [return] (the function
    then returns [undefined]). *)
Fixpoint retry_loop (n : nat) (i retries : Z) (fn : JS.M W A)
    : JS.M W (option A) :=
  match n with
  | O => JS.ret None
  | S n' =>
      JS.try_catch
        (let! v := fn in JS.ret (Some v))
        (fun error =>
           if i =? retries - 1 then JS.throw error
           else let! _ := sleep (1000 * (i + 1)) in   (* Exponential backoff *)
                retry_loop n' (i + 1) retries fn)
  end.

(** [withRetry(fn, retries = this.retries)]: the counter runs from 0 while
    [i < retries]. *)
Definition withRetry (this : PriceSource) (fn : JS.M W A) (retries : option Z)
    : JS.M W (option A) :=
  let retries := match retries with Some r => r | None => PriceSource.retries this end in
  retry_loop (Z.to_nat retries) 0 retries fn.

End WithRetry.

(** A world that records what a wrapped operation and the wrapper do: the
    calls of the operation and the sleeps between them. *)
Inductive event : Type :=
  | Attempt
  | Sleep (ms : Z).

Definition is_attempt (e : event) : bool :=
  match e with Attempt => true | Sleep _ => false end.

Definition attempts (tr : list event) : nat := length (filter is_attempt tr).

Definition sleeps (tr : list event) : list Z :=
  omap (fun e => match e with Sleep ms => Some ms | Attempt => None end) tr.

Definition sleep (ms : Z) : JS.M (list event) unit :=
  fun tr => (JS.Return tt, tr ++ [Sleep ms]).

(** An operation whose [k]-th call (from 0) completes as [script k]. *)
Definition scripted {A : Type} (script : nat -> JS.completion A)
    : JS.M (list event) A :=
  fun tr => (script (attempts tr), tr ++ [Attempt]).

(** [validatePrice(price)], on a [price] that is a number (the sources pass
    it the result of [parseFloat]). [show] is the text of a number in a
    template string. *)
Definition validatePrice {W : Type} (show : Number.number -> string)
    (price : Number.number) : JS.M W Number.number :=
  if Number.isNaN price || Number.le_zero price
  then JS.throw (JS.Error (String.append "Invalid price: " (show price)))
  else JS.ret price.

End PriceSource.

(** ** OracleNode: the off-chain node *)

Module OracleNode.

Inductive event : Type :=
  | LogInfo (message : string)
  | LogWarn (message : string)
  | LogError (message : string)
  | GetPrice (sourceName asset : string)     (* source.getPrice(asset) was called *)
  | SendAlert (message : string).            (* this.sendAlert(message) was called *)

(** The fields of the node that the update cycle writes, and what it did. The
    keys of [failureCount] are the configured asset symbols (none of them the
    name of a member of [Object.prototype]); a key never written reads
    [undefined]. *)
Record world : Type := mkWorld {
  failureCount : gmap string Z;
  trace : list event
}.

Definition emit (e : event) : JS.M world unit :=
  fun w => (JS.Return tt, mkWorld (failureCount w) (trace w ++ [e])).

Definition get_failureCount (asset : string) : JS.M world (option Z) :=
  fun w => (JS.Return (failureCount w !! asset), w).

Definition set_failureCount (asset : string) (v : Z) : JS.M world unit :=
  fun w => (JS.Return tt, mkWorld (<[asset := v]> (failureCount w)) (trace w)).

(** [sendAlert(message)] *)
Definition sendAlert (message : string) : JS.M world unit :=
  let! _ := emit (SendAlert message) in
  emit (LogError (String.append "ALERT: " message)).

(** One iteration of the loop of [updateAllPrices]. [updateAssetPrice] is
    the call [this.updateAssetPrice(asset)], which touches neither
    [failureCount] nor the alert sink. *)
Definition update_one (updateAssetPrice : string -> JS.M world unit)
    (asset : string) : JS.M world unit :=
  JS.try_catch
    (let! _ := updateAssetPrice asset in
     set_failureCount asset 0)
    (fun error =>
       let! c := get_failureCount asset in
       let! _ := set_failureCount asset (JS.or_else c 0 + 1) in
       let! _ := emit (LogError (String.append "Failed to update "
                         (String.append asset (String.append ": " (JS.message error))))) in
       (* Alert if too many failures *)
       let! c' := get_failureCount asset in
       if JS.ge c' 5
       then sendAlert (String.append asset " price updates failing repeatedly")
       else JS.ret tt).


(** [updateAssetPrice] seen from the loop: it completes as [outcome asset]. *)
Definition completes_as (outcome : string -> JS.completion unit)
    : string -> JS.M world unit :=
  fun asset => JS.lift (outcome asset).


Definition alerts (tr : list event) : list string :=
  omap (fun e => match e with SendAlert m => Some m | _ => None end) tr.

Definition count_of (w : world) (asset : string) : Z :=
  JS.or_else (failureCount w !! asset) 0.

(** *** fetchPricesFromAllSources *)

(** [skipSources]: which sources to skip for specific assets. *)
Definition skipSources : gmap string (list string) :=
  {[ "DAI" := ["binance"; "kucoin"] ]}.

(** [skipSources] is an object literal: a key that it does not own is looked
    up on [Object.prototype], whose members are functions (or, for
    [__proto__], the prototype itself) and have no [includes] method. *)
Definition object_prototype_keys : list string :=
  [ "constructor"; "__defineGetter__"; "__defineSetter__"; "hasOwnProperty";
    "__lookupGetter__"; "__lookupSetter__"; "isPrototypeOf";
    "propertyIsEnumerable"; "toString"; "valueOf"; "__proto__";
    "toLocaleString" ].

(** [skipSources[asset]?.includes(sourceName)], as a condition. *)
Definition skip_includes (asset sourceName : string) : JS.completion bool :=
  match skipSources !! asset with
  | Some l => JS.Return (bool_decide (sourceName ∈ l))
  | None =>
      if bool_decide (asset ∈ object_prototype_keys)
      then JS.Throw (JS.TypeError "skipSources[asset]?.includes is not a function")
      else JS.Return false
  end.

Section Fetch.

(** The type of the prices that the sources return (JavaScript numbers),
    which the function only passes on. *)
Context {num : Type}.

Record reading : Type := mkReading {
  source : string;
  price : num;
  timestamp : Z
}.

(** A source, as far as one round goes: how its [getPrice(asset)] completes. *)
Definition price_source : Type := string -> JS.completion num.

(** [Date.now()] when the call to the named source has resolved. *)
Variable Date_now : string -> Z.

Definition getPrice (sourceName : string) (src : price_source) (asset : string)
    : JS.M world num :=
  let! _ := emit (GetPrice sourceName asset) in
  JS.lift (src asset).

(** The callback mapped over [Object.entries(this.sources)]. [None] is the
    [null] it returns for a source that is skipped or has failed. *)
Definition fetch_one (asset : string) (entry : string * price_source)
    : JS.M world (option reading) :=
  let sourceName := fst entry in
  let src := snd entry in
  (* Skip sources that don't support this asset *)
  let! skip := JS.lift (skip_includes asset sourceName) in
  if (skip : bool) then JS.ret None else
  JS.try_catch
    (let! price := getPrice sourceName src asset in
     JS.ret (Some (mkReading sourceName price (Date_now sourceName))))
    (fun error =>
       let! _ := emit (LogWarn (String.append sourceName
                        (String.append " failed for "
                          (String.append asset
                            (String.append ": " (JS.message error)))))) in
       JS.ret None).

(** [result.status === 'fulfilled' && result.value !== null], then
    [result.value]. *)
Definition fulfilled_value (r : JS.settled (option reading)) : option reading :=
  match r with
  | JS.fulfilled (Some v) => Some v
  | JS.fulfilled None => None
  | JS.rejected _ => None
  end.

Definition fetchPricesFromAllSources (sources : list (string * price_source))
    (asset : string) : JS.M world (list reading) :=
  let promises := map (fetch_one asset) sources in
  let! results := JS.allSettled promises in
  JS.ret (omap fulfilled_value results).

End Fetch.

Arguments reading : clear implicits.
Arguments price_source : clear implicits.

(** *** calculateMedian

    Prices are JavaScript numbers. They are represented by exact rationals:
    the double-precision operations agree with these wherever they are exact,
    as they are on the values the specification quotes. [None] stands for
    the [NaN] obtained from an empty array. *)

#[global] Instance compare_le_dec (a b : Q) : Decision (a - b <= 0)%Q.
Proof.
  destruct (Qlt_le_dec 0 (a - b)) as [H|H].
  - right. by apply Qlt_not_le.
  - by left.
Defined.



(** *** updateAssetPrice *)

Section UpdateAssetPrice.

Context {num : Type}.
Variable Date_now : string -> Z.

(** [this.oracles[asset]] is truthy: [oracles] are the keys of the object,
    which the constructor fills from [config.oracleAddresses]; another key
    is looked up on [Object.prototype]. *)
Definition has_oracle (oracles : list string) (asset : string) : bool :=
  bool_decide (asset ∈ oracles) || bool_decide (asset ∈ object_prototype_keys).

(** The rest of [updateAssetPrice], from the median to the log line: the
    validation of the median, the conversion to wei, the transaction and
    the record of the last price. *)
Variable publish : string -> list (reading num) -> JS.M world unit.

Definition updateAssetPrice (oracles : list string)
    (sources : list (string * price_source num)) (asset : string)
    : JS.M world unit :=
  if negb (has_oracle oracles asset)
  then JS.throw (JS.Error (String.append "No oracle contract for " asset))
  else
    (* Fetch prices from all sources *)
    let! sourcePrices := fetchPricesFromAllSources Date_now sources asset in
    if (length sourcePrices <? 3)%nat
    then JS.throw (JS.Error (String.append "Insufficient price sources for "
                               (String.append asset
                                  (String.append ": " (pretty (length sourcePrices))))))
    else publish asset sourcePrices.

End UpdateAssetPrice.

(** *** healthCheck *)

Section HealthCheck.

Context {num : Type}.

(** [try { await c } catch (error) { issues.push(issue) }] *)
Definition check (c : JS.M world unit) (issue : string) (issues : list string)
    : JS.M world (list string) :=
  JS.try_catch (let! _ := c in JS.ret issues)
               (fun error => JS.ret (issues ++ [issue])).

(** [for (const x of l) body x], the body working on the array [issues]. *)
Fixpoint for_of_issues {A : Type} (l : list A)
    (body : A -> list string -> JS.M world (list string)) (issues : list string)
    : JS.M world (list string) :=
  match l with
  | [] => JS.ret issues
  | x :: l' => let! issues := body x issues in for_of_issues l' body issues
  end.

(** [healthCheck()]: [getBlockNumber] is how [this.provider.getBlockNumber()]
    completes, [oracles] are the entries of [this.oracles] with how
    [oracle.getPriceData()] completes, and [sources] the entries of
    [this.sources]. *)
Definition healthCheck (getBlockNumber : JS.completion unit)
    (oracles : list (string * JS.completion unit))
    (sources : list (string * price_source num)) : JS.M world unit :=
  let! _ := emit (LogInfo "Performing health check...") in
  let issues := [] in
  (* Check blockchain connection *)
  let! issues := check (JS.lift getBlockNumber) "Blockchain connection failed" issues in
  (* Check oracle contracts *)
  let! issues :=
    for_of_issues oracles
      (fun entry =>
         check (JS.lift (snd entry))
           (String.append "Oracle contract for "
              (String.append (fst entry) " not responding"))) issues in
  (* Check price sources *)
  let! issues :=
    for_of_issues sources
      (fun entry =>
         check (let! _ := getPrice (fst entry) (snd entry) "BTC" in JS.ret tt)
           (String.append "Price source "
              (String.append (fst entry) " not responding"))) issues in
  if (0 <? length issues)%nat
  then
    let! _ := emit (LogError (String.append "Health check failed: "
                                (String.concat ", " issues))) in
    sendAlert (String.append "Health check issues: " (String.concat ", " issues))
  else emit (LogInfo "Health check passed").

End HealthCheck.

End OracleNode.

(** ** BinanceAPI: the Binance price source *)

Module BinanceAPI.

Definition symbolMap : gmap string string :=
  {[ "BTC" := "BTCUSDT"; "ETH" := "ETHUSDT"; "USDT" := "USDTUSD";
     "USDC" := "USDCUSDT"; "DAI" := "DAIUSDT" ]}.

(** [this.symbolMap[symbol]] is truthy: the symbol is a key of the map, or it
    names a member of [Object.prototype], on which a key that the map does
    not own is looked up. *)
Definition binanceSymbol_truthy (symbol : string) : bool :=
  bool_decide (is_Some (symbolMap !! symbol))
  || bool_decide (symbol ∈ OracleNode.object_prototype_keys).

Section GetPrice.

Context {W : Type}.
Variable sleep : Z -> JS.M W unit.
Variable show : Number.number -> string.

(** The request for the ticker of [symbol] followed by [parseFloat] of the
    price in the response: [axios.get] or the access to the response may
    throw, and [parseFloat] returns a number. *)
Variable ticker_price : string -> JS.M W Number.number.

(** [getPrice(symbol)]; [None] is the [undefined] that [withRetry] returns
    when its loop makes no attempt. *)
Definition getPrice (this : PriceSource.PriceSource) (symbol : string)
    : JS.M W (option Number.number) :=
  if negb (binanceSymbol_truthy symbol)
  then JS.throw (JS.Error (String.append "Symbol "
                             (String.append symbol " not supported by Binance")))
  (* DAI is delisted on Binance - skip to avoid unnecessary API calls *)
  else if bool_decide (symbol = "DAI")
  then JS.throw (JS.Error "DAI is not available on Binance (delisted)")
  (* Special case for USDT (should be ~$1) *)
  else if bool_decide (symbol = "USDT")
  then JS.ret (Some (Number.Finite 1))
  else
    PriceSource.withRetry sleep this
      (let! price := ticker_price symbol in
       PriceSource.validatePrice show price)
      None.

End GetPrice.

End BinanceAPI.

(** ** GeckoTerminalAPI: the GeckoTerminal price source *)

Module GeckoTerminalAPI.

(** Token contract addresses on Ethereum mainnet. *)
Definition tokenAddresses : gmap string string :=
  {[ "BTC" := "0x2260fac5e5542a773aa44fbcfedf7c193bc2c599";
     "ETH" := "0xc02aaa39b223fe8d0a0e5c4f27ead9083c756cc2";
     "USDT" := "0xdac17f958d2ee523a2206206994597c13d831ec7";
     "USDC" := "0xa0b86991c6218b36c1d19d4a2e9eb0ce3606eb48";
     "DAI" := "0x6b175474e89094c44da98b954eedeac495271d0f" ]}.

(** [this.tokenAddresses[symbol]] is truthy. *)
Definition tokenAddress_truthy (symbol : string) : bool :=
  bool_decide (is_Some (tokenAddresses !! symbol))
  || bool_decide (symbol ∈ OracleNode.object_prototype_keys).

Section GetPrice.

Context {W : Type}.
Variable sleep : Z -> JS.M W unit.
Variable show : Number.number -> string.

(** The request for the price of the token of [symbol], the check that the
    response holds it (which throws when it does not), and [parseFloat] of
    that price. *)
Variable token_price : string -> JS.M W Number.number.

Definition getPrice (this : PriceSource.PriceSource) (symbol : string)
    : JS.M W (option Number.number) :=
  if negb (tokenAddress_truthy symbol)
  then JS.throw (JS.Error (String.append "Symbol "
                             (String.append symbol " not supported by GeckoTerminal")))
  else
    PriceSource.withRetry sleep this
      (let! price := token_price symbol in
       PriceSource.validatePrice show price)
      None.

End GetPrice.

End GeckoTerminalAPI.

(** Sample deployment used in the examples below. *)
Module Sample.

Import KUSDOracle.

Definition owner : Z := 0xA11CE.
Definition node1 : Z := 0xB0B.
Definition BTC : Z := 0x425443.
Definition binance : Z := 1.
Definition coinbase : Z := 2.
Definition coingecko : Z := 3.
Definition ether : Z := 10 ^ 18.

Definition deployed : State := constructor owner BTC.

(** [deployed], then [registerNode(node1, 1000 ether)] by the owner. *)
Definition registered : State :=
  step deployed (mkTransaction owner 1700000000 (CallRegisterNode node1 (1000 * ether))).

(** [registered], then a first publication by [node1]. *)
Definition published : State :=
  step registered
    (mkTransaction node1 1700000060
       (CallUpdatePrice (50000 * ether)
          [49900 * ether; 50000 * ether; 50100 * ether]
          [binance; coinbase; coingecko])).

(** Register, deactivate and register again the same address. *)
Definition reregistered : State :=
  run deployed
    [ mkTransaction owner 1700000000 (CallRegisterNode node1 (1000 * ether));
      mkTransaction owner 1700000100 (CallDeactivateNode node1 "Test");
      mkTransaction owner 1700000200 (CallRegisterNode node1 (1000 * ether)) ].

(** A price source with the default configuration, and an operation on
    which every attempt fails. *)
Definition binance_source : PriceSource.PriceSource :=
  PriceSource.constructor "Binance" (PriceSource.mkConfig None None).

Definition always_fails : nat -> JS.completion Q :=
  fun _ => JS.Throw (JS.Error "timeout").



(** Three sources in a round: binance would answer 1, coinbase answers
    0.9998, kraken fails. *)
Definition three_sources : list (string * OracleNode.price_source Q) :=
  [ ("binance", fun _ => JS.Return 1%Q);
    ("coinbase", fun _ => JS.Return (9998 # 10000)%Q);
    ("kraken", fun _ => JS.Throw (JS.Error "timeout of 10000ms exceeded")) ].

Definition clock : string -> Z :=
  fun sourceName => if bool_decide (sourceName = "coinbase")
                    then 1700000002 else 1700000003.

End Sample.

(** ** Specification-level counterparts *)

(** One pass of the bubble sort seen on the list itself: the element [x] in
    hand is compared with the next [k] elements. *)
Fixpoint bubble (k : nat) (x : Z) (l : list Z) : list Z :=
  match k, l with
  | S k', y :: l' => if x >? y then y :: bubble k' x l' else x :: bubble k' y l'
  | _, _ => x :: l
  end.

(** The median in the words of the specification: sort ascending; the middle
    element for an odd count, the mean of the two middle elements (rounded
    down, on integers) for an even count. *)
Definition sort_ascending (prices : list Z) : list Z := merge_sort Z.le prices.

Definition median_spec (prices : list Z) : Z :=
  let sorted := sort_ascending prices in
  let mid := (length sorted / 2)%nat in
  if Nat.even (length sorted)
  then (nth (mid - 1) sorted 0 + nth mid sorted 0) / 2
  else nth mid sorted 0.

(** The deviation of a value from a reference, in basis points (an integer). *)
Definition deviationBp (value reference : Z) : Z :=
  Z.abs (value - reference) * 10000 / reference.

(** The two middle elements of an even-sized array add up within 256 bits. *)
Definition median_fits (prices : list Z) : Prop :=
  Nat.even (length prices) = true ->
  nth (length prices / 2 - 1) (sort_ascending prices) 0
  + nth (length prices / 2) (sort_ascending prices) 0 <= UINT256_MAX.

(** [k] failed attempts from counter [i] on, each followed by its backoff:
    the attempt of counter [j] is followed by a sleep of [1000 * (j + 1)]
    milliseconds. *)
Fixpoint backoff_trace (k : nat) (i : Z) : list PriceSource.event :=
  match k with
  | O => []
  | S k' =>
      PriceSource.Attempt :: PriceSource.Sleep (1000 * (i + 1))
        :: backoff_trace k' (i + 1)
  end.

(** The update cycle: which rounds failed, and the alerts of one cycle. *)
Definition failed (o : JS.completion unit) : bool :=
  match o with JS.Throw _ => true | JS.Return _ => false end.

Definition alert_message (asset : string) : string :=
  String.append asset " price updates failing repeatedly".

Definition cycle_alerts (outcome : string -> JS.completion unit)
    (w : OracleNode.world) (assets : list string) : list string :=
  omap (fun a => if failed (outcome a) && (OracleNode.count_of w a + 1 >=? 5)
                 then Some (alert_message a) else None) assets.

(** The exclusion table of the specification, and the sources that a round
    for [asset] calls. *)
Definition excluded (asset sourceName : string) : bool :=
  bool_decide (asset = "DAI") && bool_decide (sourceName ∈ ["binance"; "kucoin"]).

Definition attempted (asset sourceName : string) : bool :=
  negb (bool_decide (asset ∈ OracleNode.object_prototype_keys))
  && negb (excluded asset sourceName).

Definition successful_reading {num : Type} (Date_now : string -> Z)
    (asset : string) (entry : string * OracleNode.price_source num)
    : option (OracleNode.reading num) :=
  if attempted asset (fst entry) then
    match snd entry asset with
    | JS.Return p => Some (OracleNode.mkReading (fst entry) p (Date_now (fst entry)))
    | JS.Throw _ => None
    end
  else None.

Definition attempted_calls {num : Type} (asset : string)
    (sources : list (string * OracleNode.price_source num))
    : list (string * string) :=
  omap (fun entry => if attempted asset (fst entry)
                     then Some (fst entry, asset) else None) sources.

Definition getPrice_calls (tr : list OracleNode.event) : list (string * string) :=
  omap (fun e => match e with
                 | OracleNode.GetPrice s a => Some (s, a)
                 | _ => None
                 end) tr.

(** The world after one iteration of the loop of [updateAllPrices]. *)
Definition after_one (outcome : string -> JS.completion unit) (asset : string)
    (w : OracleNode.world) : OracleNode.world :=
  match outcome asset with
  | JS.Return _ =>
      OracleNode.mkWorld (<[asset := 0]> (OracleNode.failureCount w))
        (OracleNode.trace w)
  | JS.Throw e =>
      OracleNode.mkWorld
        (<[asset := OracleNode.count_of w asset + 1]> (OracleNode.failureCount w))
        (OracleNode.trace w
         ++ [OracleNode.LogError
               (String.append "Failed to update "
                  (String.append asset (String.append ": " (JS.message e))))]
         ++ (if OracleNode.count_of w asset + 1 >=? 5
             then [OracleNode.SendAlert (alert_message asset);
                   OracleNode.LogError (String.append "ALERT: " (alert_message asset))]
             else []))
  end.


(** ** The off-chain node: further notions *)

(** A number that [validatePrice] lets through: positive, possibly
    infinite. *)
Definition valid_price (x : Number.number) : Prop :=
  match x with
  | Number.Finite q => (0 < q)%Q
  | Number.Infinity => True
  | _ => False
  end.

(** The request of a source followed by [validatePrice], as one scripted
    operation: its [k]-th call fails when the request fails or when the
    number is not a valid price. *)
Definition validated (show : Number.number -> string)
    (script : nat -> JS.completion Number.number) (k : nat)
    : JS.completion Number.number :=
  match script k with
  | JS.Return p =>
      if Number.isNaN p || Number.le_zero p
      then JS.Throw (JS.Error (String.append "Invalid price: " (show p)))
      else JS.Return p
  | JS.Throw e => JS.Throw e
  end.

(** The issues that a health check has to report, in the order of the
    checks. *)
Definition expected_issues {num : Type} (getBlockNumber : JS.completion unit)
    (oracles : list (string * JS.completion unit))
    (sources : list (string * OracleNode.price_source num)) : list string :=
  (if failed getBlockNumber then ["Blockchain connection failed"] else [])
  ++ omap (fun entry : string * JS.completion unit =>
             if failed (snd entry)
             then Some (String.append "Oracle contract for "
                          (String.append (fst entry) " not responding"))
             else None) oracles
  ++ omap (fun entry : string * OracleNode.price_source num =>
             match snd entry "BTC" with
             | JS.Throw _ =>
                 Some (String.append "Price source "
                         (String.append (fst entry) " not responding"))
             | JS.Return _ => None
             end) sources.

(** The alert of a health check with these issues, if any. *)
Definition health_alert (issues : list string) : list string :=
  match issues with
  | [] => []
  | _ => [String.append "Health check issues: " (String.concat ", " issues)]
  end.

(** The error of [updateAssetPrice] when [n] sources have answered. *)
Definition insufficient (asset : string) (n : nat) : JS.exn :=
  JS.Error (String.append "Insufficient price sources for "
              (String.append asset (String.append ": " (pretty n)))).

(** ** The registry seen by its users: further notions *)

(** The price that a publication writes. *)
Definition published_price (c : KUSDOracle.call) : Z :=
  match c with
  | KUSDOracle.CallUpdatePrice p _ _ => p
  | KUSDOracle.CallEmergencyUpdatePrice p => p
  | _ => 0
  end.

(** The calls that cannot touch the stored price data: neither a publication
    nor an invalidation. *)
Definition keeps_price (c : KUSDOracle.call) : bool :=
  match c with
  | KUSDOracle.CallUpdatePrice _ _ _ => false
  | KUSDOracle.CallEmergencyUpdatePrice _ => false
  | KUSDOracle.CallInvalidatePrice => false
  | _ => true
  end.

(** The reason with which a call of an account that is neither a ward nor an
    active node is turned down. *)
Definition refusal (c : KUSDOracle.call) : string :=
  match c with
  | KUSDOracle.CallUpdatePrice _ _ _ => "KUSDOracle/node-not-active"
  | _ => "KUSDOracle/not-authorized"
  end.

(** Every active node is on [nodeList], and the zero address is not one. *)
Definition nodes_listed (st : KUSDOracle.State) : Prop :=
  forall a, KUSDOracle.active (KUSDOracle.node_of st a) = true ->
            a ∈ KUSDOracle.nodeList st /\ a <> 0.

(** A price marked valid is positive. *)
Definition valid_positive (st : KUSDOracle.State) : Prop :=
  KUSDOracle.valid (KUSDOracle.priceData st) = true ->
  0 < KUSDOracle.price (KUSDOracle.priceData st).

Definition nobody_is_ward (st : KUSDOracle.State) : Prop :=
  forall a, KUSDOracle.ward_of st a <> 1.

(** Further sample states: the owner gives up its authority; a node is
    deactivated. *)
Module Scenario.

Import KUSDOracle.

Definition renounced : State :=
  step Sample.published
    (mkTransaction Sample.owner 1700000100 (CallDeny Sample.owner)).

Definition deactivated : State :=
  step Sample.published
    (mkTransaction Sample.owner 1700000100
       (CallDeactivateNode Sample.node1 "Test deactivation")).

Definition later_calls : list transaction :=
  [ mkTransaction Sample.owner 1700000200 (CallRely Sample.owner);
    mkTransaction Sample.owner 1700000300 CallInvalidatePrice;
    mkTransaction Sample.owner 1700000400 (CallRegisterNode 0xC0FFEE 5);
    mkTransaction Sample.node1 1700000500
      (CallUpdatePrice (50000 * Sample.ether)
         [49900 * Sample.ether; 50000 * Sample.ether; 50100 * Sample.ether]
         [Sample.binance; Sample.coinbase; Sample.coingecko]) ].

Definition housekeeping : list transaction :=
  [ mkTransaction Sample.owner 1700000200 (CallRegisterNode 0xC0FFEE 5);
    mkTransaction Sample.owner 1700000300 (CallRely 0xC0FFEE) ].

End Scenario.

(** ** The contract KUSDOracleFactory

    The factory deploys the oracles and calls them. Its calls into an oracle
    are made with the factory's own address [this] as [msg.sender]; a call
    that fails inside an oracle makes the factory's call fail with the same
    error, so that a factory function is all or nothing. The chain holds the
    factory and the [KUSDOracle] contracts; a call to an address that holds
    no contract reverts without a reason. *)

Module KUSDOracleFactory.

Inductive Event : Type :=
  | OracleDeployed (asset oracle : Z)
  | OracleUpdated (asset oldOracle newOracle : Z)
  | Rely (usr : Z)
  | Deny (usr : Z).

Record Factory : Type := mkFactory {
  wards : gmap Z Z;
  oracles : gmap Z Z;        (* asset => oracle address *)
  oracleAssets : gmap Z Z;   (* oracle => asset *)
  assetList : list Z;        (* List of all assets *)
  events : list Event
}.

Record Chain : Type := mkChain {
  factory : Factory;
  deployed : gmap Z KUSDOracle.State
}.

Definition ward_of (f : Factory) (usr : Z) : Z := default 0 (wards f !! usr).
Definition oracle_of (f : Factory) (asset : Z) : Z := default 0 (oracles f !! asset).
Definition asset_of (f : Factory) (oracle : Z) : Z := default 0 (oracleAssets f !! oracle).

Definition set_factory (f : Factory) (ch : Chain) : Chain := mkChain f (deployed ch).

Definition emit (e : Event) (f : Factory) : Factory :=
  mkFactory (wards f) (oracles f) (oracleAssets f) (assetList f) (events f ++ [e]).

(** [constructor()], deployed by [msg_sender]. *)
Definition constructor (msg_sender : Z) : Factory :=
  emit (Rely msg_sender) (mkFactory {[ msg_sender := 1 ]} ∅ ∅ [] []).

(** [modifier auth]. *)
Definition auth (ch : Chain) (msg_sender : Z) : result unit :=
  require (ward_of (factory ch) msg_sender =? 1) "KUSDOracleFactory/not-authorized".

Definition rely (ch : Chain) (msg_sender usr : Z) : result Chain :=
  let* _ := auth ch msg_sender in
  let f := factory ch in
  Ok (set_factory
        (emit (Rely usr)
           (mkFactory (<[usr := 1]> (wards f)) (oracles f) (oracleAssets f)
                      (assetList f) (events f))) ch).

Definition deny (ch : Chain) (msg_sender usr : Z) : result Chain :=
  let* _ := auth ch msg_sender in
  let f := factory ch in
  Ok (set_factory
        (emit (Deny usr)
           (mkFactory (<[usr := 0]> (wards f)) (oracles f) (oracleAssets f)
                      (assetList f) (events f))) ch).

(** [KUSDOracle(oracle).f(...)], a call that changes the oracle. *)
Definition call_oracle (ch : Chain) (oracle : Z)
    (f : KUSDOracle.State -> result KUSDOracle.State) : result Chain :=
  match deployed ch !! oracle with
  | Some st =>
      let* st' := f st in
      Ok (mkChain (factory ch) (<[oracle := st']> (deployed ch)))
  | None => Revert ""
  end.

(** [deployOracle(asset)], called on the factory at [this]. [oracle] is the
    address that the creation gives the new contract; the creation fails
    when that address is taken. The constructor of the oracle runs with the
    factory as [msg.sender]. *)
Definition deployOracle (ch : Chain) (this msg_sender : Z) (asset : Z)
    (oracle : Z) : result (Chain * Z) :=
  let* _ := auth ch msg_sender in
  let* _ := require (negb (asset =? 0)) "KUSDOracleFactory/invalid-asset" in
  let* _ := require (oracle_of (factory ch) asset =? 0)
                    "KUSDOracleFactory/oracle-exists" in
  (* Deploy new oracle *)
  let* _ := require (negb (oracle =? 0)
                     && bool_decide (deployed ch !! oracle = None)) "" in
  let ch1 := mkChain (factory ch)
               (<[oracle := KUSDOracle.constructor this asset]> (deployed ch)) in
  (* Store mapping *)
  let f := factory ch1 in
  let f1 := mkFactory (wards f) (<[asset := oracle]> (oracles f))
                      (<[oracle := asset]> (oracleAssets f))
                      (assetList f ++ [asset]) (events f) in
  let ch2 := set_factory f1 ch1 in
  (* Grant factory auth to oracle for initial setup *)
  let* ch3 := call_oracle ch2 oracle (fun st => KUSDOracle.rely st this this) in
  let* ch4 := call_oracle ch3 oracle (fun st => KUSDOracle.rely st this msg_sender) in
  Ok (set_factory (emit (OracleDeployed asset oracle) (factory ch4)) ch4, oracle).

Definition updateOracle (ch : Chain) (msg_sender : Z) (asset newOracle : Z)
    : result Chain :=
  let* _ := auth ch msg_sender in
  let* _ := require (negb (asset =? 0)) "KUSDOracleFactory/invalid-asset" in
  let* _ := require (negb (newOracle =? 0)) "KUSDOracleFactory/invalid-oracle" in
  let f := factory ch in
  let oldOracle := oracle_of f asset in
  let* _ := require (negb (oldOracle =? 0)) "KUSDOracleFactory/oracle-not-exists" in
  (* Update mappings *)
  let f1 := mkFactory (wards f) (<[asset := newOracle]> (oracles f))
                      (<[newOracle := asset]> (<[oldOracle := 0]> (oracleAssets f)))
                      (assetList f) (events f) in
  Ok (set_factory (emit (OracleUpdated asset oldOracle newOracle) f1) ch).

Definition getOracle (ch : Chain) (asset : Z) : Z := oracle_of (factory ch) asset.
Definition getAsset (ch : Chain) (oracle : Z) : Z := asset_of (factory ch) oracle.
Definition getAllAssets (ch : Chain) : list Z := assetList (factory ch).
Definition getOracleCount (ch : Chain) : Z := Z.of_nat (length (assetList (factory ch))).

(** The body of the loops over an array of assets: [f] is the call made to
    the oracle of the asset at index [i]. *)
Definition batch_step (assets : list Z)
    (f : KUSDOracle.State -> result KUSDOracle.State) (i : nat) (ch : Chain)
    : result Chain :=
  let* asset := array_get assets i in
  let oracle := oracle_of (factory ch) asset in
  let* _ := require (negb (oracle =? 0)) "KUSDOracleFactory/oracle-not-exists" in
  call_oracle ch oracle f.

Definition batchRegisterNode (ch : Chain) (this msg_sender : Z)
    (assets : list Z) (nodeAddress stake : Z) : result Chain :=
  let* _ := auth ch msg_sender in
  let* _ := require (negb (nodeAddress =? 0)) "KUSDOracleFactory/invalid-node" in
  for_loop (length assets) 0
    (batch_step assets (fun st => KUSDOracle.registerNode st this nodeAddress stake))
    ch.

Definition batchDeactivateNode (ch : Chain) (this msg_sender : Z)
    (assets : list Z) (nodeAddress : Z) (reason : string) : result Chain :=
  let* _ := auth ch msg_sender in
  let* _ := require (negb (nodeAddress =? 0)) "KUSDOracleFactory/invalid-node" in
  for_loop (length assets) 0
    (batch_step assets (fun st => KUSDOracle.deactivateNode st this nodeAddress reason))
    ch.

Definition invalidate_step (this : Z) (i : nat) (ch : Chain) : result Chain :=
  let* asset := array_get (assetList (factory ch)) i in
  let oracle := oracle_of (factory ch) asset in
  if negb (oracle =? 0)
  then call_oracle ch oracle (fun st => KUSDOracle.invalidatePrice st this)
  else Ok ch.

Definition emergencyInvalidateAll (ch : Chain) (this msg_sender : Z) : result Chain :=
  let* _ := auth ch msg_sender in
  for_loop (length (assetList (factory ch))) 0 (invalidate_step this) ch.

(** The calls that a ward of the factory can make. *)
Inductive call : Type :=
  | CallRely (usr : Z)
  | CallDeny (usr : Z)
  | CallDeployOracle (asset oracle : Z)
  | CallUpdateOracle (asset newOracle : Z)
  | CallBatchRegisterNode (assets : list Z) (nodeAddress stake : Z)
  | CallBatchDeactivateNode (assets : list Z) (nodeAddress : Z) (reason : string)
  | CallEmergencyInvalidateAll.

Definition exec (ch : Chain) (this msg_sender : Z) (c : call) : result Chain :=
  match c with
  | CallRely usr => rely ch msg_sender usr
  | CallDeny usr => deny ch msg_sender usr
  | CallDeployOracle asset oracle =>
      let* r := deployOracle ch this msg_sender asset oracle in Ok (fst r)
  | CallUpdateOracle asset newOracle => updateOracle ch msg_sender asset newOracle
  | CallBatchRegisterNode assets n s => batchRegisterNode ch this msg_sender assets n s
  | CallBatchDeactivateNode assets n r =>
      batchDeactivateNode ch this msg_sender assets n r
  | CallEmergencyInvalidateAll => emergencyInvalidateAll ch this msg_sender
  end.




End KUSDOracleFactory.

(** The registry of the factory is consistent: the listed assets are
    distinct and non-zero, and they are the assets that have an oracle. *)
Definition registry_consistent (f : KUSDOracleFactory.Factory) : Prop :=
  NoDup (KUSDOracleFactory.assetList f) /\
  (0 ∉ KUSDOracleFactory.assetList f) /\
  forall asset, asset ∈ KUSDOracleFactory.assetList f
                <-> KUSDOracleFactory.oracle_of f asset <> 0.


(** One call after the other over a list, stopping at the first failure. *)
Fixpoint foldM {A S : Type} (f : A -> S -> result S) (l : list A) (s : S)
    : result S :=
  match l with
  | [] => Ok s
  | x :: l' => let* s' := f x s in foldM f l' s'
  end.

(** What the loops of [batchRegisterNode] and [batchDeactivateNode] do for
    one asset. *)
Definition batch_call (f : KUSDOracle.State -> result KUSDOracle.State)
    (asset : Z) (ch : KUSDOracleFactory.Chain) : result KUSDOracleFactory.Chain :=
  let oracle := KUSDOracleFactory.oracle_of (KUSDOracleFactory.factory ch) asset in
  let* _ := require (negb (oracle =? 0)) "KUSDOracleFactory/oracle-not-exists" in
  KUSDOracleFactory.call_oracle ch oracle f.

(** What the loop of [emergencyInvalidateAll] does for one asset. *)
Definition invalidate_call (this asset : Z) (ch : KUSDOracleFactory.Chain)
    : result KUSDOracleFactory.Chain :=
  let oracle := KUSDOracleFactory.oracle_of (KUSDOracleFactory.factory ch) asset in
  if negb (oracle =? 0)
  then KUSDOracleFactory.call_oracle ch oracle
         (fun st => KUSDOracle.invalidatePrice st this)
  else Ok ch.


(** An oracle state after the registration of [node] with [stake], and after
    the deactivation of [node]. *)
Definition with_node (node stake : Z) (st : KUSDOracle.State) : KUSDOracle.State :=
  KUSDOracle.emit (KUSDOracle.NodeRegistered node stake)
    (KUSDOracle.set_nodeList (KUSDOracle.nodeList st ++ [node])
       (KUSDOracle.set_nodes
          (<[node := KUSDOracle.mkOracleNode node stake 100 true 0]>
             (KUSDOracle.nodes st)) st)).

Definition without_node (node : Z) (reason : string) (st : KUSDOracle.State)
    : KUSDOracle.State :=
  let n := KUSDOracle.node_of st node in
  KUSDOracle.emit (KUSDOracle.NodeDeactivated node reason)
    (KUSDOracle.set_nodes
       (<[node := KUSDOracle.mkOracleNode (KUSDOracle.nodeAddress n)
                    (KUSDOracle.stake n) (KUSDOracle.reputation n) false
                    (KUSDOracle.lastUpdate n)]> (KUSDOracle.nodes st)) st).

(** The oracles of a batch of assets can take a call that requires [P]: they
    are distinct deployed contracts whose state satisfies [P]. *)
Definition batch_ready (ch : KUSDOracleFactory.Chain) (assets : list Z)
    (P : KUSDOracle.State -> Prop) : Prop :=
  NoDup (KUSDOracleFactory.getOracle ch <$> assets) /\
  forall a, a ∈ assets ->
    KUSDOracleFactory.getOracle ch a <> 0 /\
    exists st, KUSDOracleFactory.deployed ch !! KUSDOracleFactory.getOracle ch a
               = Some st /\ P st.

(** A batch call has applied [g] to the oracle of each asset of the batch and
    has changed nothing else. *)
Definition batch_applied (ch ch' : KUSDOracleFactory.Chain) (assets : list Z)
    (g : KUSDOracle.State -> KUSDOracle.State) : Prop :=
  KUSDOracleFactory.factory ch' = KUSDOracleFactory.factory ch /\
  (forall a, a ∈ assets ->
     KUSDOracleFactory.deployed ch' !! KUSDOracleFactory.getOracle ch a
     = g <$> KUSDOracleFactory.deployed ch !! KUSDOracleFactory.getOracle ch a) /\
  (forall o, o ∉ KUSDOracleFactory.getOracle ch <$> assets ->
     KUSDOracleFactory.deployed ch' !! o = KUSDOracleFactory.deployed ch !! o).



(** The two mappings of the factory agree: the asset recorded for the oracle
    of an asset is that asset. *)
Definition reverse_consistent (f : KUSDOracleFactory.Factory) : Prop :=
  forall a, KUSDOracleFactory.oracle_of f a <> 0 ->
            KUSDOracleFactory.asset_of f (KUSDOracleFactory.oracle_of f a) = a.

(** The address that a call gives an asset as its oracle is not the oracle
    of another asset. *)
Definition target_unused (f : KUSDOracleFactory.Factory)
    (c : KUSDOracleFactory.call) : Prop :=
  match c with
  | KUSDOracleFactory.CallDeployOracle asset oracle =>
      forall b, b <> asset -> KUSDOracleFactory.oracle_of f b <> oracle
  | KUSDOracleFactory.CallUpdateOracle asset newOracle =>
      forall b, b <> asset -> KUSDOracleFactory.oracle_of f b <> newOracle
  | _ => True
  end.

(** Sample chain: a factory at [0xFAC] deployed by the owner, with oracles
    for BTC and ETH. *)
Module FactorySample.

Definition this : Z := 0xFAC.
Definition ETH : Z := 0x455448.
Definition btc_oracle : Z := 0x1001.
Definition eth_oracle : Z := 0x1002.

Definition chain_of (r : result KUSDOracleFactory.Chain)
    (d : KUSDOracleFactory.Chain) : KUSDOracleFactory.Chain :=
  match r with Ok ch => ch | _ => d end.

Definition fresh : KUSDOracleFactory.Chain :=
  KUSDOracleFactory.mkChain (KUSDOracleFactory.constructor Sample.owner) ∅.

Definition with_btc : KUSDOracleFactory.Chain :=
  chain_of (KUSDOracleFactory.exec fresh this Sample.owner
              (KUSDOracleFactory.CallDeployOracle Sample.BTC btc_oracle)) fresh.

Definition with_both : KUSDOracleFactory.Chain :=
  chain_of (KUSDOracleFactory.exec with_btc this Sample.owner
              (KUSDOracleFactory.CallDeployOracle ETH eth_oracle)) with_btc.


Definition with_node1 : KUSDOracleFactory.Chain :=
  chain_of (KUSDOracleFactory.exec with_both this Sample.owner
              (KUSDOracleFactory.CallBatchRegisterNode [Sample.BTC; ETH]
                 Sample.node1 1000)) with_both.

End FactorySample.

(** Sample runs of the off-chain node. *)
Module NodeSample.

(** The text of the numbers of the sample, of which only [NaN] is shown. *)
Definition show (x : Number.number) : string :=
  match x with
  | Number.NaN => "NaN"
  | Number.Infinity => "Infinity"
  | Number.NegInfinity => "-Infinity"
  | Number.Finite _ => "50000"
  end.

(** A ticker whose first answer does not parse and whose second is 50000. *)
Definition flaky_ticker : nat -> JS.completion Number.number :=
  fun k => match k with
           | O => JS.Return Number.NaN
           | S _ => JS.Return (Number.Finite 50000)
           end.

Definition gecko_source : PriceSource.PriceSource :=
  PriceSource.constructor "GeckoTerminal" (PriceSource.mkConfig None None).

(** Two oracle contracts, of which the one of ETH does not respond. *)
Definition oracles : list (string * JS.completion unit) :=
  [ ("BTC", JS.Return tt); ("ETH", JS.Throw (JS.Error "timeout")) ].

Definition no_publication : string -> list (OracleNode.reading Q)
                            -> JS.M OracleNode.world unit :=
  fun _ _ => JS.ret tt.

End NodeSample.

(** * Proofs *)

Section ArrayLemmas.

Lemma array_get_middle (pre : list Z) x l :
  array_get (pre ++ x :: l) (length pre) = Ok x.
Proof. unfold array_get. by rewrite list_lookup_middle. Qed.

Lemma array_set_middle (pre : list Z) x l v :
  array_set (pre ++ x :: l) (length pre) v = Ok (pre ++ v :: l).
Proof.
  unfold array_set.
  replace (length pre <? length (pre ++ x :: l))%nat with true.
  - f_equal. rewrite insert_app_r_alt by lia. by rewrite Nat.sub_diag.
  - symmetry. apply Nat.ltb_lt. rewrite length_app. simpl. lia.
Qed.

Lemma swap_step_middle (pre : list Z) x y l :
  KUSDOracle.swap_step (length pre) (pre ++ x :: y :: l)
  = Ok (if x >? y then pre ++ y :: x :: l else pre ++ x :: y :: l).
Proof.
  unfold KUSDOracle.swap_step.
  rewrite array_get_middle. simpl.
  replace (pre ++ x :: y :: l) with ((pre ++ [x]) ++ y :: l) at 1
    by (by rewrite <- app_assoc).
  replace (length pre + 1)%nat with (length (pre ++ [x]))
    by (rewrite length_app; simpl; lia).
  rewrite array_get_middle. simpl.
  destruct (x >? y); [|done].
  rewrite array_set_middle. simpl.
  replace (pre ++ y :: y :: l) with ((pre ++ [y]) ++ y :: l)
    by (by rewrite <- app_assoc).
  replace (length (pre ++ [x])) with (length (pre ++ [y]))
    by (rewrite !length_app; simpl; lia).
  rewrite array_set_middle. by rewrite <- app_assoc.
Qed.

Lemma inner_loop_bubble k : forall (pre : list Z) x l,
  (k <= length l)%nat ->
  for_loop k (length pre) KUSDOracle.swap_step (pre ++ x :: l)
  = Ok (pre ++ bubble k x l).
Proof.
  induction k as [|k IH]; intros pre x l Hk; [done|].
  destruct l as [|y l]; [simpl in Hk; lia|].
  simpl in Hk. cbn [for_loop].
  rewrite swap_step_middle. cbn [bind bubble].
  destruct (x >? y).
  - replace (pre ++ y :: x :: l) with ((pre ++ [y]) ++ x :: l)
      by (by rewrite <- app_assoc).
    replace (S (length pre)) with (length (pre ++ [y]))
      by (rewrite length_app; simpl; lia).
    rewrite IH by lia. by rewrite <- app_assoc.
  - replace (pre ++ x :: y :: l) with ((pre ++ [x]) ++ y :: l)
      by (by rewrite <- app_assoc).
    replace (S (length pre)) with (length (pre ++ [x]))
      by (rewrite length_app; simpl; lia).
    rewrite IH by lia. by rewrite <- app_assoc.
Qed.

End ArrayLemmas.

Section BubbleSort.

Lemma bubble_max (l1 : list Z) : forall x l2,
  exists f m,
    bubble (length l1) x (l1 ++ l2) = f ++ m :: l2 /\
    f ++ [m] ≡ₚ x :: l1 /\
    Forall (fun v => v <= m) f /\
    x <= m.
Proof.
  induction l1 as [|y l1 IH]; intros x l2.
  - exists [], x. simpl. repeat split; [done | constructor | lia].
  - cbn [length app bubble].
    destruct (Z.gtb_spec x y) as [Hxy|Hxy].
    + destruct (IH x l2) as (f & m & Hb & Hp & Hf & Hm).
      exists (y :: f), m. rewrite Hb. repeat split; [| |done].
      * simpl. rewrite Hp. apply perm_swap.
      * constructor; [lia|done].
    + destruct (IH y l2) as (f & m & Hb & Hp & Hf & Hm).
      exists (x :: f), m. rewrite Hb. repeat split; [| |lia].
      * simpl. by rewrite Hp.
      * constructor; [lia|done].
Qed.

(** Invariant of the outer loop: the array is an unsorted part [u] followed
    by a sorted part [s] that dominates it. *)
Definition pass_inv (prices u s : list Z) : Prop :=
  u ++ s ≡ₚ prices /\
  StronglySorted Z.le s /\
  Forall (fun v => Forall (Z.le v) s) u.

Lemma bubble_pass_step (x : Z) (l1 s : list Z) :
  KUSDOracle.bubble_pass (length s) ((x :: l1) ++ s)
  = Ok (bubble (length l1) x (l1 ++ s)).
Proof.
  unfold KUSDOracle.bubble_pass, checked_sub.
  rewrite length_app. cbn [length].
  replace (Z.of_nat (length s) <=? Z.of_nat (S (length l1) + length s)) with true
    by (symmetry; apply Z.leb_le; lia).
  cbn [bind].
  replace (1 <=? _) with true by (symmetry; apply Z.leb_le; lia).
  cbn [bind].
  replace (Z.to_nat _) with (length l1) by lia.
  apply (inner_loop_bubble (length l1) [] x (l1 ++ s)).
  rewrite length_app. lia.
Qed.

Lemma outer_loop_sorts (prices : list Z) k : forall u s,
  length u = S k -> pass_inv prices u s ->
  exists r, for_loop k (length s) KUSDOracle.bubble_pass (u ++ s) = Ok r /\
            r ≡ₚ prices /\ StronglySorted Z.le r.
Proof.
  induction k as [|k IH]; intros u s Hlen (Hperm & Hsorted & Hdom).
  - destruct u as [|x [|? ?]]; try discriminate.
    exists (x :: s). repeat split; [done|].
    constructor; [done|]. by inversion Hdom.
  - destruct u as [|x l1]; [discriminate|].
    cbn [for_loop]. rewrite bubble_pass_step. cbn [bind].
    destruct (bubble_max l1 x s) as (f & m & Hb & Hp & Hf & Hm).
    rewrite Hb.
    assert (Hmu : m ∈ x :: l1).
    { rewrite <- Hp. apply elem_of_app. right. by apply list_elem_of_singleton. }
    assert (Hms : Forall (Z.le m) s).
    { rewrite Forall_forall in Hdom. by apply Hdom. }
    apply (IH f (m :: s)).
    + apply Permutation_length in Hp. rewrite length_app in Hp.
      simpl in Hp, Hlen. lia.
    + repeat split.
      * rewrite <- Hperm, <- Hp, <- app_assoc. done.
      * by constructor.
      * apply Forall_forall. intros v Hv. constructor.
        -- rewrite Forall_forall in Hf. by apply Hf.
        -- rewrite Forall_forall in Hdom. apply Hdom.
           rewrite <- Hp. apply elem_of_app. by left.
Qed.

Lemma copy_loop (prices : list Z) k : forall i,
  (i + k)%nat = length prices ->
  for_loop k i (KUSDOracle.copy_step prices) (take i prices ++ replicate k 0)
  = Ok prices.
Proof.
  induction k as [|k IH]; intros i Hik.
  - simpl. rewrite app_nil_r, take_ge by lia. done.
  - cbn [for_loop replicate]. unfold KUSDOracle.copy_step at 1.
    destruct (lookup_lt_is_Some_2 prices i) as [v Hv]; [lia|].
    unfold array_get at 1. rewrite Hv. cbn [bind].
    assert (Hset : array_set (take i prices ++ 0 :: replicate k 0) i v
                   = Ok (take i prices ++ v :: replicate k 0)).
    { rewrite <- (array_set_middle (take i prices) 0 (replicate k 0) v).
      f_equal. rewrite length_take. lia. }
    rewrite Hset. cbn [bind].
    replace (take i prices ++ v :: replicate k 0)
      with (take (S i) prices ++ replicate k 0).
    + apply IH. lia.
    + rewrite (take_S_r _ _ _ Hv), <- app_assoc. done.
Qed.

(** The sorting phase of [_calculateMedian] returns the ascending sort. *)
Lemma bubble_sort_sorts (prices : list Z) :
  prices <> [] ->
  for_loop (length prices - 1) 0 KUSDOracle.bubble_pass prices
  = Ok (sort_ascending prices).
Proof.
  intros Hne.
  destruct (outer_loop_sorts prices (length prices - 1) prices [])
    as (r & Hr & Hp & Hs).
  - destruct prices; [done|]. simpl. lia.
  - repeat split; [by rewrite app_nil_r | constructor |].
    apply Forall_forall. intros. constructor.
  - rewrite app_nil_r in Hr. simpl in Hr. rewrite Hr. f_equal.
    apply (StronglySorted_unique Z.le); [done | |].
    + apply StronglySorted_merge_sort; apply _.
    + rewrite Hp. symmetry. apply merge_sort_Permutation.
Qed.

End BubbleSort.

Section Median.

Lemma mod2_even (n : nat) : (Z.of_nat n mod 2 =? 0) = Nat.even n.
Proof.
  destruct (Nat.even n) eqn:E.
  - apply Nat.even_spec in E as [k ->]. apply Z.eqb_eq.
    rewrite Nat2Z.inj_mul, Z.mul_comm. apply Z_mod_mult.
  - apply Z.eqb_neq. intros H.
    assert (Hodd : Nat.odd n = true) by (by rewrite <- Nat.negb_even, E).
    apply Nat.odd_spec in Hodd as [k ->].
    rewrite Nat2Z.inj_add, Nat2Z.inj_mul, Z.add_comm, Z.mul_comm in H.
    rewrite Z_mod_plus_full in H. discriminate.
Qed.

Lemma of_nat_div2 (n : nat) : Z.of_nat n / 2 = Z.of_nat (n / 2).
Proof. change 2 with (Z.of_nat 2). symmetry. apply Nat2Z.inj_div. Qed.

Lemma array_get_nth (a : list Z) (i : nat) :
  (i < length a)%nat -> array_get a i = Ok (nth i a 0).
Proof.
  intros Hi. unfold array_get.
  destruct (lookup_lt_is_Some_2 a i Hi) as [v Hv]. rewrite Hv.
  f_equal. symmetry. by apply nth_lookup_Some.
Qed.

Lemma sort_ascending_length (prices : list Z) :
  length (sort_ascending prices) = length prices.
Proof. apply Permutation_length, merge_sort_Permutation. Qed.

(** What [_calculateMedian] computes on a non-empty array. *)
Lemma calculateMedian_unfold (prices : list Z) :
  prices <> [] ->
  KUSDOracle._calculateMedian prices =
    let sorted := sort_ascending prices in
    let mid := (length prices / 2)%nat in
    if Nat.even (length prices)
    then let* s := checked_add (nth (mid - 1) sorted 0) (nth mid sorted 0) in
         Ok (s / 2)
    else Ok (nth mid sorted 0).
Proof.
  intros Hne. unfold KUSDOracle._calculateMedian.
  assert (Hlen : (0 < length prices)%nat) by (destruct prices; [done|simpl; lia]).
  pose proof (copy_loop prices (length prices) 0%nat eq_refl) as Hcopy.
  simpl in Hcopy. rewrite Hcopy. cbn [bind].
  unfold checked_sub at 1.
  replace (1 <=? Z.of_nat (length prices)) with true
    by (symmetry; apply Z.leb_le; lia).
  cbn [bind].
  replace (Z.to_nat (Z.of_nat (length prices) - 1)) with (length prices - 1)%nat by lia.
  rewrite (bubble_sort_sorts prices Hne). cbn [bind].
  rewrite sort_ascending_length, mod2_even.
  unfold checked_div at 1. cbn [Z.eqb bind].
  assert (Hmid : Z.to_nat (Z.of_nat (length prices) / 2) = (length prices / 2)%nat).
  { rewrite of_nat_div2. apply Nat2Z.id. }
  assert (Hmidlt : (length prices / 2 < length prices)%nat)
    by (apply Nat.div_lt; lia).
  destruct (Nat.even (length prices)) eqn:E.
  - assert (Hge : (1 <= length prices / 2)%nat).
    { apply Nat.even_spec in E as [k Hk]. rewrite Hk in *.
      rewrite Nat.mul_comm, Nat.div_mul by lia. lia. }
    unfold checked_sub.
    replace (1 <=? Z.of_nat (length prices) / 2) with true
      by (symmetry; apply Z.leb_le; rewrite of_nat_div2; lia).
    cbn [bind].
    replace (Z.to_nat (Z.of_nat (length prices) / 2 - 1))
      with (length prices / 2 - 1)%nat by lia.
    rewrite Hmid.
    rewrite !array_get_nth by (rewrite sort_ascending_length; lia).
    cbn [bind]. cbv zeta.
    destruct (checked_add _ _); [|done..].
    cbn [bind]. unfold checked_div. done.
  - rewrite Hmid. apply array_get_nth. rewrite sort_ascending_length. lia.
Qed.

Lemma calculateMedian_spec (prices : list Z) :
  prices <> [] ->
  (Nat.even (length prices) = true ->
   nth (length prices / 2 - 1) (sort_ascending prices) 0
   + nth (length prices / 2) (sort_ascending prices) 0 <= UINT256_MAX) ->
  KUSDOracle._calculateMedian prices = Ok (median_spec prices).
Proof.
  intros Hne Hfit. rewrite calculateMedian_unfold by done.
  unfold median_spec. rewrite sort_ascending_length. cbv zeta.
  destruct (Nat.even (length prices)); [|done].
  unfold checked_add. specialize (Hfit eq_refl).
  apply Z.leb_le in Hfit. by rewrite Hfit.
Qed.

End Median.

(** ** updatePrice *)

Section UpdatePrice.

Import KUSDOracle.

Lemma node_of_insert_eq (st st0 : State) (e : Event) (a : Z) (n : OracleNode) :
  node_of (emit e (set_nodes (<[a := n]> (nodes st)) st0)) a = n.
Proof. unfold node_of. cbn. by rewrite lookup_insert_eq. Qed.

Lemma node_of_insert_ne (st : State) (e : Event) (p : PriceData) (a b : Z)
    (n : OracleNode) :
  b <> a ->
  node_of (emit e (set_nodes (<[a := n]> (nodes st)) (set_priceData p st))) b
  = node_of st b.
Proof. intros Hne. unfold node_of. cbn. by rewrite lookup_insert_ne. Qed.

Lemma validatePrice_spec (newPrice : Z) (sourcePrices : list Z) :
  (3 <= length sourcePrices)%nat ->
  median_fits sourcePrices ->
  median_spec sourcePrices <> 0 ->
  Z.abs (newPrice - median_spec sourcePrices) * 10000 <= UINT256_MAX ->
  _validatePrice newPrice sourcePrices
  = Ok (deviationBp newPrice (median_spec sourcePrices) <=? MAX_DEVIATION).
Proof.
  intros Hlen Hfit Hm Hmul. unfold _validatePrice, MIN_SOURCES.
  replace (Z.of_nat (length sourcePrices) <? 3) with false
    by (symmetry; apply Z.ltb_ge; lia).
  rewrite calculateMedian_spec; [| by destruct sourcePrices | done].
  cbn [bind]. unfold deviationBp.
  set (m := median_spec sourcePrices) in *.
  assert (Hdiv : forall s, checked_div s m = Ok (s / m)).
  { intros s. unfold checked_div. by apply Z.eqb_neq in Hm as ->. }
  destruct (Z.gtb_spec newPrice m) as [Hgt|Hle].
  - unfold checked_sub. replace (m <=? newPrice) with true
      by (symmetry; apply Z.leb_le; lia).
    cbn [bind]. unfold checked_mul.
    replace (Z.abs (newPrice - m)) with (newPrice - m) in * by lia.
    apply Z.leb_le in Hmul as ->. cbn [bind]. by rewrite Hdiv.
  - unfold checked_sub. replace (newPrice <=? m) with true
      by (symmetry; apply Z.leb_le; lia).
    cbn [bind]. unfold checked_mul.
    replace (Z.abs (newPrice - m)) with (m - newPrice) in * by lia.
    apply Z.leb_le in Hmul as ->. cbn [bind]. by rewrite Hdiv.
Qed.

(** C1, as the code has it: [updatePrice] checks, in this order, that the
    caller is an active node (else "node-not-active", whatever is submitted),
    that the candidate price is positive (else "invalid-price"), that there
    are at least [MIN_SOURCES] source prices (else "insufficient-sources") and
    as many source names (else "mismatched-arrays"); then, when the median's
    arithmetic stays within 256 bits and the median is not zero, it fails with
    "price-validation-failed" when the deviation of the candidate from the
    median exceeds [MAX_DEVIATION], and otherwise succeeds, storing the
    candidate price with the block timestamp and [valid = true] and setting
    the caller's [lastUpdate]. *)
Theorem updatePrice_outcomes (st : State) (msg_sender block_timestamp newPrice : Z)
    (sourcePrices sources : list Z) :
  let r := updatePrice st msg_sender block_timestamp newPrice sourcePrices sources in
  let m := median_spec sourcePrices in
  (active (node_of st msg_sender) = false ->
     r = Revert "KUSDOracle/node-not-active") /\
  (active (node_of st msg_sender) = true -> newPrice <= 0 ->
     r = Revert "KUSDOracle/invalid-price") /\
  (active (node_of st msg_sender) = true -> 0 < newPrice ->
   (length sourcePrices < 3)%nat ->
     r = Revert "KUSDOracle/insufficient-sources") /\
  (active (node_of st msg_sender) = true -> 0 < newPrice ->
   (3 <= length sourcePrices)%nat -> length sourcePrices <> length sources ->
     r = Revert "KUSDOracle/mismatched-arrays") /\
  (active (node_of st msg_sender) = true -> 0 < newPrice ->
   (3 <= length sourcePrices)%nat -> length sourcePrices = length sources ->
   median_fits sourcePrices -> m <> 0 ->
   Z.abs (newPrice - m) * 10000 <= UINT256_MAX ->
     (MAX_DEVIATION < deviationBp newPrice m ->
        r = Revert "KUSDOracle/price-validation-failed") /\
     (deviationBp newPrice m <= MAX_DEVIATION ->
        exists st', r = Ok st' /\
          priceData st' = mkPriceData newPrice block_timestamp true /\
          lastUpdate (node_of st' msg_sender) = block_timestamp /\
          active (node_of st' msg_sender) = true /\
          (forall a, a <> msg_sender -> node_of st' a = node_of st a) /\
          wards st' = wards st /\ nodeList st' = nodeList st)).
Proof.
  intros r m. subst r. unfold updatePrice, MIN_SOURCES.
  split; [intros ->; done|].
  split; [intros -> Hp; cbn [require bind];
          replace (newPrice >? 0) with false; [done|]; symmetry;
          rewrite Z.gtb_ltb; apply Z.ltb_ge; lia|].
  assert (Hpos : 0 < newPrice -> (newPrice >? 0) = true).
  { intros. rewrite Z.gtb_ltb. apply Z.ltb_lt. lia. }
  split; [intros -> Hp Hl; cbn [require bind]; rewrite Hpos by done;
          cbn [bind]; replace (_ >=? 3) with false; [done|]; symmetry;
          rewrite Z.geb_leb; apply Z.leb_gt; lia|].
  assert (Hlen : (3 <= length sourcePrices)%nat ->
                 (Z.of_nat (length sourcePrices) >=? 3) = true).
  { intros. rewrite Z.geb_leb. apply Z.leb_le. lia. }
  split; [intros -> Hp Hl Hne; cbn [require bind]; rewrite Hpos by done;
          cbn [bind]; rewrite Hlen by done; cbn [bind];
          replace (_ =? _) with false; [done|]; symmetry;
          apply Z.eqb_neq; lia|].
  intros Hact Hp Hl Heq Hfit Hm Hmul.
  rewrite Hact. cbn [require bind]. rewrite Hpos by done. cbn [bind].
  rewrite Hlen by done. cbn [bind].
  replace (_ =? _) with true by (symmetry; apply Z.eqb_eq; lia).
  cbn [bind]. rewrite validatePrice_spec by done. cbn [bind].
  fold m. split.
  - intros Hdev. replace (_ <=? _) with false; [done|].
    symmetry. apply Z.leb_gt. done.
  - intros Hdev. apply Z.leb_le in Hdev as ->. cbn [bind].
    eexists. split; [done|]. cbn.
    split; [done|]. split; [by rewrite node_of_insert_eq|].
    split; [by rewrite node_of_insert_eq|].
    split; [|done]. intros a Ha. by rewrite node_of_insert_ne.
Qed.

(** The success case of [updatePrice_outcomes] on the values of the
    repository's test: three sources around $50,000, an active node. *)
Lemma updatePrice_outcomes_witness :
  exists st',
    updatePrice Sample.registered Sample.node1 1700000060 (50000 * Sample.ether)
      [49900 * Sample.ether; 50000 * Sample.ether; 50100 * Sample.ether]
      [Sample.binance; Sample.coinbase; Sample.coingecko] = Ok st' /\
    priceData st' = mkPriceData (50000 * Sample.ether) 1700000060 true /\
    lastUpdate (node_of st' Sample.node1) = 1700000060.
Proof.
  destruct (updatePrice_outcomes Sample.registered Sample.node1 1700000060
              (50000 * Sample.ether)
              [49900 * Sample.ether; 50000 * Sample.ether; 50100 * Sample.ether]
              [Sample.binance; Sample.coinbase; Sample.coingecko])
    as (_ & _ & _ & _ & H).
  destruct H as [_ H];
    [ vm_compute; reflexivity | vm_compute; reflexivity | simpl; lia
    | reflexivity | intros E; vm_compute in E; discriminate E
    | vm_compute; discriminate | vm_compute; discriminate | ].
  destruct H as (st' & Hr & Hp & Hl & _); [vm_compute; discriminate|].
  exists st'. auto.
Defined.

(** C1 as stated fails: an active node that submits the price 0 with fewer
    than three sources is answered "invalid-price", not
    "insufficient-sources"; and with none of the four named conditions
    holding and a positive price, the call can still fail, on a zero median
    (division by zero) or on an overflow of the sum of the middle elements. *)
Lemma updatePrice_counterexample :
  active (node_of Sample.registered Sample.node1) = true /\
  updatePrice Sample.registered Sample.node1 1700000060 0 [] []
    = Revert "KUSDOracle/invalid-price" /\
  updatePrice Sample.registered Sample.node1 1700000060 1 [0; 0; 0] [1; 2; 3]
    = Panic DivisionByZero /\
  updatePrice Sample.registered Sample.node1 1700000060 UINT256_MAX
    [UINT256_MAX; UINT256_MAX; UINT256_MAX; UINT256_MAX] [1; 2; 3; 4]
    = Panic ArithmeticOverflow.
Proof. vm_compute. repeat split. Qed.

End UpdatePrice.

(** ** The median *)

Section MedianClaims.

Lemma compare_le_iff (a b : Q) : (a - b <= 0)%Q <-> (a <= b)%Q.
Proof. split; intros H; lra. Qed.

#[local] Instance compare_total : Total (fun a b : Q => (a - b <= 0)%Q).
Proof.
  intros a b. destruct (Qlt_le_dec a b) as [H|H].
  - left. apply compare_le_iff. by apply Qlt_le_weak.
  - right. by apply compare_le_iff.
Qed.







End MedianClaims.

(** ** The registry: freshness and invalidation *)

Section Registry.

Import KUSDOracle.

Lemma bind_Ok_inv {A B : Type} (r : result A) (k : A -> result B) (b : B) :
  bind r k = Ok b -> exists a, r = Ok a /\ k a = Ok b.
Proof. destruct r; cbn; [eauto|discriminate..]. Qed.

Ltac inv_bind H :=
  repeat match type of H with
         | bind _ _ = Ok _ =>
             let a := fresh "a" in
             let Ha := fresh "Ha" in
             apply bind_Ok_inv in H as (a & Ha & H)
         end.

(** A successful call stamps the price with the block's time when it is a
    publication and leaves the stored timestamp alone otherwise. *)
Lemma exec_timestamp (st st' : State) (tx : transaction) :
  exec st tx = Ok st' ->
  timestamp (priceData st') =
    if is_publish (tx_call tx) then tx_timestamp tx else timestamp (priceData st).
Proof.
  unfold exec. destruct (tx_call tx); intros H; cbn [is_publish].
  - unfold rely in H. inv_bind H. by injection H as <-.
  - unfold deny in H. inv_bind H. by injection H as <-.
  - unfold registerNode in H. inv_bind H. by injection H as <-.
  - unfold deactivateNode in H. inv_bind H. by injection H as <-.
  - unfold updatePrice in H. inv_bind H. by injection H as <-.
  - unfold emergencyUpdatePrice in H. inv_bind H. by injection H as <-.
  - unfold invalidatePrice in H. inv_bind H. by injection H as <-.
Qed.

Lemma step_timestamp (st : State) (tx : transaction) :
  timestamp (priceData (step st tx)) = timestamp (priceData st) \/
  (is_publish (tx_call tx) = true /\
   timestamp (priceData (step st tx)) = tx_timestamp tx).
Proof.
  unfold step. destruct (exec st tx) as [st'| |] eqn:E; [|by left..].
  apply exec_timestamp in E. destruct (is_publish (tx_call tx)); auto.
Qed.

Lemma run_no_publish_timestamp (txs : list transaction) : forall st,
  Forall (fun tx => is_publish (tx_call tx) = false) txs ->
  timestamp (priceData (run st txs)) = timestamp (priceData st).
Proof.
  induction txs as [|tx txs IH]; intros st Hall; [done|].
  inversion Hall as [|? ? Htx Htxs]; subst. cbn [run fold_left].
  change (fold_left step txs (step st tx)) with (run (step st tx) txs).
  rewrite IH by done.
  destruct (step_timestamp st tx) as [H|[H _]]; [done|congruence].
Qed.

(** The stored timestamp is never ahead of the chain. *)
Lemma reachable_timestamp (st : State) (t : Z) :
  reachable st t -> 0 <= timestamp (priceData st) <= t.
Proof.
  induction 1 as [s a t Ht | st t tx Hreach IH Hle | st t t' Hreach IH Hle].
  - cbn. lia.
  - destruct (step_timestamp st tx) as [H|[_ H]]; rewrite H; lia.
  - lia.
Qed.

Lemma isFresh_eq (st : State) (block_timestamp : Z) :
  timestamp (priceData st) <= block_timestamp ->
  isFresh st block_timestamp
  = Ok (block_timestamp - timestamp (priceData st) <=? STALENESS_THRESHOLD).
Proof.
  intros Hle. unfold isFresh, checked_sub.
  apply Z.leb_le in Hle. by rewrite Hle.
Qed.

(** C4: in every state of a deployed registry [isFresh] returns the truth
    value of [now - timestamp <= 3600]; it is true in the block of a
    successful publication, stays true while at most 3600 seconds have
    elapsed, and is false once more than 3600 seconds have elapsed, whatever
    calls other than publications were made in between and without any
    invalidation. *)
Theorem isFresh_exact :
  (forall st now, reachable st now ->
     isFresh st now = Ok (now - timestamp (priceData st) <=? 3600)) /\
  (forall st msg_sender t newPrice sourcePrices sources st1,
     updatePrice st msg_sender t newPrice sourcePrices sources = Ok st1 ->
     isFresh st1 t = Ok true /\
     forall txs now,
       Forall (fun tx => is_publish (tx_call tx) = false) txs ->
       t <= now ->
       (now - t <= 3600 -> isFresh (run st1 txs) now = Ok true) /\
       (3600 < now - t -> isFresh (run st1 txs) now = Ok false)).
Proof.
  split.
  - intros st now Hreach. apply isFresh_eq.
    apply reachable_timestamp in Hreach. lia.
  - intros st msg_sender t newPrice sourcePrices sources st1 Hup.
    assert (Hts : timestamp (priceData st1) = t).
    { apply (exec_timestamp st st1
               (mkTransaction msg_sender t
                  (CallUpdatePrice newPrice sourcePrices sources))).
      exact Hup. }
    split.
    + rewrite isFresh_eq by lia. rewrite Hts, Z.sub_diag. done.
    + intros txs now Hall Hle.
      rewrite isFresh_eq by (rewrite run_no_publish_timestamp by done; lia).
      rewrite run_no_publish_timestamp, Hts by done.
      unfold STALENESS_THRESHOLD. split; intros H.
      * f_equal. apply Z.leb_le. lia.
      * f_equal. apply Z.leb_gt. lia.
Qed.

(** [isFresh_exact] on the sample deployment: fresh at the publication and
    3600 seconds later, across an invalidation; stale one second after. *)
Lemma isFresh_exact_witness :
  isFresh Sample.published 1700003000
    = Ok (1700003000 - timestamp (priceData Sample.published) <=? 3600) /\
  isFresh Sample.published 1700000060 = Ok true /\
  isFresh (run Sample.published [mkTransaction Sample.owner 1700000100 CallInvalidatePrice])
          (1700000060 + 3600) = Ok true /\
  isFresh (run Sample.published [mkTransaction Sample.owner 1700000100 CallInvalidatePrice])
          (1700000060 + 3601) = Ok false.
Proof.
  assert (Hup : updatePrice Sample.registered Sample.node1 1700000060
                  (50000 * Sample.ether)
                  [49900 * Sample.ether; 50000 * Sample.ether; 50100 * Sample.ether]
                  [Sample.binance; Sample.coinbase; Sample.coingecko]
                = Ok Sample.published) by (vm_compute; reflexivity).
  destruct (proj2 isFresh_exact _ _ _ _ _ _ _ Hup) as [Hnow Hlater].
  split.
  { apply (proj1 isFresh_exact).
    apply reachable_later with (t := 1700000060); [|lia].
    apply (reachable_step Sample.registered 1700000000
             (mkTransaction Sample.node1 1700000060 _)); [|simpl; lia].
    apply (reachable_step Sample.deployed 1700000000
             (mkTransaction Sample.owner 1700000000 _)); [|simpl; lia].
    apply reachable_deploy. lia. }
  split; [exact Hnow|]. split.
  - apply (Hlater [mkTransaction Sample.owner 1700000100 CallInvalidatePrice]).
    + repeat constructor.
    + lia.
    + lia.
  - apply (Hlater [mkTransaction Sample.owner 1700000100 CallInvalidatePrice]).
    + repeat constructor.
    + lia.
    + lia.
Defined.

(** C5: an authorized [invalidatePrice] clears the [valid] flag and nothing
    else: [getPriceData] then returns the price and the timestamp held
    before, with [valid = false]. *)
Theorem invalidatePrice_keeps_history (st : State) (msg_sender : Z) :
  ward_of st msg_sender = 1 ->
  exists st',
    invalidatePrice st msg_sender = Ok st' /\
    getPriceData st' = (price (priceData st), timestamp (priceData st), false) /\
    wards st' = wards st /\ nodes st' = nodes st /\ nodeList st' = nodeList st.
Proof.
  intros Hauth. unfold invalidatePrice, auth. rewrite Hauth. cbn.
  eexists. split; [reflexivity|]. done.
Qed.

Lemma invalidatePrice_keeps_history_witness :
  exists st',
    invalidatePrice Sample.published Sample.owner = Ok st' /\
    getPriceData st' = (50000 * Sample.ether, 1700000060, false).
Proof.
  destruct (invalidatePrice_keeps_history Sample.published Sample.owner)
    as (st' & H1 & H2 & _).
  - vm_compute. reflexivity.
  - exists st'. split; [exact H1|]. rewrite H2. vm_compute. reflexivity.
Defined.

(** C10: [isFresh] reads the stored timestamp only, never the [valid] flag:
    after an authorized [invalidatePrice], while less than the staleness
    threshold has elapsed since the last write, [isFresh] still returns true
    whereas [peek] reports the price as not valid. *)
Theorem isFresh_ignores_valid (st : State) (msg_sender now : Z) :
  ward_of st msg_sender = 1 ->
  timestamp (priceData st) <= now ->
  now - timestamp (priceData st) < STALENESS_THRESHOLD ->
  (forall v, isFresh (set_priceData
                        (mkPriceData (price (priceData st))
                                     (timestamp (priceData st)) v) st) now
             = isFresh st now) /\
  exists st',
    invalidatePrice st msg_sender = Ok st' /\
    isFresh st' now = Ok true /\
    peek st' now = Ok (price (priceData st), false).
Proof.
  intros Hauth Hle Hfresh. split; [done|].
  unfold invalidatePrice, auth. rewrite Hauth. cbn [require Z.eqb bind].
  eexists. split; [reflexivity|]. split.
  - rewrite isFresh_eq by done. cbn. f_equal. apply Z.leb_le. lia.
  - unfold peek, checked_sub. cbn.
    apply Z.leb_le in Hle. by rewrite Hle.
Qed.

Lemma isFresh_ignores_valid_witness :
  exists st',
    invalidatePrice Sample.published Sample.owner = Ok st' /\
    isFresh st' 1700000100 = Ok true /\
    peek st' 1700000100 = Ok (50000 * Sample.ether, false).
Proof.
  destruct (isFresh_ignores_valid Sample.published Sample.owner 1700000100)
    as (_ & st' & H1 & H2 & H3).
  - vm_compute. reflexivity.
  - vm_compute. discriminate.
  - vm_compute. reflexivity.
  - exists st'. repeat split; [exact H1 | exact H2 |].
    rewrite H3. vm_compute. reflexivity.
Defined.

End Registry.

(** ** Defects of the contract *)

Section Defects.

Import KUSDOracle.

(** C8, which the code does not meet: the source prices [0, 0, 0] with the
    candidate price 1 from an active node pass every [require] of
    [updatePrice] that precedes the validation, the median is 0, and
    [_validatePrice] divides by it: the call ends in Panic(0x12). *)
Lemma validatePrice_divides_by_zero :
  active (node_of Sample.registered Sample.node1) = true /\
  (1 >? 0) = true /\
  (Z.of_nat (length [0; 0; 0]) >=? MIN_SOURCES) = true /\
  (Z.of_nat (length [0; 0; 0])
   =? Z.of_nat (length [Sample.binance; Sample.coinbase; Sample.coingecko])) = true /\
  _calculateMedian [0; 0; 0] = Ok 0 /\
  _validatePrice 1 [0; 0; 0] = Panic DivisionByZero /\
  updatePrice Sample.registered Sample.node1 1700000060 1 [0; 0; 0]
    [Sample.binance; Sample.coinbase; Sample.coingecko] = Panic DivisionByZero.
Proof. vm_compute. repeat split. Qed.

Lemma count_loop (st : State) (rest : list Z) : forall (pre : list Z) (count : Z),
  nodeList st = pre ++ rest ->
  count + Z.of_nat (length rest) <= UINT256_MAX ->
  for_loop (length rest) (length pre) (count_step st) count
  = Ok (count + Z.of_nat (length (active_entries st rest))).
Proof.
  induction rest as [|a rest IH]; intros pre count Hl Hfit.
  - cbn. f_equal. lia.
  - cbn [length for_loop]. unfold count_step at 1.
    rewrite Hl, array_get_middle. cbn [bind].
    unfold active_entries. rewrite filter_cons.
    destruct (active (node_of st a)) eqn:Ha.
    + rewrite decide_True by done. unfold checked_add.
      replace (count + 1 <=? UINT256_MAX) with true
        by (symmetry; apply Z.leb_le; cbn [length] in Hfit; lia).
      cbn [bind].
      replace (S (length pre)) with (length (pre ++ [a]))
        by (rewrite length_app; simpl; lia).
      rewrite IH.
      * f_equal. cbn [length]. fold (active_entries st rest). lia.
      * by rewrite <- app_assoc.
      * cbn [length] in Hfit. lia.
    + rewrite decide_False by discriminate. cbn [bind].
      replace (S (length pre)) with (length (pre ++ [a]))
        by (rewrite length_app; simpl; lia).
      rewrite IH.
      * done.
      * by rewrite <- app_assoc.
      * cbn [length] in Hfit. lia.
Qed.

(** X1: What [getActiveNodeCount] returns: the number of entries of [nodeList]
    whose node is active, an address counted once for each time it was
    registered. *)
Lemma getActiveNodeCount_eq (st : State) :
  Z.of_nat (length (nodeList st)) <= UINT256_MAX ->
  getActiveNodeCount st
  = Ok (Z.of_nat (length (active_entries st (nodeList st)))).
Proof.
  intros Hfit. unfold getActiveNodeCount.
  exact (count_loop st (nodeList st) [] 0 eq_refl Hfit).
Qed.

(** C9, which the code does not meet: after registering an address,
    deactivating it and registering it again, [nodeList] holds the address
    twice and [getActiveNodeCount] returns 2, while one address is active. *)
Lemma getActiveNodeCount_counts_twice :
  nodeList Sample.reregistered = [Sample.node1; Sample.node1] /\
  active (node_of Sample.reregistered Sample.node1) = true /\
  distinct_active_count Sample.reregistered = 1 /\
  getActiveNodeCount Sample.reregistered = Ok 2.
Proof. vm_compute. repeat split. Qed.

End Defects.

(** ** The retry wrapper *)

Section Retry.

Import PriceSource.

Context {A : Type}.
Variable script : nat -> JS.completion A.

Lemma attempts_app (tr1 tr2 : list event) :
  attempts (tr1 ++ tr2) = (attempts tr1 + attempts tr2)%nat.
Proof. unfold attempts. by rewrite filter_app, length_app. Qed.

Lemma attempts_backoff (k : nat) : forall i, attempts (backoff_trace k i) = k.
Proof.
  induction k as [|k IH]; intros i; [done|].
  change (backoff_trace (S k) i)
    with ([Attempt; Sleep (1000 * (i + 1))] ++ backoff_trace k (i + 1)).
  by rewrite attempts_app, IH.
Qed.

Lemma sleeps_backoff (k : nat) : forall i,
  sleeps (backoff_trace k i ++ [Attempt])
  = map (fun j => 1000 * (i + Z.of_nat j + 1)) (seq 0 k).
Proof.
  induction k as [|k IH]; intros i; [done|].
  cbn [backoff_trace seq map]. unfold sleeps in *. cbn.
  rewrite IH, <- seq_shift, map_map. f_equal; [f_equal; lia|].
  apply map_ext. intros j. lia.
Qed.

Lemma retry_loop_S (retries : Z) (n : nat) (i : Z) (tr : list event) :
  retry_loop sleep (S n) i retries (scripted script) tr =
    match script (attempts tr) with
    | JS.Return v => (JS.Return (Some v), tr ++ [Attempt])
    | JS.Throw e =>
        if i =? retries - 1 then (JS.Throw e, tr ++ [Attempt])
        else retry_loop sleep n (i + 1) retries (scripted script)
               ((tr ++ [Attempt]) ++ [Sleep (1000 * (i + 1))])
    end.
Proof.
  cbn [retry_loop]. unfold JS.try_catch, JS.bind at 1, scripted at 1.
  destruct (script (attempts tr)); [done|].
  by destruct (i =? retries - 1).
Qed.

(** The shape of a run of the loop that still has [n >= 1] iterations to go
    and ends at counter [retries - 1]: [k] failed attempts with their
    backoffs, then one more attempt, which either succeeds or is the last
    one allowed, whose error is thrown. *)
Lemma retry_loop_shape (retries : Z) (n : nat) : forall (i : Z) (tr : list event),
  (1 <= n)%nat -> i + Z.of_nat n = retries ->
  exists k,
    (k < n)%nat /\
    snd (retry_loop sleep n i retries (scripted script) tr)
      = tr ++ backoff_trace k i ++ [Attempt] /\
    (forall j, (j < k)%nat -> exists e, script (attempts tr + j)%nat = JS.Throw e) /\
    ((exists v, script (attempts tr + k)%nat = JS.Return v /\
                fst (retry_loop sleep n i retries (scripted script) tr)
                = JS.Return (Some v)) \/
     (k = (n - 1)%nat /\
      exists e, script (attempts tr + k)%nat = JS.Throw e /\
                fst (retry_loop sleep n i retries (scripted script) tr)
                = JS.Throw e)).
Proof.
  induction n as [|n IH]; intros i tr Hn Hi; [lia|].
  rewrite retry_loop_S.
  destruct (script (attempts tr)) as [v|e] eqn:Hs.
  - exists 0%nat. cbn. rewrite Nat.add_0_r.
    split; [lia|]. split; [done|]. split; [intros; lia|]. left. eauto.
  - destruct (Z.eqb_spec i (retries - 1)) as [Hlast|Hmore].
    + exists 0%nat. cbn. rewrite Nat.add_0_r.
      split; [lia|]. split; [done|]. split; [intros; lia|].
      right. split; [lia|]. eauto.
    + destruct (IH (i + 1) ((tr ++ [Attempt]) ++ [Sleep (1000 * (i + 1))]))
        as (k & Hk & Htr & Hfail & Hres); [lia | lia |].
      assert (Hatt : attempts ((tr ++ [Attempt]) ++ [Sleep (1000 * (i + 1))])
                     = S (attempts tr)).
      { rewrite !attempts_app.
        change (attempts [Attempt]) with 1%nat.
        change (attempts [Sleep (1000 * (i + 1))]) with 0%nat. lia. }
      rewrite Hatt in Hfail, Hres.
      exists (S k). split; [lia|]. split.
      { rewrite Htr. cbn [backoff_trace]. rewrite <- !app_assoc. done. }
      split.
      { intros [|j] Hj.
        - rewrite Nat.add_0_r. eauto.
        - replace (attempts tr + S j)%nat with (S (attempts tr) + j)%nat by lia.
          apply Hfail. lia. }
      replace (attempts tr + S k)%nat with (S (attempts tr) + k)%nat by lia.
      destruct Hres as [Hok|[Hkn Herr]]; [by left|].
      right. split; [lia|done].
Qed.

(** C7: [withRetry] calls the operation at most [retries] times (3 unless
    configured otherwise), sleeping [1000 * (i + 1)] milliseconds after the
    failed attempt of counter [i] when another attempt follows; it returns
    the first success, and when the last allowed attempt fails it throws
    that attempt's error. The loop is bounded by [retries], so that the
    wrapper always completes when the operation does. *)
Theorem withRetry_bounded (this : PriceSource) (retries : option Z) :
  let R := match retries with Some r => r | None => PriceSource.retries this end in
  let run := withRetry sleep this (scripted script) retries [] in
  (forall name t, PriceSource.retries (constructor name (mkConfig t None)) = 3) /\
  (attempts (snd run) <= Z.to_nat R)%nat /\
  (R <= 0 -> run = (JS.Return None, [])) /\
  (1 <= R ->
   exists k,
     (k < Z.to_nat R)%nat /\
     snd run = backoff_trace k 0 ++ [Attempt] /\
     attempts (snd run) = S k /\
     sleeps (snd run) = map (fun j => 1000 * (Z.of_nat j + 1)) (seq 0 k) /\
     (forall j, (j < k)%nat -> exists e, script j = JS.Throw e) /\
     ((exists v, script k = JS.Return v /\ fst run = JS.Return (Some v)) \/
      (k = (Z.to_nat R - 1)%nat /\
       exists e, script k = JS.Throw e /\ fst run = JS.Throw e))).
Proof.
  intros R run. subst run. unfold withRetry. fold R.
  split; [reflexivity|].
  destruct (Z.le_gt_cases R 0) as [Hle|Hgt].
  - replace (Z.to_nat R) with 0%nat by lia. cbn.
    split; [lia|]. split; [done|]. lia.
  - destruct (retry_loop_shape R (Z.to_nat R) 0 []) as (k & Hk & Htr & Hfail & Hres);
      [lia | lia |].
    cbn [app] in Htr. change (attempts []) with 0%nat in Hfail, Hres.
    cbn [Nat.add] in Hfail, Hres.
    assert (Hatt : attempts (snd (retry_loop sleep (Z.to_nat R) 0 R (scripted script) []))
                   = S k).
    { rewrite Htr, attempts_app, attempts_backoff.
      change (attempts [Attempt]) with 1%nat. lia. }
    split; [rewrite Hatt; lia|]. split; [lia|].
    intros _. exists k. split; [done|]. split; [done|]. split; [done|].
    split; [|split; [done|done]].
    rewrite Htr, sleeps_backoff. apply map_ext. intros j. lia.
Qed.

End Retry.

(** [withRetry_bounded] with the default of three attempts, on an operation
    that always fails: three attempts, sleeps of one and two seconds, and the
    third error thrown. *)
Lemma withRetry_bounded_witness :
  PriceSource.withRetry PriceSource.sleep Sample.binance_source
    (PriceSource.scripted Sample.always_fails) None []
  = (JS.Throw (JS.Error "timeout"),
     [PriceSource.Attempt; PriceSource.Sleep 1000; PriceSource.Attempt;
      PriceSource.Sleep 2000; PriceSource.Attempt]) /\
  (PriceSource.attempts
     (snd (PriceSource.withRetry PriceSource.sleep Sample.binance_source
             (PriceSource.scripted Sample.always_fails) None [])) <= 3)%nat.
Proof.
  split; [vm_compute; reflexivity|].
  apply (withRetry_bounded Sample.always_fails Sample.binance_source None).
Defined.

(** ** The update cycle and its failure counters *)

Section UpdateCycle.

Import OracleNode.

Variable outcome : string -> JS.completion unit.

Lemma or_else_zero (x : Z) : JS.or_else (Some x) 0 = x.
Proof. unfold JS.or_else. destruct (Z.eqb_spec x 0); congruence. Qed.

Lemma update_one_eq (asset : string) (w : world) :
  update_one (completes_as outcome) asset w = (JS.Return tt, after_one outcome asset w).
Proof.
  unfold update_one, after_one, completes_as, JS.try_catch, JS.bind, JS.lift.
  destruct (outcome asset) as [[]|e]; [done|].
  cbn. rewrite lookup_insert_eq. cbn [JS.ge]. fold (count_of w asset).
  destruct (count_of w asset + 1 >=? 5); cbn.
  - unfold emit, alert_message. cbn. by rewrite <- !app_assoc.
  - done.
Qed.

Lemma count_of_after_one (asset a : string) (w : world) :
  count_of (after_one outcome asset w) a =
    if decide (a = asset)
    then (if failed (outcome asset) then count_of w asset + 1 else 0)
    else count_of w a.
Proof.
  unfold after_one, count_of at 1.
  destruct (outcome asset) as [[]|e]; cbn [failureCount failed];
    destruct (decide (a = asset)) as [->|Hne];
    rewrite ?lookup_insert_eq, ?or_else_zero; try done;
    by rewrite lookup_insert_ne.
Qed.

Lemma alerts_after_one (asset : string) (w : world) :
  alerts (trace (after_one outcome asset w)) =
    alerts (trace w) ++ cycle_alerts outcome w [asset].
Proof.
  unfold after_one, cycle_alerts, alerts. cbn [omap list_omap].
  destruct (outcome asset) as [[]|e]; cbn [trace failed andb].
  - by rewrite app_nil_r.
  - rewrite !omap_app.
    destruct (count_of w asset + 1 >=? 5); cbn; by rewrite ?app_nil_r.
Qed.






End UpdateCycle.




(** ** Fetching from all sources *)

Section FetchAll.

Import OracleNode.

Context {num : Type}.
Variable Date_now : string -> Z.

Lemma skip_includes_spec (asset sourceName : string) :
  skip_includes asset sourceName =
    if bool_decide (asset ∈ object_prototype_keys)
    then JS.Throw (JS.TypeError "skipSources[asset]?.includes is not a function")
    else JS.Return (excluded asset sourceName).
Proof.
  unfold skip_includes, skipSources, excluded.
  rewrite lookup_singleton. destruct (decide ("DAI" = asset)) as [<-|Hne].
  - replace (bool_decide ("DAI" ∈ object_prototype_keys)) with false
      by (vm_compute; reflexivity).
    by rewrite (bool_decide_eq_true_2 ("DAI" = "DAI") eq_refl).
  - destruct (bool_decide (asset ∈ object_prototype_keys)); [done|].
    rewrite (bool_decide_eq_false_2 (asset = "DAI")); [done|].
    intros ->. done.
Qed.

Lemma getPrice_calls_app (tr1 tr2 : list event) :
  getPrice_calls (tr1 ++ tr2) = getPrice_calls tr1 ++ getPrice_calls tr2.
Proof. apply omap_app. Qed.

(** One source: the promise of its callback settles, and is fulfilled with a
    reading exactly when the source was called and returned a price. *)
Lemma settle_fetch_one (asset : string) (entry : string * price_source num)
    (w : world) :
  exists r evs,
    JS.settle (fetch_one Date_now asset entry) w
      = (JS.Return r, mkWorld (failureCount w) (trace w ++ evs)) /\
    fulfilled_value r = successful_reading Date_now asset entry /\
    getPrice_calls evs = attempted_calls asset [entry].
Proof.
  unfold JS.settle, fetch_one, JS.bind at 1, JS.lift at 1.
  unfold successful_reading, attempted_calls, attempted. cbn [omap list_omap].
  rewrite skip_includes_spec.
  destruct (bool_decide (asset ∈ object_prototype_keys)).
  - eexists _, []. cbn. rewrite app_nil_r. by destruct w.
  - destruct (excluded asset entry.1).
    + eexists _, []. cbn. rewrite app_nil_r. by destruct w.
    + unfold JS.try_catch, getPrice, JS.bind, JS.lift, emit. cbn.
      destruct (entry.2 asset) as [p|e]; cbn.
      * by eexists _, [_].
      * eexists _, [_; _]. cbn. by rewrite <- app_assoc.
Qed.

Lemma attempted_calls_cons (asset : string) (entry : string * price_source num)
    (sources : list (string * price_source num)) :
  attempted_calls asset (entry :: sources)
  = attempted_calls asset [entry] ++ attempted_calls asset sources.
Proof.
  unfold attempted_calls. cbn [omap list_omap].
  by destruct (attempted asset entry.1).
Qed.

Lemma allSettled_fetch (asset : string) (sources : list (string * price_source num)) :
  forall w : world,
  exists rs evs,
    JS.allSettled (map (fetch_one Date_now asset) sources) w
      = (JS.Return rs, mkWorld (failureCount w) (trace w ++ evs)) /\
    omap fulfilled_value rs = omap (successful_reading Date_now asset) sources /\
    getPrice_calls evs = attempted_calls asset sources.
Proof.
  induction sources as [|entry sources IH]; intros w.
  - exists [], []. cbn. rewrite app_nil_r. by destruct w.
  - destruct (settle_fetch_one asset entry w) as (r & evs1 & H1 & Hr & Hc1).
    destruct (IH (mkWorld (failureCount w) (trace w ++ evs1)))
      as (rs & evs2 & H2 & Hrs & Hc2).
    exists (r :: rs), (evs1 ++ evs2).
    cbn [map JS.allSettled]. unfold JS.bind at 1. rewrite H1.
    unfold JS.bind at 1. rewrite H2. cbn. rewrite <- app_assoc.
    split; [done|]. split.
    + rewrite Hr, Hrs. done.
    + rewrite getPrice_calls_app, Hc1, Hc2.
      symmetry. apply attempted_calls_cons.
Qed.

(** C6: [fetchPricesFromAllSources] never throws, whatever the sources do:
    it returns a list, made of exactly the readings of the sources that were
    called and returned a price, in the order of the sources; a source that
    throws contributes nothing; and the sources that the exclusion table
    lists for the asset (binance and kucoin for DAI) are not called. *)
Theorem fetchPricesFromAllSources_never_throws (asset : string)
    (sources : list (string * price_source num)) (w : world) :
  let r := fetchPricesFromAllSources Date_now sources asset w in
  fst r = JS.Return (omap (successful_reading Date_now asset) sources) /\
  getPrice_calls (trace (snd r))
    = getPrice_calls (trace w) ++ attempted_calls asset sources /\
  failureCount (snd r) = failureCount w /\
  (forall sourceName, excluded asset sourceName = true ->
     (sourceName, asset) ∉ attempted_calls asset sources) /\
  excluded "DAI" "binance" = true /\ excluded "DAI" "kucoin" = true.
Proof.
  intros r. subst r. unfold fetchPricesFromAllSources, JS.bind.
  destruct (allSettled_fetch asset sources w) as (rs & evs & H & Hrs & Hc).
  rewrite H. cbn. rewrite Hrs, getPrice_calls_app, Hc.
  split; [done|]. split; [done|]. split; [done|].
  split; [|split; vm_compute; reflexivity].
  intros sourceName Hex Hin. unfold attempted_calls in Hin.
  apply list_elem_of_omap in Hin as (entry & _ & Hentry).
  unfold attempted in Hentry.
  destruct (bool_decide (asset ∈ object_prototype_keys)); [done|].
  cbn in Hentry. destruct (excluded asset entry.1) eqn:E; [done|].
  cbn in Hentry. injection Hentry as <-. congruence.
Qed.

End FetchAll.

(** [fetchPricesFromAllSources_never_throws] on a round for DAI: binance is
    not called, coinbase answers, kraken throws. *)
Lemma fetchPricesFromAllSources_never_throws_witness :
  fst (OracleNode.fetchPricesFromAllSources Sample.clock Sample.three_sources "DAI"
         (OracleNode.mkWorld ∅ []))
  = JS.Return [OracleNode.mkReading "coinbase" (9998 # 10000)%Q 1700000002] /\
  getPrice_calls
    (OracleNode.trace
       (snd (OracleNode.fetchPricesFromAllSources Sample.clock Sample.three_sources
               "DAI" (OracleNode.mkWorld ∅ []))))
  = [("coinbase", "DAI"); ("kraken", "DAI")].
Proof.
  destruct (fetchPricesFromAllSources_never_throws Sample.clock "DAI"
              Sample.three_sources (OracleNode.mkWorld ∅ []))
    as (Hres & Hcalls & _).
  split.
  - etransitivity; [exact Hres|]. vm_compute. reflexivity.
  - etransitivity; [exact Hcalls|]. vm_compute. reflexivity.
Defined.

(** * Further properties of the contract *)

(** ** The median and the validation *)

Section MedianExtras.

Import KUSDOracle.

Lemma sort_ascending_perm (prices prices' : list Z) :
  prices ≡ₚ prices' -> sort_ascending prices = sort_ascending prices'.
Proof.
  intros Hp. apply (StronglySorted_unique Z.le).
  - apply StronglySorted_merge_sort; apply _.
  - apply StronglySorted_merge_sort; apply _.
  - unfold sort_ascending. by rewrite !merge_sort_Permutation.
Qed.

Lemma calculateMedian_nil : _calculateMedian [] = Panic ArithmeticOverflow.
Proof. reflexivity. Qed.

(** X2: The median does not depend on the order in which the source prices are
    submitted. *)
Theorem calculateMedian_order_independent (prices prices' : list Z) :
  prices ≡ₚ prices' -> _calculateMedian prices = _calculateMedian prices'.
Proof.
  intros Hp. destruct prices as [|p prices].
  - apply Permutation_nil in Hp. by subst.
  - assert (Hne' : prices' <> []).
    { intros ->. symmetry in Hp. by apply Permutation_nil in Hp. }
    rewrite !calculateMedian_unfold by done.
    rewrite (sort_ascending_perm _ _ Hp), (Permutation_length Hp). done.
Qed.

Lemma calculateMedian_order_independent_witness :
  _calculateMedian [50100; 49900; 50000] = _calculateMedian [49900; 50000; 50100].
Proof.
  apply calculateMedian_order_independent.
  apply (bool_decide_unpack _). vm_compute. exact I.
Defined.

Lemma nth_sorted_in (prices : list Z) (i : nat) :
  (i < length prices)%nat -> nth i (sort_ascending prices) 0 ∈ prices.
Proof.
  intros Hi.
  assert (Hin : nth i (sort_ascending prices) 0 ∈ sort_ascending prices).
  { destruct (lookup_lt_is_Some_2 (sort_ascending prices) i) as [v Hv];
      [by rewrite sort_ascending_length|].
    rewrite (nth_lookup_Some _ _ 0 _ Hv).
    apply list_elem_of_lookup. by exists i. }
  unfold sort_ascending in Hin at 2.
  by rewrite merge_sort_Permutation in Hin.
Qed.

(** X3: When [_calculateMedian] returns, its result lies between the smallest
    and the largest of the prices. *)
Theorem calculateMedian_between (prices : list Z) (lo hi m : Z) :
  _calculateMedian prices = Ok m ->
  Forall (fun p => lo <= p <= hi) prices ->
  lo <= m <= hi.
Proof.
  intros Hm Hall. destruct prices as [|p0 prices0] eqn:Hp; [discriminate Hm|].
  rewrite <- Hp in *. assert (Hne : prices <> []) by (rewrite Hp; done).
  rewrite calculateMedian_unfold in Hm by done. cbv zeta in Hm.
  assert (Hlen : (0 < length prices)%nat) by (rewrite Hp; simpl; lia).
  assert (Hmid : (length prices / 2 < length prices)%nat)
    by (apply Nat.div_lt; lia).
  rewrite Forall_forall in Hall.
  pose proof (Hall _ (nth_sorted_in prices (length prices / 2 - 1) ltac:(lia)))
    as Ha.
  pose proof (Hall _ (nth_sorted_in prices (length prices / 2) Hmid)) as Hb.
  cbv beta in Ha, Hb.
  set (a := nth (length prices / 2 - 1) (sort_ascending prices) 0) in *.
  set (b := nth (length prices / 2) (sort_ascending prices) 0) in *.
  destruct (Nat.even (length prices)).
  - unfold checked_add in Hm.
    destruct (_ <=? UINT256_MAX); [|discriminate Hm].
    cbn [bind] in Hm. injection Hm as <-. split.
    + apply Z.div_le_lower_bound; lia.
    + apply Z.div_le_upper_bound; lia.
  - injection Hm as <-. exact Hb.
Qed.

Lemma calculateMedian_between_witness : 1 <= 4 <= 9.
Proof.
  apply (calculateMedian_between [9; 1; 3; 6] 1 9 4).
  - vm_compute. reflexivity.
  - repeat constructor; lia.
Defined.

(** X4: [_calculateMedian] fails in two cases only, both with Panic(0x11): on an
    empty array (the bound [length - 1] of the sort underflows) and on an
    even-sized array whose two middle elements add up beyond 256 bits. It
    never reads or writes outside the array. *)
Theorem calculateMedian_failures (prices : list Z) :
  (prices = [] -> _calculateMedian prices = Panic ArithmeticOverflow) /\
  (prices <> [] -> Nat.even (length prices) = true ->
   UINT256_MAX < nth (length prices / 2 - 1) (sort_ascending prices) 0
                 + nth (length prices / 2) (sort_ascending prices) 0 ->
   _calculateMedian prices = Panic ArithmeticOverflow) /\
  (prices <> [] -> median_fits prices ->
   _calculateMedian prices = Ok (median_spec prices)) /\
  _calculateMedian prices <> Panic IndexOutOfBounds /\
  _calculateMedian prices <> Panic DivisionByZero /\
  (forall reason, _calculateMedian prices <> Revert reason).
Proof.
  split; [intros ->; reflexivity|].
  split.
  { intros Hne Heven Hbig. rewrite calculateMedian_unfold by done.
    cbv zeta. rewrite Heven. unfold checked_add.
    apply Z.leb_gt in Hbig. by rewrite Hbig. }
  split; [intros Hne Hfit; by apply calculateMedian_spec|].
  destruct prices as [|p prices]; [repeat split; intros; discriminate|].
  rewrite calculateMedian_unfold by done. cbv zeta.
  destruct (Nat.even _).
  - unfold checked_add. destruct (_ <=? UINT256_MAX); cbn [bind];
      repeat split; intros; discriminate.
  - repeat split; intros; discriminate.
Qed.

Lemma calculateMedian_failures_witness :
  _calculateMedian [UINT256_MAX; 1] = Panic ArithmeticOverflow.
Proof.
  apply (calculateMedian_failures [UINT256_MAX; 1]).
  - discriminate.
  - reflexivity.
  - vm_compute. reflexivity.
Defined.

(** X5: The acceptance band of [_validatePrice]: with at least three sources, a
    positive median and no overflow, the median itself is accepted, and a
    price is accepted exactly when 10000 times its distance to the median is
    below 1001 times the median (the deviation is rounded down to whole
    basis points before it is compared with 1000). *)
Theorem validatePrice_band (sourcePrices : list Z) :
  (3 <= length sourcePrices)%nat ->
  median_fits sourcePrices ->
  0 < median_spec sourcePrices ->
  _validatePrice (median_spec sourcePrices) sourcePrices = Ok true /\
  forall newPrice,
    Z.abs (newPrice - median_spec sourcePrices) * 10000 <= UINT256_MAX ->
    (Z.abs (newPrice - median_spec sourcePrices) * 10000
       < 1001 * median_spec sourcePrices ->
     _validatePrice newPrice sourcePrices = Ok true) /\
    (1001 * median_spec sourcePrices
       <= Z.abs (newPrice - median_spec sourcePrices) * 10000 ->
     _validatePrice newPrice sourcePrices = Ok false).
Proof.
  intros Hlen Hfit Hpos.
  set (m := median_spec sourcePrices) in *.
  assert (Hband : forall newPrice,
            Z.abs (newPrice - m) * 10000 <= UINT256_MAX ->
            _validatePrice newPrice sourcePrices
            = Ok (Z.abs (newPrice - m) * 10000 / m <=? 1000)).
  { intros newPrice Hmul. rewrite validatePrice_spec; [done..|lia|done]. }
  split.
  - rewrite Hband; rewrite Z.sub_diag; cbn [Z.abs Z.mul].
    + rewrite Z.div_0_l by lia. done.
    + unfold UINT256_MAX. lia.
  - intros newPrice Hmul. rewrite Hband by done. split; intros H; f_equal.
    + apply Z.leb_le.
      assert (Z.abs (newPrice - m) * 10000 / m < 1001)
        by (apply Z.div_lt_upper_bound; lia).
      lia.
    + apply Z.leb_gt.
      assert (1001 <= Z.abs (newPrice - m) * 10000 / m)
        by (apply Z.div_le_lower_bound; lia).
      lia.
Qed.

Lemma validatePrice_band_witness :
  _validatePrice 55004 [49900; 50000; 50100] = Ok true /\
  _validatePrice 55005 [49900; 50000; 50100] = Ok false.
Proof.
  destruct (validatePrice_band [49900; 50000; 50100]) as [_ H].
  - simpl. lia.
  - intros E. vm_compute in E. discriminate E.
  - vm_compute. reflexivity.
  - split.
    + apply (H 55004); vm_compute; [discriminate | reflexivity].
    + apply (H 55005); vm_compute; discriminate.
Defined.

End MedianExtras.

(** ** The registry along its transactions *)

Section RegistryExtras.

Import KUSDOracle.

Lemma require_Ok_inv (c : bool) (reason : string) (u : unit) :
  require c reason = Ok u -> c = true.
Proof. by destruct c. Qed.

Lemma auth_Ok_inv (st : State) (s : Z) (u : unit) :
  auth st s = Ok u -> ward_of st s = 1.
Proof. intros H. apply require_Ok_inv in H. by apply Z.eqb_eq. Qed.

Lemma auth_refused (st : State) (s : Z) :
  ward_of st s <> 1 -> auth st s = Revert "KUSDOracle/not-authorized".
Proof. intros H. unfold auth. apply Z.eqb_neq in H. by rewrite H. Qed.

Lemma auth_granted (st : State) (s : Z) : ward_of st s = 1 -> auth st s = Ok tt.
Proof. intros H. unfold auth. by rewrite H. Qed.

Ltac inv_ok H :=
  repeat match type of H with
         | bind _ _ = Ok _ =>
             let a := fresh "a" in
             let Ha := fresh "Ha" in
             apply bind_Ok_inv in H as (a & Ha & H)
         end.

(** What a successful transaction has checked and what it has written. *)
Lemma exec_effect (st st' : State) (tx : transaction) :
  exec st tx = Ok st' ->
  match tx_call tx with
  | CallRely usr =>
      ward_of st (tx_sender tx) = 1 /\
      st' = emit (Rely usr) (set_wards (<[usr := 1]> (wards st)) st)
  | CallDeny usr =>
      ward_of st (tx_sender tx) = 1 /\
      st' = emit (Deny usr) (set_wards (<[usr := 0]> (wards st)) st)
  | CallRegisterNode a s =>
      ward_of st (tx_sender tx) = 1 /\ a <> 0 /\
      active (node_of st a) = false /\
      st' = emit (NodeRegistered a s)
              (set_nodeList (nodeList st ++ [a])
                 (set_nodes (<[a := mkOracleNode a s 100 true 0]> (nodes st)) st))
  | CallDeactivateNode a r =>
      ward_of st (tx_sender tx) = 1 /\
      active (node_of st a) = true /\
      st' = emit (NodeDeactivated a r)
              (set_nodes
                 (<[a := mkOracleNode (nodeAddress (node_of st a))
                           (stake (node_of st a)) (reputation (node_of st a))
                           false (lastUpdate (node_of st a))]> (nodes st)) st)
  | CallUpdatePrice p sp srcs =>
      active (node_of st (tx_sender tx)) = true /\ 0 < p /\
      st' = emit (PriceUpdate p (tx_timestamp tx) (tx_sender tx))
              (set_nodes
                 (<[tx_sender tx := set_lastUpdate (tx_timestamp tx)
                                      (node_of st (tx_sender tx))]> (nodes st))
                 (set_priceData (mkPriceData p (tx_timestamp tx) true) st))
  | CallEmergencyUpdatePrice p =>
      ward_of st (tx_sender tx) = 1 /\ 0 < p /\
      st' = emit (PriceUpdate p (tx_timestamp tx) (tx_sender tx))
              (set_priceData (mkPriceData p (tx_timestamp tx) true) st)
  | CallInvalidatePrice =>
      ward_of st (tx_sender tx) = 1 /\
      st' = set_priceData
              (mkPriceData (price (priceData st)) (timestamp (priceData st)) false)
              st
  end.
Proof.
  unfold exec. destruct (tx_call tx); intros H.
  - unfold rely in H. inv_ok H. apply auth_Ok_inv in Ha. by injection H as <-.
  - unfold deny in H. inv_ok H. apply auth_Ok_inv in Ha. by injection H as <-.
  - unfold registerNode in H. inv_ok H. apply auth_Ok_inv in Ha.
    apply require_Ok_inv in Ha0, Ha1.
    apply negb_true_iff in Ha0, Ha1. apply Z.eqb_neq in Ha0.
    by injection H as <-.
  - unfold deactivateNode in H. inv_ok H. apply auth_Ok_inv in Ha.
    apply require_Ok_inv in Ha0. by injection H as <-.
  - unfold updatePrice in H. inv_ok H. apply require_Ok_inv in Ha, Ha0.
    rewrite Z.gtb_ltb in Ha0. apply Z.ltb_lt in Ha0. by injection H as <-.
  - unfold emergencyUpdatePrice in H. inv_ok H. apply auth_Ok_inv in Ha.
    apply require_Ok_inv in Ha0.
    rewrite Z.gtb_ltb in Ha0. apply Z.ltb_lt in Ha0. by injection H as <-.
  - unfold invalidatePrice in H. inv_ok H. apply auth_Ok_inv in Ha.
    by injection H as <-.
Qed.

Lemma node_of_set_nodes (st st0 : State) (ns : gmap Z OracleNode) (a b : Z)
    (n : OracleNode) :
  node_of (set_nodes (<[a := n]> ns) st0) b
  = if decide (a = b) then n else default zero_node (ns !! b).
Proof.
  unfold node_of. cbn. rewrite lookup_insert.
  by destruct (decide (a = b)).
Qed.

(** *** Accounts without authority *)

(** X6: An account that is neither a ward nor an active node can change
    nothing: each of its calls is turned down, the ward-only functions with
    "not-authorized" and [updatePrice] with "node-not-active". *)
Theorem outsider_is_refused (st : State) (s t : Z) (c : call) :
  ward_of st s <> 1 ->
  active (node_of st s) = false ->
  exec st (mkTransaction s t c) = Revert (refusal c) /\
  step st (mkTransaction s t c) = st.
Proof.
  intros Hw Hn.
  assert (Hexec : exec st (mkTransaction s t c) = Revert (refusal c)).
  { unfold exec. destruct c; cbn [tx_call tx_sender tx_timestamp refusal].
    - unfold rely. by rewrite auth_refused.
    - unfold deny. by rewrite auth_refused.
    - unfold registerNode. by rewrite auth_refused.
    - unfold deactivateNode. by rewrite auth_refused.
    - unfold updatePrice. by rewrite Hn.
    - unfold emergencyUpdatePrice. by rewrite auth_refused.
    - unfold invalidatePrice. by rewrite auth_refused. }
  split; [done|]. unfold step. by rewrite Hexec.
Qed.

Lemma outsider_is_refused_witness :
  exec Sample.published
    (mkTransaction 0xBAD 1700000100 CallInvalidatePrice)
  = Revert "KUSDOracle/not-authorized" /\
  step Sample.published (mkTransaction 0xBAD 1700000100 CallInvalidatePrice)
  = Sample.published.
Proof.
  apply (outsider_is_refused Sample.published 0xBAD 1700000100 CallInvalidatePrice).
  - vm_compute. discriminate.
  - vm_compute. reflexivity.
Defined.

Lemma step_frozen_nodes (st : State) (tx : transaction) :
  nobody_is_ward st ->
  wards (step st tx) = wards st /\
  nodeList (step st tx) = nodeList st /\
  (forall a, active (node_of (step st tx) a) = active (node_of st a)) /\
  (valid (priceData st) = true -> valid (priceData (step st tx)) = true).
Proof.
  intros Hnone. unfold step.
  destruct (exec st tx) as [st'| |] eqn:E; [|done..].
  apply exec_effect in E.
  pose proof (Hnone (tx_sender tx)) as Hs.
  destruct (tx_call tx); try (destruct E as [E _]; congruence).
  destruct E as (Hact & Hp & ->).
  split; [done|]. split; [done|]. split; [|done].
  intros a. unfold node_of at 1. cbn. rewrite lookup_insert.
  destruct (decide (tx_sender tx = a)) as [<-|Hne]; [|done].
  cbn. done.
Qed.

(** X7: Wards are only ever made by wards: once no account is a ward, none
    becomes one again, and the set of nodes is frozen (no registration, no
    deactivation) and a valid price can no longer be invalidated, whatever
    transactions follow. *)
Theorem no_ward_is_final (st : State) (txs : list transaction) :
  nobody_is_ward st ->
  nobody_is_ward (run st txs) /\
  wards (run st txs) = wards st /\
  nodeList (run st txs) = nodeList st /\
  (forall a, active (node_of (run st txs) a) = active (node_of st a)) /\
  (valid (priceData st) = true -> valid (priceData (run st txs)) = true).
Proof.
  revert st. induction txs as [|tx txs IH]; intros st Hnone; [done|].
  cbn [run fold_left].
  change (fold_left step txs (step st tx)) with (run (step st tx) txs).
  destruct (step_frozen_nodes st tx Hnone) as (Hw & Hl & Ha & Hv).
  assert (Hnone' : nobody_is_ward (step st tx)).
  { intros a. unfold ward_of. rewrite Hw. apply Hnone. }
  destruct (IH _ Hnone') as (IH1 & IH2 & IH3 & IH4 & IH5).
  split; [done|]. split; [congruence|]. split; [congruence|].
  split; [intros a; by rewrite IH4|]. auto.
Qed.

Lemma no_ward_is_final_witness :
  nodeList (run Scenario.renounced Scenario.later_calls)
    = nodeList Scenario.renounced /\
  valid (priceData (run Scenario.renounced Scenario.later_calls)) = true.
Proof.
  destruct (no_ward_is_final Scenario.renounced Scenario.later_calls)
    as (_ & _ & Hl & _ & Hv).
  - intros a. unfold ward_of.
    change (wards Scenario.renounced)
      with (<[Sample.owner := 0]> ({[Sample.owner := 1]} : gmap Z Z)).
    rewrite lookup_insert. destruct (decide (Sample.owner = a)); [done|].
    rewrite lookup_singleton_ne by done. done.
  - split; [exact Hl|]. apply Hv. vm_compute. reflexivity.
Defined.

End RegistryExtras.

(** ** Invariants of the deployed registry *)

Section RegistryInvariants.

Import KUSDOracle.

Lemma step_nodes_listed (st : State) (tx : transaction) :
  nodes_listed st -> nodes_listed (step st tx).
Proof.
  intros Hinv. unfold step.
  destruct (exec st tx) as [st'| |] eqn:E; [|done..].
  apply exec_effect in E. destruct (tx_call tx).
  - destruct E as [_ ->]. exact Hinv.
  - destruct E as [_ ->]. exact Hinv.
  - destruct E as (_ & Hnz & _ & ->). intros b Hb.
    unfold node_of in Hb. cbn in Hb. rewrite lookup_insert in Hb. cbn.
    destruct (decide (nodeAddress0 = b)) as [<-|Hne].
    + split; [|done]. apply elem_of_app. right. by apply list_elem_of_singleton.
    + destruct (Hinv b Hb) as [Hin Hb0]. split; [|done].
      apply elem_of_app. by left.
  - destruct E as (_ & _ & ->). intros b Hb.
    unfold node_of in Hb. cbn in Hb. rewrite lookup_insert in Hb.
    destruct (decide (nodeAddress0 = b)) as [<-|Hne]; [discriminate Hb|].
    exact (Hinv b Hb).
  - destruct E as (Hact & _ & ->). intros b Hb.
    unfold node_of in Hb. cbn in Hb. rewrite lookup_insert in Hb.
    destruct (decide (tx_sender tx = b)) as [<-|Hne].
    + exact (Hinv _ Hact).
    + exact (Hinv b Hb).
  - destruct E as (_ & _ & ->). exact Hinv.
  - destruct E as (_ & ->). exact Hinv.
Qed.

Lemma step_valid_positive (st : State) (tx : transaction) :
  valid_positive st -> valid_positive (step st tx).
Proof.
  intros Hinv. unfold step.
  destruct (exec st tx) as [st'| |] eqn:E; [|done..].
  apply exec_effect in E. destruct (tx_call tx).
  - destruct E as [_ ->]. exact Hinv.
  - destruct E as [_ ->]. exact Hinv.
  - destruct E as (_ & _ & _ & ->). exact Hinv.
  - destruct E as (_ & _ & ->). exact Hinv.
  - destruct E as (_ & Hp & ->). intros _. exact Hp.
  - destruct E as (_ & Hp & ->). intros _. exact Hp.
  - destruct E as (_ & ->). intros Hv. discriminate Hv.
Qed.

Lemma reachable_invariants (st : State) (t : Z) :
  reachable st t -> nodes_listed st /\ valid_positive st.
Proof.
  induction 1 as [s a t Ht | st t tx Hreach [IH1 IH2] Hle | st t t' Hreach IH Hle].
  - split; [|intros Hv; discriminate Hv].
    intros b Hb. discriminate Hb.
  - split; [by apply step_nodes_listed | by apply step_valid_positive].
  - exact IH.
Qed.

Lemma active_keys_counted (st : State) :
  nodes_listed st ->
  distinct_active_count st
  <= Z.of_nat (length (active_entries st (nodeList st))).
Proof.
  intros Hinv. unfold distinct_active_count.
  set (L := filter (fun kv : Z * OracleNode => active kv.2) (map_to_list (nodes st))).
  apply inj_le. rewrite <- (length_fmap fst L).
  apply submseteq_length, NoDup_submseteq.
  - apply (sublist_NoDup (fst <$> L) (fst <$> map_to_list (nodes st)));
      [apply NoDup_fst_map_to_list | apply fmap_sublist, sublist_filter].
  - intros k Hk. apply list_elem_of_fmap in Hk as ([k' n] & -> & Hkn).
    apply list_elem_of_filter in Hkn as [Hact Hin].
    apply elem_of_map_to_list in Hin. cbn in *.
    assert (Hnode : node_of st k' = n) by (unfold node_of; by rewrite Hin).
    apply Is_true_true in Hact.
    apply list_elem_of_filter. rewrite Hnode. split; [done|].
    apply Hinv. by rewrite Hnode.
Qed.

(** X8: In every state of a deployed registry each active node is on
    [nodeList] and is not the zero address, so that [getActiveNodeCount]
    never undercounts: it returns at least the number of distinct active
    addresses, and at most the length of [nodeList]. *)
Theorem getActiveNodeCount_never_undercounts (st : State) (t : Z) :
  reachable st t ->
  Z.of_nat (length (nodeList st)) <= UINT256_MAX ->
  (forall a, active (node_of st a) = true -> a ∈ nodeList st /\ a <> 0) /\
  exists n, getActiveNodeCount st = Ok n /\
            distinct_active_count st <= n <= Z.of_nat (length (nodeList st)).
Proof.
  intros Hreach Hfit. apply reachable_invariants in Hreach as [Hinv _].
  split; [exact Hinv|].
  exists (Z.of_nat (length (active_entries st (nodeList st)))). split.
  - exact (count_loop st (nodeList st) [] 0 eq_refl Hfit).
  - split; [by apply active_keys_counted|].
    apply inj_le. unfold active_entries. apply length_filter.
Qed.

Lemma getActiveNodeCount_never_undercounts_witness :
  exists n, getActiveNodeCount Sample.reregistered = Ok n /\
            distinct_active_count Sample.reregistered <= n <= 2.
Proof.
  destruct (getActiveNodeCount_never_undercounts Sample.reregistered 1700000200)
    as [_ H].
  - apply (reachable_step _ 1700000100 (mkTransaction Sample.owner 1700000200 _));
      [|simpl; lia].
    apply (reachable_step _ 1700000000 (mkTransaction Sample.owner 1700000100 _));
      [|simpl; lia].
    apply (reachable_step _ 1700000000 (mkTransaction Sample.owner 1700000000 _));
      [|simpl; lia].
    apply reachable_deploy. lia.
  - vm_compute. discriminate.
  - exact H.
Defined.

(** [getActiveNodeCount_eq] on the sample deployment. *)
Lemma getActiveNodeCount_eq_witness :
  getActiveNodeCount Sample.published
  = Ok (Z.of_nat (length (active_entries Sample.published (nodeList Sample.published)))).
Proof.
  apply getActiveNodeCount_eq. vm_compute. discriminate.
Defined.

(** X9: The stored timestamp never goes back: a transaction in a block that is
    not earlier than the last one leaves it or moves it forward. *)
Theorem timestamp_never_decreases (st : State) (t : Z) (tx : transaction) :
  reachable st t ->
  t <= tx_timestamp tx ->
  timestamp (priceData st) <= timestamp (priceData (step st tx))
  <= tx_timestamp tx.
Proof.
  intros Hreach Hle. apply reachable_timestamp in Hreach.
  destruct (step_timestamp st tx) as [H|[_ H]]; rewrite H; lia.
Qed.

Lemma timestamp_never_decreases_witness :
  timestamp (priceData Sample.registered)
  <= timestamp (priceData Sample.published) <= 1700000060.
Proof.
  apply (timestamp_never_decreases Sample.registered 1700000000
           (mkTransaction Sample.node1 1700000060
              (CallUpdatePrice (50000 * Sample.ether)
                 [49900 * Sample.ether; 50000 * Sample.ether; 50100 * Sample.ether]
                 [Sample.binance; Sample.coinbase; Sample.coingecko]))).
  - apply (reachable_step _ 1700000000 (mkTransaction Sample.owner 1700000000 _));
      [|simpl; lia].
    apply reachable_deploy. lia.
  - simpl. lia.
Defined.

(** X10: [peek] and [read] agree on every state of a deployed registry: [peek]
    never fails, and it reports the price as valid exactly when [read]
    returns it; otherwise [read] reverts. (A price marked valid is always
    positive there, so that the extra test of [peek] never matters.) *)
Theorem peek_read_agree (st : State) (now : Z) :
  reachable st now ->
  exists v,
    peek st now = Ok (price (priceData st), v) /\
    (v = true -> read st now = Ok (price (priceData st)) /\
                 0 < price (priceData st)) /\
    (v = false -> exists reason, read st now = Revert reason).
Proof.
  intros Hreach.
  pose proof (reachable_timestamp _ _ Hreach) as Hts.
  apply reachable_invariants in Hreach as [_ Hpos].
  unfold peek, read, checked_sub, valid_positive in *.
  replace (timestamp (priceData st) <=? now) with true
    by (symmetry; apply Z.leb_le; lia).
  cbn [bind]. eexists. split; [reflexivity|].
  destruct (valid (priceData st)); cbn [require bind andb].
  - specialize (Hpos eq_refl).
    destruct (now - timestamp (priceData st) <=? STALENESS_THRESHOLD);
      cbn [require bind andb].
    + replace (price (priceData st) >? 0) with true
        by (symmetry; rewrite Z.gtb_ltb; by apply Z.ltb_lt).
      split; [done|]. intros Hf. discriminate Hf.
    + split; [intros Hf; discriminate Hf|]. eauto.
  - split; [intros Hf; discriminate Hf|]. eauto.
Qed.

Lemma peek_read_agree_witness :
  exists v,
    peek Sample.published 1700000060
      = Ok (price (priceData Sample.published), v) /\
    (v = true -> read Sample.published 1700000060
                   = Ok (price (priceData Sample.published)) /\
                 0 < price (priceData Sample.published)) /\
    (v = false -> exists reason, read Sample.published 1700000060 = Revert reason).
Proof.
  apply peek_read_agree.
  apply (reachable_step Sample.registered 1700000000
           (mkTransaction Sample.node1 1700000060 _)); [|simpl; lia].
  apply (reachable_step Sample.deployed 1700000000
           (mkTransaction Sample.owner 1700000000 _)); [|simpl; lia].
  apply reachable_deploy. lia.
Defined.

End RegistryInvariants.

(** ** Publications, wards and the life of a node *)

Section RegistryLife.

Import KUSDOracle.

Lemma step_keeps_price (st : State) (tx : transaction) :
  keeps_price (tx_call tx) = true -> priceData (step st tx) = priceData st.
Proof.
  intros Hk. unfold step.
  destruct (exec st tx) as [st'| |] eqn:E; [|done..].
  apply exec_effect in E. destruct (tx_call tx); try discriminate Hk.
  - by destruct E as [_ ->].
  - by destruct E as [_ ->].
  - by destruct E as (_ & _ & _ & ->).
  - by destruct E as (_ & _ & ->).
Qed.

Lemma run_keeps_price (txs : list transaction) : forall st,
  Forall (fun tx => keeps_price (tx_call tx) = true) txs ->
  priceData (run st txs) = priceData st.
Proof.
  induction txs as [|tx txs IH]; intros st Hall; [done|].
  inversion Hall as [|? ? Htx Htxs]; subst. cbn [run fold_left].
  change (fold_left step txs (step st tx)) with (run (step st tx) txs).
  rewrite IH by done. by apply step_keeps_price.
Qed.

(** X11: A successful publication, by [updatePrice] or [emergencyUpdatePrice],
    can be read back until it goes stale: whatever calls other than
    publications and invalidations follow, [read] returns the published
    price and [peek] reports it valid as long as at most 3600 seconds have
    elapsed; afterwards [read] reverts with "stale-price" and [peek] reports
    the price as not valid. *)
Theorem publication_readable_until_stale (st st1 : State) (tx : transaction)
    (txs : list transaction) (now : Z) :
  exec st tx = Ok st1 ->
  is_publish (tx_call tx) = true ->
  Forall (fun tx' => keeps_price (tx_call tx') = true) txs ->
  tx_timestamp tx <= now ->
  let p := published_price (tx_call tx) in
  (now - tx_timestamp tx <= 3600 ->
     read (run st1 txs) now = Ok p /\ peek (run st1 txs) now = Ok (p, true)) /\
  (3600 < now - tx_timestamp tx ->
     read (run st1 txs) now = Revert "KUSDOracle/stale-price" /\
     peek (run st1 txs) now = Ok (p, false)).
Proof.
  intros Hexec Hpub Hall Hle p.
  assert (Hdata : priceData st1 = mkPriceData p (tx_timestamp tx) true /\ 0 < p).
  { apply exec_effect in Hexec. subst p.
    destruct (tx_call tx); try discriminate Hpub.
    - by destruct Hexec as (_ & Hp & ->).
    - by destruct Hexec as (_ & Hp & ->). }
  destruct Hdata as [Hdata Hp].
  unfold read, peek, checked_sub. rewrite (run_keeps_price txs st1 Hall), Hdata.
  cbn [valid timestamp price require bind].
  replace (tx_timestamp tx <=? now) with true by (symmetry; apply Z.leb_le; lia).
  cbn [bind andb]. unfold STALENESS_THRESHOLD.
  replace (p >? 0) with true by (symmetry; rewrite Z.gtb_ltb; by apply Z.ltb_lt).
  split; intros H.
  - replace (now - tx_timestamp tx <=? 3600) with true
      by (symmetry; apply Z.leb_le; lia). done.
  - replace (now - tx_timestamp tx <=? 3600) with false
      by (symmetry; apply Z.leb_gt; lia). done.
Qed.

Lemma publication_readable_until_stale_witness :
  (read (run Sample.published Scenario.housekeeping) (1700000060 + 3600)
     = Ok (50000 * Sample.ether) /\
   peek (run Sample.published Scenario.housekeeping) (1700000060 + 3600)
     = Ok (50000 * Sample.ether, true)) /\
  read (run Sample.published Scenario.housekeeping) (1700000060 + 3601)
    = Revert "KUSDOracle/stale-price".
Proof.
  assert (Hexec : exec Sample.registered
                    (mkTransaction Sample.node1 1700000060
                       (CallUpdatePrice (50000 * Sample.ether)
                          [49900 * Sample.ether; 50000 * Sample.ether;
                           50100 * Sample.ether]
                          [Sample.binance; Sample.coinbase; Sample.coingecko]))
                  = Ok Sample.published) by (vm_compute; reflexivity).
  assert (Hall : Forall (fun tx' => keeps_price (tx_call tx') = true)
                   Scenario.housekeeping) by (repeat constructor).
  split.
  - apply (publication_readable_until_stale _ _ _ _ (1700000060 + 3600)
             Hexec eq_refl Hall); simpl; lia.
  - apply (publication_readable_until_stale _ _ _ _ (1700000060 + 3601)
             Hexec eq_refl Hall); simpl; lia.
Defined.

(** X12: The life of a node. A successful [deactivateNode] clears the [active]
    flag and keeps the rest of the record and the entry on [nodeList]; the
    node can then neither publish nor be deactivated again; registering it
    again succeeds, starts a new record (stake as given, reputation 100,
    [lastUpdate] 0) and appends the address to [nodeList] once more. *)
Theorem deactivated_node_life (st st' : State) (w a : Z) (reason : string) :
  deactivateNode st w a reason = Ok st' ->
  node_of st' a
    = mkOracleNode (nodeAddress (node_of st a)) (stake (node_of st a))
        (reputation (node_of st a)) false (lastUpdate (node_of st a)) /\
  nodeList st' = nodeList st /\
  priceData st' = priceData st /\
  (forall t p sp srcs,
     updatePrice st' a t p sp srcs = Revert "KUSDOracle/node-not-active") /\
  (forall r, deactivateNode st' w a r = Revert "KUSDOracle/node-not-active") /\
  (forall s, a <> 0 ->
     exists st'', registerNode st' w a s = Ok st'' /\
                  node_of st'' a = mkOracleNode a s 100 true 0 /\
                  nodeList st'' = nodeList st ++ [a]).
Proof.
  intros H.
  apply (exec_effect st st' (mkTransaction w 0 (CallDeactivateNode a reason))) in H.
  cbn [tx_call tx_sender] in H. destruct H as (Hw & Hact & ->).
  set (n' := mkOracleNode _ _ _ false _).
  assert (Hnode : forall e, node_of (emit e (set_nodes (<[a := n']> (nodes st)) st)) a = n').
  { intros e. unfold node_of. cbn. by rewrite lookup_insert_eq. }
  split; [apply Hnode|]. split; [done|]. split; [done|].
  split; [|split].
  - intros t p sp srcs. unfold updatePrice. by rewrite Hnode.
  - intros r. unfold deactivateNode.
    rewrite auth_granted by exact Hw. cbn [bind]. by rewrite Hnode.
  - intros s Hnz. unfold registerNode.
    rewrite auth_granted by exact Hw. cbn [bind].
    apply Z.eqb_neq in Hnz. rewrite Hnz. cbn [negb require bind].
    rewrite Hnode. cbn [active negb require bind].
    eexists. split; [reflexivity|]. split; [|done].
    unfold node_of. cbn. by rewrite lookup_insert_eq.
Qed.

Lemma deactivated_node_life_witness :
  nodeList Scenario.deactivated = nodeList Sample.published /\
  updatePrice Scenario.deactivated Sample.node1 1700000200 (50000 * Sample.ether)
    [49900 * Sample.ether; 50000 * Sample.ether; 50100 * Sample.ether]
    [Sample.binance; Sample.coinbase; Sample.coingecko]
  = Revert "KUSDOracle/node-not-active".
Proof.
  destruct (deactivated_node_life Sample.published Scenario.deactivated
              Sample.owner Sample.node1 "Test deactivation")
    as (_ & Hl & _ & Hup & _).
  - vm_compute. reflexivity.
  - split; [exact Hl | apply Hup].
Defined.

(** X13: Granting and withdrawing authority. [rely] by a ward makes the account a
    ward and [deny] by a ward makes it none, each leaving every other
    account, the price and the nodes as they were; an account that was
    relied on and then denied is turned down by the ward-only functions. *)
Theorem rely_deny_round_trip (st : State) (w usr : Z) :
  ward_of st w = 1 ->
  w <> usr ->
  exists st1 st2,
    rely st w usr = Ok st1 /\
    ward_of st1 usr = 1 /\
    deny st1 w usr = Ok st2 /\
    ward_of st2 usr = 0 /\
    (forall a, a <> usr -> ward_of st1 a = ward_of st a /\
                           ward_of st2 a = ward_of st a) /\
    priceData st2 = priceData st /\ nodes st2 = nodes st /\
    nodeList st2 = nodeList st /\
    invalidatePrice st1 usr
      = Ok (set_priceData
              (mkPriceData (price (priceData st)) (timestamp (priceData st)) false)
              st1) /\
    invalidatePrice st2 usr = Revert "KUSDOracle/not-authorized".
Proof.
  intros Hw Hne.
  set (st1 := emit (Rely usr) (set_wards (<[usr := 1]> (wards st)) st)).
  set (st2 := emit (Deny usr) (set_wards (<[usr := 0]> (wards st1)) st1)).
  assert (H1 : ward_of st1 usr = 1)
    by (unfold ward_of; cbn; by rewrite lookup_insert_eq).
  assert (H2 : ward_of st2 usr = 0)
    by (unfold ward_of; cbn; by rewrite lookup_insert_eq).
  assert (Hw1 : ward_of st1 w = 1).
  { unfold ward_of. cbn. rewrite lookup_insert_ne by done. exact Hw. }
  exists st1, st2.
  split; [unfold rely; by rewrite auth_granted|].
  split; [done|].
  split; [unfold deny; by rewrite auth_granted|].
  split; [done|].
  split.
  { intros a Ha. unfold ward_of. cbn.
    rewrite !lookup_insert_ne by done. done. }
  split; [done|]. split; [done|]. split; [done|].
  split.
  - unfold invalidatePrice. by rewrite auth_granted.
  - unfold invalidatePrice. rewrite auth_refused; [done|]. rewrite H2. done.
Qed.

Lemma rely_deny_round_trip_witness :
  exists st1 st2,
    rely Sample.published Sample.owner 0xC0FFEE = Ok st1 /\
    ward_of st1 0xC0FFEE = 1 /\
    deny st1 Sample.owner 0xC0FFEE = Ok st2 /\
    ward_of st2 0xC0FFEE = 0.
Proof.
  destruct (rely_deny_round_trip Sample.published Sample.owner 0xC0FFEE)
    as (st1 & st2 & H1 & H2 & H3 & H4 & _).
  - vm_compute. reflexivity.
  - vm_compute. discriminate.
  - exists st1, st2. auto.
Defined.

End RegistryLife.

(** * The factory *)

Section FactoryLemmas.

Import KUSDOracleFactory.

Lemma foldM_app {A S : Type} (f : A -> S -> result S) (l1 l2 : list A) (s : S) :
  foldM f (l1 ++ l2) s = let* s' := foldM f l1 s in foldM f l2 s'.
Proof.
  revert s. induction l1 as [|x l1 IH]; intros s; [done|].
  cbn [app foldM]. destruct (f x s); cbn [bind]; [apply IH|done..].
Qed.

(** A loop over the indices of an array whose body reads the element and
    keeps an invariant is a fold over the elements. *)
Lemma for_loop_foldM {St : Type} (I : St -> Prop) (l : list Z)
    (body : nat -> St -> result St) (f : Z -> St -> result St) :
  (forall i s, I s -> body i s = let* x := array_get l i in f x s) ->
  (forall x s s', I s -> f x s = Ok s' -> I s') ->
  forall rest pre s,
    l = pre ++ rest -> I s ->
    for_loop (length rest) (length pre) body s = foldM f rest s.
Proof.
  intros Hbody Hinv. induction rest as [|a rest IH]; intros pre s Hl Hs; [done|].
  cbn [length for_loop foldM]. rewrite Hbody by done.
  rewrite Hl, array_get_middle. cbn [bind].
  destruct (f a s) as [s'| |] eqn:E; cbn [bind]; [|done..].
  replace (S (length pre)) with (length (pre ++ [a]))
    by (rewrite length_app; simpl; lia).
  apply IH.
  - by rewrite <- app_assoc.
  - by apply (Hinv a s).
Qed.

Lemma call_oracle_Ok_inv (ch ch' : Chain) (oracle : Z)
    (f : KUSDOracle.State -> result KUSDOracle.State) :
  call_oracle ch oracle f = Ok ch' ->
  exists st st', deployed ch !! oracle = Some st /\ f st = Ok st' /\
                 ch' = mkChain (factory ch) (<[oracle := st']> (deployed ch)).
Proof.
  unfold call_oracle. destruct (deployed ch !! oracle) as [st|]; [|discriminate].
  intros H. apply bind_Ok_inv in H as (st' & Hf & H). injection H as <-. eauto.
Qed.

Lemma fauth_Ok_inv (ch : Chain) (s : Z) (u : unit) :
  auth ch s = Ok u -> ward_of (factory ch) s = 1.
Proof.
  unfold auth. destruct (Z.eqb_spec (ward_of (factory ch) s) 1); [done|discriminate].
Qed.

Lemma fauth_granted (ch : Chain) (s : Z) :
  ward_of (factory ch) s = 1 -> auth ch s = Ok tt.
Proof. intros H. unfold auth. by rewrite H. Qed.

Lemma batch_loop (f : KUSDOracle.State -> result KUSDOracle.State)
    (assets : list Z) (ch : Chain) :
  for_loop (length assets) 0 (batch_step assets f) ch
  = foldM (batch_call f) assets ch.
Proof.
  apply (for_loop_foldM (fun _ => True) assets _ (batch_call f)
           (fun _ _ _ => eq_refl) (fun _ _ _ _ _ => I) assets [] ch eq_refl I).
Qed.

Lemma batch_call_Ok_inv (f : KUSDOracle.State -> result KUSDOracle.State)
    (asset : Z) (ch ch' : Chain) :
  batch_call f asset ch = Ok ch' ->
  oracle_of (factory ch) asset <> 0 /\
  exists st st',
    deployed ch !! oracle_of (factory ch) asset = Some st /\ f st = Ok st' /\
    ch' = mkChain (factory ch)
            (<[oracle_of (factory ch) asset := st']> (deployed ch)).
Proof.
  unfold batch_call. intros H. apply bind_Ok_inv in H as (u & Hr & H).
  destruct (Z.eqb_spec (oracle_of (factory ch) asset) 0); [discriminate Hr|].
  split; [done|]. by apply call_oracle_Ok_inv.
Qed.

End FactoryLemmas.

Section FactoryRegistry.

Import KUSDOracleFactory.

(** The oracle that [deployOracle] leaves at the new address. *)
Lemma deployed_oracle_wards (this d asset a : Z) :
  let st0 := KUSDOracle.constructor this asset in
  let st1 := KUSDOracle.emit (KUSDOracle.Rely this)
               (KUSDOracle.set_wards (<[this := 1]> (KUSDOracle.wards st0)) st0) in
  let st2 := KUSDOracle.emit (KUSDOracle.Rely d)
               (KUSDOracle.set_wards (<[d := 1]> (KUSDOracle.wards st1)) st1) in
  KUSDOracle.rely st0 this this = Ok st1 /\
  KUSDOracle.rely st1 this d = Ok st2 /\
  KUSDOracle.ward_of st2 a = if decide (a = this \/ a = d) then 1 else 0.
Proof.
  intros st0 st1 st2.
  assert (H0 : KUSDOracle.ward_of st0 this = 1)
    by (unfold KUSDOracle.ward_of; cbn; by rewrite lookup_singleton_eq).
  assert (H1 : KUSDOracle.ward_of st1 this = 1)
    by (unfold KUSDOracle.ward_of; cbn; by rewrite lookup_insert_eq).
  split; [unfold KUSDOracle.rely; by rewrite auth_granted|].
  split; [unfold KUSDOracle.rely; by rewrite auth_granted|].
  unfold KUSDOracle.ward_of. cbn. rewrite !lookup_insert.
  destruct (decide (d = a)) as [->|Hd].
  - rewrite decide_True by auto. done.
  - destruct (decide (this = a)) as [->|Ht].
    + rewrite decide_True by auto. done.
    + rewrite lookup_singleton_ne by done.
      rewrite decide_False by (intros [?|?]; congruence). done.
Qed.

(** X14: [deployOracle] and the lookups. A ward that deploys an oracle for a new
    asset gets the address of the new contract; from then on [getOracle] maps
    the asset to it and [getAsset] maps it back, the asset is the last one of
    [getAllAssets], the other assets and contracts are untouched, and the new
    oracle starts without a valid price or nodes, with exactly the factory
    and the deployer as wards. A second deployment for the asset is turned
    down with "oracle-exists". *)
Theorem deployOracle_round_trip (ch : Chain) (this d asset oracle : Z) :
  ward_of (factory ch) d = 1 ->
  asset <> 0 ->
  getOracle ch asset = 0 ->
  oracle <> 0 ->
  deployed ch !! oracle = None ->
  exists ch',
    deployOracle ch this d asset oracle = Ok (ch', oracle) /\
    getOracle ch' asset = oracle /\
    getAsset ch' oracle = asset /\
    getAllAssets ch' = getAllAssets ch ++ [asset] /\
    getOracleCount ch' = getOracleCount ch + 1 /\
    (forall a, a <> asset -> getOracle ch' a = getOracle ch a) /\
    (forall o, o <> oracle -> deployed ch' !! o = deployed ch !! o) /\
    (exists st,
       deployed ch' !! oracle = Some st /\
       (forall a, KUSDOracle.ward_of st a = if decide (a = this \/ a = d) then 1 else 0) /\
       KUSDOracle.getPriceData st = (0, 0, false) /\
       KUSDOracle.asset st = asset /\
       KUSDOracle.nodeList st = []) /\
    (forall d' oracle',
       ward_of (factory ch') d' = 1 ->
       deployOracle ch' this d' asset oracle' = Revert "KUSDOracleFactory/oracle-exists").
Proof.
  intros Hw Hasset Hnew Horacle Hfree.
  unfold getOracle in Hnew.
  destruct (deployed_oracle_wards this d asset 0) as (Hr1 & Hr2 & _).
  cbv zeta in Hr1, Hr2.
  eexists. split.
  { unfold deployOracle. rewrite fauth_granted by done. cbn [bind].
    apply Z.eqb_neq in Hasset as ->. cbn [negb require bind].
    rewrite Hnew. cbn [Z.eqb require bind].
    apply Z.eqb_neq in Horacle as ->.
    rewrite bool_decide_eq_true_2 by done. cbn [negb andb require bind].
    unfold call_oracle at 1. cbn [deployed set_factory].
    rewrite lookup_insert_eq, Hr1. cbn [bind].
    unfold call_oracle at 1. cbn [deployed].
    rewrite lookup_insert_eq, Hr2. cbn [bind]. reflexivity. }
  unfold getOracle, getAsset, getAllAssets, getOracleCount, oracle_of, asset_of.
  cbn. rewrite !lookup_insert_eq. cbn.
  split; [done|]. split; [done|]. split; [done|].
  split; [rewrite length_app; cbn; lia|].
  split; [intros a Ha; by rewrite lookup_insert_ne|].
  split; [intros o Ho; by rewrite !lookup_insert_ne|].
  split.
  - eexists. split; [reflexivity|]. split; [|done].
    intros a. apply (deployed_oracle_wards this d asset a).
  - intros d' oracle' Hd'. unfold deployOracle.
    rewrite fauth_granted by exact Hd'. cbn [bind].
    apply Z.eqb_neq in Hasset as ->. cbn [negb require bind].
    unfold oracle_of. cbn. rewrite lookup_insert_eq. cbn.
    apply Z.eqb_neq in Horacle as ->. done.
Qed.

Lemma deployOracle_round_trip_witness :
  exists ch',
    deployOracle FactorySample.with_btc FactorySample.this Sample.owner
      FactorySample.ETH FactorySample.eth_oracle = Ok (ch', FactorySample.eth_oracle) /\
    getOracle ch' FactorySample.ETH = FactorySample.eth_oracle /\
    getAsset ch' FactorySample.eth_oracle = FactorySample.ETH /\
    getOracle ch' Sample.BTC = FactorySample.btc_oracle.
Proof.
  destruct (deployOracle_round_trip FactorySample.with_btc FactorySample.this
              Sample.owner FactorySample.ETH FactorySample.eth_oracle)
    as (ch' & H1 & H2 & H3 & _ & _ & H6 & _).
  - vm_compute. reflexivity.
  - vm_compute. discriminate.
  - vm_compute. reflexivity.
  - vm_compute. discriminate.
  - vm_compute. reflexivity.
  - exists ch'. split; [exact H1|]. split; [exact H2|]. split; [exact H3|].
    rewrite H6; [vm_compute; reflexivity | vm_compute; discriminate].
Defined.

End FactoryRegistry.

Section FactoryInvariant.

Import KUSDOracleFactory.

Lemma batch_fold_factory (f : KUSDOracle.State -> result KUSDOracle.State)
    (assets : list Z) : forall ch ch',
  foldM (batch_call f) assets ch = Ok ch' -> factory ch' = factory ch.
Proof.
  induction assets as [|a assets IH]; intros ch ch' H.
  - by injection H as <-.
  - cbn [foldM] in H. apply bind_Ok_inv in H as (ch1 & H1 & H).
    apply batch_call_Ok_inv in H1 as (_ & st & st' & _ & _ & ->).
    by rewrite (IH _ _ H).
Qed.

Lemma invalidate_call_factory (this asset : Z) (ch ch' : Chain) :
  invalidate_call this asset ch = Ok ch' -> factory ch' = factory ch.
Proof.
  unfold invalidate_call. destruct (negb _).
  - intros H. by apply call_oracle_Ok_inv in H as (st & st' & _ & _ & ->).
  - intros H. by injection H as <-.
Qed.

Lemma invalidate_loop (this : Z) (ch : Chain) :
  for_loop (length (assetList (factory ch))) 0 (invalidate_step this) ch
  = foldM (invalidate_call this) (assetList (factory ch)) ch.
Proof.
  refine (for_loop_foldM (fun s => factory s = factory ch)
            (assetList (factory ch)) _ (invalidate_call this) _ _
            (assetList (factory ch)) [] ch eq_refl eq_refl).
  - intros i s Hs. unfold invalidate_step, invalidate_call. by rewrite Hs.
  - intros x s s' Hs H. apply invalidate_call_factory in H. congruence.
Qed.

Lemma invalidate_fold_factory (this : Z) (assets : list Z) : forall ch ch',
  foldM (invalidate_call this) assets ch = Ok ch' -> factory ch' = factory ch.
Proof.
  induction assets as [|a assets IH]; intros ch ch' H.
  - by injection H as <-.
  - cbn [foldM] in H. apply bind_Ok_inv in H as (ch1 & H1 & H).
    apply invalidate_call_factory in H1. rewrite (IH _ _ H). done.
Qed.

Lemma registry_consistent_emit (e : Event) (f : Factory) :
  registry_consistent f -> registry_consistent (emit e f).
Proof. done. Qed.

(** X15: The registry of the factory stays consistent and only grows: after any
    successful call the listed assets are still distinct, non-zero and
    exactly those that have an oracle, and the assets listed before are
    still listed, in the same order. *)
Theorem registry_stays_consistent :
  (forall d, registry_consistent (constructor d)) /\
  (forall ch this s c ch',
     registry_consistent (factory ch) ->
     exec ch this s c = Ok ch' ->
     registry_consistent (factory ch') /\
     assetList (factory ch) `prefix_of` assetList (factory ch')).
Proof.
  split.
  { intros d. split; [constructor|]. split; [apply not_elem_of_nil|].
    intros asset. split; [intros H; by apply elem_of_nil in H|].
    intros H. by unfold oracle_of in H. }
  intros ch this s c ch' (Hnd & Hz & Hiff) H. destruct c; cbn [exec] in H.
  - unfold rely in H. apply bind_Ok_inv in H as (u & _ & H). injection H as <-.
    split; [done|]. done.
  - unfold deny in H. apply bind_Ok_inv in H as (u & _ & H). injection H as <-.
    split; [done|]. done.
  - apply bind_Ok_inv in H as ([ch1 o] & H & Hch). injection Hch as <-.
    unfold deployOracle in H.
    apply bind_Ok_inv in H as (u1 & _ & H).
    apply bind_Ok_inv in H as (u2 & Hasset & H).
    apply bind_Ok_inv in H as (u3 & Hnew & H).
    apply bind_Ok_inv in H as (u4 & Hcreate & H).
    apply bind_Ok_inv in H as (ch3 & H3 & H).
    apply bind_Ok_inv in H as (ch4 & H4 & H).
    apply call_oracle_Ok_inv in H3 as (st3 & st3' & _ & _ & ->).
    apply call_oracle_Ok_inv in H4 as (st4 & st4' & _ & _ & ->).
    injection H as <- <-. cbn [fst factory set_factory].
    apply require_Ok_inv in Hasset, Hnew, Hcreate.
    apply negb_true_iff, Z.eqb_neq in Hasset. apply Z.eqb_eq in Hnew.
    apply andb_true_iff in Hcreate as [Ho _].
    apply negb_true_iff, Z.eqb_neq in Ho.
    assert (Hnotin : asset ∉ assetList (factory ch)).
    { intros Hin. apply Hiff in Hin. done. }
    split; [|by apply prefix_app_r].
    apply registry_consistent_emit. split; [|split]; cbn [assetList].
    + apply NoDup_app. split; [done|]. split; [|apply NoDup_singleton].
      intros x Hx Hx'. apply list_elem_of_singleton in Hx'. by subst.
    + intros Hin. apply elem_of_app in Hin as [Hin|Hin]; [done|].
      apply list_elem_of_singleton in Hin. done.
    + intros x. unfold oracle_of. cbn [oracles]. rewrite lookup_insert.
      rewrite elem_of_app, list_elem_of_singleton.
      destruct (decide (asset = x)) as [->|Hne]; cbn.
      * split; [done|]. by right.
      * rewrite Hiff. unfold oracle_of. split; [|by left].
        intros [Hx|Hx]; [done|]. by subst.
  - unfold updateOracle in H.
    apply bind_Ok_inv in H as (u1 & _ & H).
    apply bind_Ok_inv in H as (u2 & Hasset & H).
    apply bind_Ok_inv in H as (u3 & Hnew & H).
    apply bind_Ok_inv in H as (u4 & Hold & H).
    injection H as <-. cbn [factory set_factory].
    apply require_Ok_inv in Hasset, Hnew, Hold.
    apply negb_true_iff, Z.eqb_neq in Hasset, Hnew, Hold.
    split; [|done].
    apply registry_consistent_emit. split; [done|]. split; [done|].
    cbn [assetList]. intros x. unfold oracle_of at 1. cbn [oracles].
    rewrite lookup_insert. destruct (decide (asset = x)) as [<-|Hne]; cbn.
    + split; [done|]. intros _. by apply Hiff.
    + apply Hiff.
  - unfold batchRegisterNode in H.
    apply bind_Ok_inv in H as (u1 & _ & H).
    apply bind_Ok_inv in H as (u2 & _ & H).
    rewrite batch_loop in H. apply batch_fold_factory in H. rewrite H.
    split; [done|]. done.
  - unfold batchDeactivateNode in H.
    apply bind_Ok_inv in H as (u1 & _ & H).
    apply bind_Ok_inv in H as (u2 & _ & H).
    rewrite batch_loop in H. apply batch_fold_factory in H. rewrite H.
    split; [done|]. done.
  - unfold emergencyInvalidateAll in H.
    apply bind_Ok_inv in H as (u1 & _ & H).
    rewrite invalidate_loop in H. apply invalidate_fold_factory in H. rewrite H.
    split; [done|]. done.
Qed.

Lemma registry_stays_consistent_witness :
  registry_consistent (factory FactorySample.with_both) /\
  assetList (factory FactorySample.with_btc)
    `prefix_of` assetList (factory FactorySample.with_both).
Proof.
  destruct registry_stays_consistent as [Hinit Hstep].
  apply (Hstep FactorySample.with_btc FactorySample.this Sample.owner
           (CallDeployOracle FactorySample.ETH FactorySample.eth_oracle)).
  - apply (Hstep FactorySample.fresh FactorySample.this Sample.owner
             (CallDeployOracle Sample.BTC FactorySample.btc_oracle)).
    + apply Hinit.
    + vm_compute. reflexivity.
  - vm_compute. reflexivity.
Defined.

End FactoryInvariant.

Section FactoryEmergency.

Import KUSDOracleFactory.








End FactoryEmergency.

Section FactoryBatch.

Import KUSDOracleFactory.

(** A call [f] to an oracle that succeeds exactly on the states satisfying
    [P], leaves the state [g st], and cannot be made twice in a row. *)
Variables (f : KUSDOracle.State -> result KUSDOracle.State)
          (P : KUSDOracle.State -> Prop)
          (g : KUSDOracle.State -> KUSDOracle.State).
Hypothesis f_spec : forall st st', f st = Ok st' <-> P st /\ st' = g st.
Hypothesis f_once : forall st, P st -> ~ P (g st).

Lemma batch_fold_inv (assets : list Z) : forall ch ch',
  foldM (batch_call f) assets ch = Ok ch' ->
  batch_ready ch assets P /\
  factory ch' = factory ch /\
  forall o, deployed ch' !! o
            = if bool_decide (o ∈ getOracle ch <$> assets)
              then g <$> deployed ch !! o else deployed ch !! o.
Proof.
  unfold batch_ready, getOracle.
  induction assets as [|a assets IH]; intros ch ch' H.
  - injection H as <-. split; [split; [constructor|]|].
    + intros a Ha. by apply elem_of_nil in Ha.
    + split; [done|]. intros o. rewrite bool_decide_eq_false_2; [done|].
      cbn. apply not_elem_of_nil.
  - cbn [foldM] in H. apply bind_Ok_inv in H as (ch1 & H1 & H).
    apply batch_call_Ok_inv in H1 as (Hne & st & st' & Hst & Hf & ->).
    apply f_spec in Hf as [HP ->].
    set (o_a := oracle_of (factory ch) a) in *.
    apply IH in H as ((Hnd & Hall) & Hfac & Hdep).
    cbn [factory deployed] in Hnd, Hall, Hfac, Hdep.
    assert (Hfresh : o_a ∉ oracle_of (factory ch) <$> assets).
    { intros Hin. apply list_elem_of_fmap in Hin as (a' & Heq & Ha').
      destruct (Hall a' Ha') as (_ & st' & Hst' & HP').
      rewrite <- Heq, lookup_insert_eq in Hst'. injection Hst' as <-.
      by apply (f_once st). }
    split; [split|].
    + rewrite fmap_cons. by constructor.
    + intros a' Ha'. apply elem_of_cons in Ha' as [->|Ha']; [eauto|].
      destruct (Hall a' Ha') as (Hne' & st' & Hst' & HP').
      split; [done|]. exists st'. split; [|done].
      rewrite lookup_insert_ne in Hst'; [done|].
      intros Heq. apply Hfresh, list_elem_of_fmap. by exists a'.
    + split; [done|]. intros o. rewrite (Hdep o), fmap_cons. fold o_a.
      destruct (decide (o = o_a)) as [->|Hneq].
      * rewrite lookup_insert_eq, Hst.
        rewrite (bool_decide_eq_true_2 (o_a ∈ o_a :: _)) by apply list_elem_of_here.
        by rewrite bool_decide_eq_false_2.
      * rewrite lookup_insert_ne by done.
        destruct (bool_decide (o ∈ oracle_of (factory ch) <$> assets)) eqn:E.
        -- apply bool_decide_eq_true_1 in E.
           rewrite bool_decide_eq_true_2; [done|]. by apply list_elem_of_further.
        -- apply bool_decide_eq_false_1 in E.
           rewrite bool_decide_eq_false_2; [done|].
           intros Hin. apply elem_of_cons in Hin as [Hin|Hin]; done.
Qed.

Lemma batch_fold_ok (assets : list Z) : forall ch,
  batch_ready ch assets P -> exists ch', foldM (batch_call f) assets ch = Ok ch'.
Proof.
  unfold batch_ready, getOracle.
  induction assets as [|a assets IH]; intros ch [Hnd Hall]; [by exists ch|].
  rewrite fmap_cons in Hnd. apply NoDup_cons in Hnd as [Hfresh Hnd].
  destruct (Hall a) as (Hne & st & Hst & HP); [apply list_elem_of_here|].
  set (o_a := oracle_of (factory ch) a) in *.
  set (ch1 := mkChain (factory ch) (<[o_a := g st]> (deployed ch))).
  assert (H1 : batch_call f a ch = Ok ch1).
  { unfold batch_call. fold o_a. apply Z.eqb_neq in Hne. rewrite Hne. cbn.
    unfold call_oracle. rewrite Hst.
    by rewrite (proj2 (f_spec st (g st)) (conj HP eq_refl)). }
  destruct (IH ch1) as [ch' H].
  { split; [done|]. intros a' Ha'. cbn [ch1 factory deployed].
    destruct (Hall a') as (Hne' & st' & Hst' & HP'); [by apply list_elem_of_further|].
    split; [done|]. exists st'. split; [|done].
    rewrite lookup_insert_ne; [done|].
    intros Heq. apply Hfresh, list_elem_of_fmap. by exists a'. }
  exists ch'. cbn [foldM]. by rewrite H1.
Qed.

Lemma batch_fold_spec (assets : list Z) (ch : Chain) :
  ((exists ch', foldM (batch_call f) assets ch = Ok ch') <-> batch_ready ch assets P) /\
  (forall ch', foldM (batch_call f) assets ch = Ok ch' -> batch_applied ch ch' assets g).
Proof.
  split; [split|].
  - intros [ch' H]. by apply batch_fold_inv in H as [? _].
  - apply batch_fold_ok.
  - intros ch' H. apply batch_fold_inv in H as (_ & Hfac & Hdep).
    split; [done|]. split.
    + intros a Ha. rewrite Hdep. rewrite bool_decide_eq_true_2; [done|].
      apply list_elem_of_fmap. by exists a.
    + intros o Ho. rewrite Hdep. by rewrite bool_decide_eq_false_2.
Qed.

End FactoryBatch.

Section FactoryBatchCalls.

Import KUSDOracleFactory.

Lemma registerNode_spec (this node stake : Z) (st st' : KUSDOracle.State) :
  node <> 0 ->
  KUSDOracle.registerNode st this node stake = Ok st'
  <-> (KUSDOracle.ward_of st this = 1
       /\ KUSDOracle.active (KUSDOracle.node_of st node) = false)
      /\ st' = with_node node stake st.
Proof.
  intros Hnode. unfold KUSDOracle.registerNode. split.
  - intros H. apply bind_Ok_inv in H as (u1 & Hw & H).
    apply bind_Ok_inv in H as (u2 & _ & H).
    apply bind_Ok_inv in H as (u3 & Hact & H).
    apply auth_Ok_inv in Hw. apply require_Ok_inv, negb_true_iff in Hact.
    by injection H as <-.
  - intros [[Hw Hact] ->]. rewrite (auth_granted st this Hw). cbn [bind].
    apply Z.eqb_neq in Hnode. rewrite Hnode, Hact. done.
Qed.

Lemma deactivateNode_spec (this node : Z) (reason : string)
    (st st' : KUSDOracle.State) :
  KUSDOracle.deactivateNode st this node reason = Ok st'
  <-> (KUSDOracle.ward_of st this = 1
       /\ KUSDOracle.active (KUSDOracle.node_of st node) = true)
      /\ st' = without_node node reason st.
Proof.
  unfold KUSDOracle.deactivateNode. split.
  - intros H. apply bind_Ok_inv in H as (u1 & Hw & H).
    apply bind_Ok_inv in H as (u2 & Hact & H).
    apply auth_Ok_inv in Hw. apply require_Ok_inv in Hact.
    by injection H as <-.
  - intros [[Hw Hact] ->]. rewrite (auth_granted st this Hw). cbn [bind].
    rewrite Hact. done.
Qed.

Lemma with_node_active (node stake : Z) (st : KUSDOracle.State) :
  KUSDOracle.active (KUSDOracle.node_of (with_node node stake st) node) = true.
Proof.
  unfold with_node, KUSDOracle.node_of. cbn. by rewrite lookup_insert_eq.
Qed.

Lemma without_node_active (node : Z) (reason : string) (st : KUSDOracle.State) :
  KUSDOracle.active (KUSDOracle.node_of (without_node node reason st) node) = false.
Proof.
  unfold without_node, KUSDOracle.node_of. cbn. by rewrite lookup_insert_eq.
Qed.

(** X17: [batchRegisterNode] is all or nothing. It succeeds exactly when the
    caller is a ward of the factory, the node address is not zero, and the
    assets of the batch have distinct oracles, each a deployed contract of
    which the factory is a ward and in which the node is not active; an
    asset listed twice makes the whole batch fail. When it succeeds, the
    node is registered (active, reputation 100) at the oracle of each asset
    of the batch, and nothing else has changed. *)
Theorem batchRegisterNode_all_or_nothing (ch : Chain) (this s : Z)
    (assets : list Z) (node stake : Z) :
  ((exists ch', batchRegisterNode ch this s assets node stake = Ok ch')
   <-> ward_of (factory ch) s = 1 /\ node <> 0 /\
       batch_ready ch assets
         (fun st => KUSDOracle.ward_of st this = 1
                    /\ KUSDOracle.active (KUSDOracle.node_of st node) = false)) /\
  (forall ch', batchRegisterNode ch this s assets node stake = Ok ch' ->
     batch_applied ch ch' assets (with_node node stake)).
Proof.
  unfold batchRegisterNode. rewrite batch_loop.
  destruct (decide (ward_of (factory ch) s = 1)) as [Hs|Hs].
  2:{ unfold auth. apply Z.eqb_neq in Hs as Hs'. rewrite Hs'. cbn.
      split; [split|]; [intros [? ?]; done|intros [? _]; done|done]. }
  rewrite (fauth_granted ch s Hs). cbn [bind].
  destruct (decide (node = 0)) as [->|Hnode].
  { cbn. split; [split|]; [intros [? ?]; done|intros (_ & ? & _); done|done]. }
  apply Z.eqb_neq in Hnode as Hnode'. rewrite Hnode'. cbn [negb require bind].
  pose proof (batch_fold_spec
                (fun st => KUSDOracle.registerNode st this node stake)
                (fun st => KUSDOracle.ward_of st this = 1
                           /\ KUSDOracle.active (KUSDOracle.node_of st node) = false)
                (with_node node stake)
                (fun st st' => registerNode_spec this node stake st st' Hnode)
                (fun st _ HP => eq_ind true (fun b => b = false -> False)
                                  (fun E => Bool.diff_true_false E) _
                                  (eq_sym (with_node_active node stake st)) (proj2 HP))
                assets ch) as [Hiff Heff].
  split; [|exact Heff]. rewrite Hiff. tauto.
Qed.

Lemma batchRegisterNode_all_or_nothing_witness :
  (exists ch',
     batchRegisterNode FactorySample.with_both FactorySample.this Sample.owner
       [Sample.BTC; FactorySample.ETH] Sample.node1 1000 = Ok ch') /\
  batchRegisterNode FactorySample.with_both FactorySample.this Sample.owner
    [Sample.BTC; Sample.BTC] Sample.node1 1000
  = Revert "KUSDOracle/node-already-active".
Proof.
  split; [|vm_compute; reflexivity].
  apply (batchRegisterNode_all_or_nothing FactorySample.with_both
           FactorySample.this Sample.owner [Sample.BTC; FactorySample.ETH]
           Sample.node1 1000).
  split; [vm_compute; reflexivity|]. split; [discriminate|]. split.
  - apply (bool_decide_unpack _). vm_compute. exact I.
  - intros a Ha. apply elem_of_cons in Ha as [->|Ha].
    + split; [discriminate|]. eexists. split; [vm_compute; reflexivity|].
      split; vm_compute; reflexivity.
    + apply list_elem_of_singleton in Ha as ->.
      split; [discriminate|]. eexists. split; [vm_compute; reflexivity|].
      split; vm_compute; reflexivity.
Defined.

(** X18: [batchDeactivateNode] is all or nothing. It succeeds exactly when the
    caller is a ward of the factory, the node address is not zero, and the
    assets of the batch have distinct oracles, each a deployed contract of
    which the factory is a ward and in which the node is active. When it
    succeeds, the node is inactive at the oracle of each asset of the batch,
    with its stake, reputation and last update kept, and nothing else has
    changed. *)
Theorem batchDeactivateNode_all_or_nothing (ch : Chain) (this s : Z)
    (assets : list Z) (node : Z) (reason : string) :
  ((exists ch', batchDeactivateNode ch this s assets node reason = Ok ch')
   <-> ward_of (factory ch) s = 1 /\ node <> 0 /\
       batch_ready ch assets
         (fun st => KUSDOracle.ward_of st this = 1
                    /\ KUSDOracle.active (KUSDOracle.node_of st node) = true)) /\
  (forall ch', batchDeactivateNode ch this s assets node reason = Ok ch' ->
     batch_applied ch ch' assets (without_node node reason)).
Proof.
  unfold batchDeactivateNode. rewrite batch_loop.
  destruct (decide (ward_of (factory ch) s = 1)) as [Hs|Hs].
  2:{ unfold auth. apply Z.eqb_neq in Hs as Hs'. rewrite Hs'. cbn.
      split; [split|]; [intros [? ?]; done|intros [? _]; done|done]. }
  rewrite (fauth_granted ch s Hs). cbn [bind].
  destruct (decide (node = 0)) as [->|Hnode].
  { cbn. split; [split|]; [intros [? ?]; done|intros (_ & ? & _); done|done]. }
  apply Z.eqb_neq in Hnode as Hnode'. rewrite Hnode'. cbn [negb require bind].
  pose proof (batch_fold_spec
                (fun st => KUSDOracle.deactivateNode st this node reason)
                (fun st => KUSDOracle.ward_of st this = 1
                           /\ KUSDOracle.active (KUSDOracle.node_of st node) = true)
                (without_node node reason)
                (fun st st' => deactivateNode_spec this node reason st st')
                (fun st _ HP => eq_ind false (fun b => b = true -> False)
                                  (fun E => Bool.diff_false_true E) _
                                  (eq_sym (without_node_active node reason st)) (proj2 HP))
                assets ch) as [Hiff Heff].
  split; [|exact Heff]. rewrite Hiff. tauto.
Qed.

Lemma batchDeactivateNode_all_or_nothing_witness :
  (exists ch',
     batchDeactivateNode FactorySample.with_node1 FactorySample.this Sample.owner
       [Sample.BTC; FactorySample.ETH] Sample.node1 "Test" = Ok ch') /\
  batchDeactivateNode FactorySample.with_both FactorySample.this Sample.owner
    [Sample.BTC; FactorySample.ETH] Sample.node1 "Test"
  = Revert "KUSDOracle/node-not-active".
Proof.
  split; [|vm_compute; reflexivity].
  apply (batchDeactivateNode_all_or_nothing FactorySample.with_node1
           FactorySample.this Sample.owner [Sample.BTC; FactorySample.ETH]
           Sample.node1 "Test").
  split; [vm_compute; reflexivity|]. split; [discriminate|]. split.
  - apply (bool_decide_unpack _). vm_compute. exact I.
  - intros a Ha. apply elem_of_cons in Ha as [->|Ha].
    + split; [discriminate|]. eexists. split; [vm_compute; reflexivity|].
      split; vm_compute; reflexivity.
    + apply list_elem_of_singleton in Ha as ->.
      split; [discriminate|]. eexists. split; [vm_compute; reflexivity|].
      split; vm_compute; reflexivity.
Defined.

End FactoryBatchCalls.

Section FactoryPrices.

Import KUSDOracleFactory.










End FactoryPrices.

Section FactoryEmergencyPrices.

Import KUSDOracleFactory.




End FactoryEmergencyPrices.

Section FactoryReverse.

Import KUSDOracleFactory.

Lemma deployOracle_Ok_inv (ch ch' : Chain) (this s asset oracle o : Z) :
  deployOracle ch this s asset oracle = Ok (ch', o) ->
  asset <> 0 /\ oracle_of (factory ch) asset = 0 /\ oracle <> 0 /\ o = oracle /\
  factory ch'
  = emit (OracleDeployed asset oracle)
      (mkFactory (wards (factory ch)) (<[asset := oracle]> (oracles (factory ch)))
         (<[oracle := asset]> (oracleAssets (factory ch)))
         (assetList (factory ch) ++ [asset]) (events (factory ch))).
Proof.
  unfold deployOracle. intros H.
  apply bind_Ok_inv in H as (u1 & _ & H).
  apply bind_Ok_inv in H as (u2 & Hasset & H).
  apply bind_Ok_inv in H as (u3 & Hnew & H).
  apply bind_Ok_inv in H as (u4 & Hcreate & H).
  apply bind_Ok_inv in H as (ch3 & H3 & H).
  apply bind_Ok_inv in H as (ch4 & H4 & H).
  apply call_oracle_Ok_inv in H3 as (st3 & st3' & _ & _ & ->).
  apply call_oracle_Ok_inv in H4 as (st4 & st4' & _ & _ & ->).
  injection H as <- <-.
  apply require_Ok_inv in Hasset, Hnew, Hcreate.
  apply negb_true_iff, Z.eqb_neq in Hasset. apply Z.eqb_eq in Hnew.
  apply andb_true_iff in Hcreate as [Ho _].
  apply negb_true_iff, Z.eqb_neq in Ho. done.
Qed.

Lemma updateOracle_Ok_inv (ch ch' : Chain) (s asset newOracle : Z) :
  updateOracle ch s asset newOracle = Ok ch' ->
  asset <> 0 /\ newOracle <> 0 /\ oracle_of (factory ch) asset <> 0 /\
  deployed ch' = deployed ch /\
  factory ch'
  = emit (OracleUpdated asset (oracle_of (factory ch) asset) newOracle)
      (mkFactory (wards (factory ch)) (<[asset := newOracle]> (oracles (factory ch)))
         (<[newOracle := asset]>
            (<[oracle_of (factory ch) asset := 0]> (oracleAssets (factory ch))))
         (assetList (factory ch)) (events (factory ch))).
Proof.
  unfold updateOracle. intros H.
  apply bind_Ok_inv in H as (u1 & _ & H).
  apply bind_Ok_inv in H as (u2 & Hasset & H).
  apply bind_Ok_inv in H as (u3 & Hnew & H).
  apply bind_Ok_inv in H as (u4 & Hold & H).
  injection H as <-.
  apply require_Ok_inv in Hasset, Hnew, Hold.
  apply negb_true_iff, Z.eqb_neq in Hasset, Hnew, Hold. done.
Qed.

Lemma updateOracle_ward (ch : Chain) (s asset newOracle : Z) :
  ward_of (factory ch) s = 1 -> asset <> 0 -> newOracle <> 0 ->
  oracle_of (factory ch) asset <> 0 ->
  exists ch', updateOracle ch s asset newOracle = Ok ch'.
Proof.
  intros Hs Ha Hn Ho. unfold updateOracle. rewrite (fauth_granted ch s Hs).
  apply Z.eqb_neq in Ha, Hn, Ho. rewrite Ha, Hn, Ho. cbn. eauto.
Qed.

(** X21: The reverse mapping of the factory stays right as long as no call gives
    an asset an oracle address that another asset already has: after the
    constructor and after every successful call of that kind, [getAsset]
    of the oracle of an asset is that asset. The factory itself does not
    check the address. *)
Theorem reverse_mapping_kept :
  (forall d, reverse_consistent (constructor d)) /\
  (forall ch this s c ch',
     reverse_consistent (factory ch) ->
     target_unused (factory ch) c ->
     exec ch this s c = Ok ch' ->
     reverse_consistent (factory ch')).
Proof.
  split; [by intros d a Ha|].
  intros ch this s c ch' Hrev Hfresh H. destruct c; cbn [exec] in H.
  - unfold rely in H. apply bind_Ok_inv in H as (u & _ & H). by injection H as <-.
  - unfold deny in H. apply bind_Ok_inv in H as (u & _ & H). by injection H as <-.
  - apply bind_Ok_inv in H as ([ch1 o] & H & Hch). injection Hch as <-.
    apply deployOracle_Ok_inv in H as (Ha & Hnone & Ho & _ & ->).
    intros b. unfold oracle_of, asset_of. cbn [emit oracles oracleAssets].
    rewrite lookup_insert. destruct (decide (asset = b)) as [<-|Hne]; cbn.
    + intros _. by rewrite lookup_insert_eq.
    + intros Hb. rewrite lookup_insert_ne.
      * by apply Hrev.
      * intros Heq. by apply (Hfresh b).
  - apply updateOracle_Ok_inv in H as (Ha & Hn & Hold & _ & ->).
    set (old := oracle_of (factory ch) asset) in *.
    intros b. unfold oracle_of, asset_of. cbn [emit oracles oracleAssets].
    rewrite lookup_insert. destruct (decide (asset = b)) as [<-|Hne]; cbn.
    + intros _. by rewrite lookup_insert_eq.
    + change (default 0 (oracles (factory ch) !! b)) with (oracle_of (factory ch) b).
      intros Hb.
      rewrite lookup_insert_ne by (intros Heq; by apply (Hfresh b)).
      rewrite lookup_insert_ne.
      * by apply Hrev.
      * intros Heq. apply Hne. rewrite <- (Hrev b Hb), <- Heq.
        symmetry. by apply Hrev.
  - unfold batchRegisterNode in H.
    apply bind_Ok_inv in H as (u1 & _ & H).
    apply bind_Ok_inv in H as (u2 & _ & H).
    rewrite batch_loop in H. apply batch_fold_factory in H. by rewrite H.
  - unfold batchDeactivateNode in H.
    apply bind_Ok_inv in H as (u1 & _ & H).
    apply bind_Ok_inv in H as (u2 & _ & H).
    rewrite batch_loop in H. apply batch_fold_factory in H. by rewrite H.
  - unfold emergencyInvalidateAll in H.
    apply bind_Ok_inv in H as (u1 & _ & H).
    rewrite invalidate_loop in H. apply invalidate_fold_factory in H. by rewrite H.
Qed.

Lemma reverse_mapping_kept_witness :
  getAsset FactorySample.with_btc (getOracle FactorySample.with_btc Sample.BTC)
  = Sample.BTC.
Proof.
  destruct reverse_mapping_kept as [Hinit Hstep].
  apply (Hstep FactorySample.fresh FactorySample.this Sample.owner
           (CallDeployOracle Sample.BTC FactorySample.btc_oracle)
           FactorySample.with_btc).
  - apply Hinit.
  - intros b _. discriminate.
  - vm_compute. reflexivity.
  - vm_compute. discriminate.
Defined.

(** X22: [updateOracle] does not check that the new address is free. A ward can
    point an asset at the oracle of another asset: the call succeeds, the
    two assets then share one oracle, and [getAsset] of that oracle names
    the updated asset, no longer the asset it was deployed for. *)
Theorem updateOracle_can_share_an_oracle (ch : Chain) (s a b : Z) :
  ward_of (factory ch) s = 1 ->
  a <> 0 -> a <> b ->
  getOracle ch a <> 0 -> getOracle ch b <> 0 ->
  exists ch',
    updateOracle ch s a (getOracle ch b) = Ok ch' /\
    getOracle ch' a = getOracle ch b /\
    getOracle ch' b = getOracle ch b /\
    getAsset ch' (getOracle ch' b) = a /\
    getAllAssets ch' = getAllAssets ch.
Proof.
  intros Hs Ha Hab Hoa Hob. unfold getOracle in *.
  destruct (updateOracle_ward ch s a _ Hs Ha Hob Hoa) as [ch' H].
  exists ch'. split; [done|].
  apply updateOracle_Ok_inv in H as (_ & _ & _ & _ & Hf).
  unfold getAsset, getAllAssets, oracle_of, asset_of. rewrite Hf.
  cbn [emit oracles oracleAssets assetList].
  rewrite lookup_insert_eq, (lookup_insert_ne _ a b) by done. cbn.
  fold (oracle_of (factory ch) b). by rewrite lookup_insert_eq.
Qed.

Lemma updateOracle_can_share_an_oracle_witness :
  exists ch',
    updateOracle FactorySample.with_both Sample.owner FactorySample.ETH
      (getOracle FactorySample.with_both Sample.BTC) = Ok ch' /\
    getOracle ch' FactorySample.ETH = getOracle FactorySample.with_both Sample.BTC /\
    getOracle ch' Sample.BTC = getOracle FactorySample.with_both Sample.BTC /\
    getAsset ch' (getOracle ch' Sample.BTC) = FactorySample.ETH /\
    getAllAssets ch' = getAllAssets FactorySample.with_both.
Proof.
  apply (updateOracle_can_share_an_oracle FactorySample.with_both Sample.owner
           FactorySample.ETH Sample.BTC).
  - vm_compute. reflexivity.
  - discriminate.
  - discriminate.
  - vm_compute. discriminate.
  - vm_compute. discriminate.
Defined.

End FactoryReverse.

(** ** Access to the factory *)

Section FactoryAccess.

Import KUSDOracleFactory.




End FactoryAccess.

(** * Further properties of the off-chain node *)

(** ** The Binance source *)

Section BinanceGetPrice.

Import PriceSource.

Variable show : Number.number -> string.
Variable script : nat -> JS.completion Number.number.

Lemma retry_loop_ext {W A : Type} (sleep : Z -> JS.M W unit) (fn fn' : JS.M W A)
    (retries : Z) :
  (forall w, fn w = fn' w) ->
  forall n i w, retry_loop sleep n i retries fn w = retry_loop sleep n i retries fn' w.
Proof.
  intros Hfn. induction n as [|n IH]; intros i w; [done|].
  cbn [retry_loop]. unfold JS.try_catch, JS.bind at 1 3. rewrite Hfn.
  destruct (fn' w) as [[v|e] w']; [done|].
  destruct (i =? retries - 1); [done|].
  unfold JS.bind. destruct (sleep (1000 * (i + 1)) w') as [[u|e'] w'']; [apply IH|done].
Qed.

Lemma validated_request (tr : list event) :
  (let! price := scripted script in validatePrice show price) tr
  = scripted (validated show script) tr.
Proof.
  unfold JS.bind, scripted, validated, validatePrice.
  destruct (script (attempts tr)) as [p|e]; [|done].
  by destruct (Number.isNaN p || Number.le_zero p).
Qed.

Lemma validated_valid (k : nat) (v : Number.number) :
  validated show script k = JS.Return v -> script k = JS.Return v /\ valid_price v.
Proof.
  unfold validated. destruct (script k) as [p|e]; [|discriminate].
  destruct (Number.isNaN p || Number.le_zero p) eqn:E; [discriminate|].
  intros H. injection H as <-. split; [done|].
  apply orb_false_iff in E as [Hnan Hle].
  destruct p as [|q| |]; try done. cbn in Hle |- *.
  apply Qnot_le_lt. intros Hq. apply Qle_bool_iff in Hq. congruence.
Qed.

(** The retry wrapper around a request followed by [validatePrice]. *)
Lemma validated_withRetry (this : PriceSource) :
  let run := withRetry sleep this
               (let! price := scripted script in validatePrice show price) None [] in
  (attempts (snd run) <= Z.to_nat (retries this))%nat /\
  (forall v, fst run = JS.Return (Some v) -> valid_price v) /\
  (1 <= retries this -> fst run <> JS.Return None).
Proof.
  intros run. subst run. unfold withRetry.
  rewrite (retry_loop_ext sleep _ (scripted (validated show script)) (retries this)
             validated_request).
  set (R := retries this).
  destruct (Z.le_gt_cases R 0) as [Hle|Hgt].
  - replace (Z.to_nat R) with 0%nat by lia. cbn.
    split; [lia|]. split; [done|]. lia.
  - destruct (retry_loop_shape (validated show script) R (Z.to_nat R) 0 [])
      as (k & Hk & Htr & _ & Hres); [lia | lia |].
    cbn [app] in Htr. change (attempts []) with 0%nat in Hres. cbn [Nat.add] in Hres.
    split; [|split].
    + rewrite Htr, attempts_app, attempts_backoff.
      change (attempts [Attempt]) with 1%nat. lia.
    + intros v Hv. destruct Hres as [(v' & Hs & Hf)|(_ & e & _ & Hf)].
      * rewrite Hf in Hv. injection Hv as ->.
        by apply validated_valid in Hs as [_ ?].
      * rewrite Hf in Hv. discriminate Hv.
    + intros _ Hnone. destruct Hres as [(v' & _ & Hf)|(_ & e & _ & Hf)];
        rewrite Hf in Hnone; discriminate Hnone.
Qed.

(** X24: What [BinanceAPI.getPrice] can do. A symbol that the map does not know
    and DAI are refused, and USDT is answered with 1, all three without a
    request. For the other symbols at most [retries] requests are made, and
    a price that is returned has passed [validatePrice]: it is a number
    greater than zero. With at least one retry configured, the function
    never returns [undefined]. *)
Theorem BinanceAPI_getPrice_outcomes (this : PriceSource) (symbol : string) :
  let run := BinanceAPI.getPrice sleep show (fun _ => scripted script) this symbol [] in
  (BinanceAPI.binanceSymbol_truthy symbol = false ->
   run = (JS.Throw (JS.Error (String.append "Symbol "
                                (String.append symbol " not supported by Binance"))),
          [])) /\
  (symbol = "DAI" ->
   run = (JS.Throw (JS.Error "DAI is not available on Binance (delisted)"), [])) /\
  (symbol = "USDT" -> run = (JS.Return (Some (Number.Finite 1)), [])) /\
  (attempts (snd run) <= Z.to_nat (retries this))%nat /\
  (forall v, fst run = JS.Return (Some v) -> valid_price v) /\
  (1 <= retries this -> fst run <> JS.Return None).
Proof.
  intros run. subst run. unfold BinanceAPI.getPrice.
  destruct (BinanceAPI.binanceSymbol_truthy symbol) eqn:Hmap; cbn [negb].
  2:{ split; [done|]. split; [by intros ->|]. split; [by intros ->|].
      cbn. split; [lia|]. split; [done|done]. }
  split; [done|].
  destruct (decide (symbol = "DAI")) as [->|Hdai].
  { rewrite bool_decide_eq_true_2 by done. split; [done|]. split; [done|].
    cbn. split; [lia|]. split; [done|done]. }
  rewrite (bool_decide_eq_false_2 (symbol = "DAI")) by done.
  split; [done|].
  destruct (decide (symbol = "USDT")) as [->|Husdt].
  { rewrite bool_decide_eq_true_2 by done. split; [done|].
    cbn. split; [lia|]. split; [|done].
    intros v Hv. injection Hv as <-. done. }
  rewrite (bool_decide_eq_false_2 (symbol = "USDT")) by done.
  split; [done|]. apply validated_withRetry.
Qed.

(** X25: What [GeckoTerminalAPI.getPrice] can do. A symbol without token address
    is refused without a request. For the others, DAI and USDT among them,
    at most [retries] requests are made, and a price that is returned has
    passed [validatePrice]: it is a number greater than zero. With at least
    one retry configured, the function never returns [undefined]. *)
Theorem GeckoTerminalAPI_getPrice_outcomes (this : PriceSource) (symbol : string) :
  let run := GeckoTerminalAPI.getPrice sleep show (fun _ => scripted script)
               this symbol [] in
  (GeckoTerminalAPI.tokenAddress_truthy symbol = false ->
   run = (JS.Throw (JS.Error (String.append "Symbol "
                                (String.append symbol
                                   " not supported by GeckoTerminal"))),
          [])) /\
  (attempts (snd run) <= Z.to_nat (retries this))%nat /\
  (forall v, fst run = JS.Return (Some v) -> valid_price v) /\
  (GeckoTerminalAPI.tokenAddress_truthy symbol = true ->
   1 <= retries this -> fst run <> JS.Return None).
Proof.
  intros run. subst run. unfold GeckoTerminalAPI.getPrice.
  destruct (GeckoTerminalAPI.tokenAddress_truthy symbol) eqn:Hmap; cbn [negb].
  - split; [done|].
    destruct (validated_withRetry this) as (Ha & Hv & Hn).
    split; [exact Ha|]. split; [exact Hv|]. intros _. exact Hn.
  - split; [done|]. cbn. split; [lia|]. split; [done|done].
Qed.

End BinanceGetPrice.

Lemma BinanceAPI_getPrice_outcomes_witness :
  BinanceAPI.getPrice PriceSource.sleep NodeSample.show
    (fun _ => PriceSource.scripted NodeSample.flaky_ticker)
    Sample.binance_source "BTC" []
  = (JS.Return (Some (Number.Finite 50000)),
     [PriceSource.Attempt; PriceSource.Sleep 1000; PriceSource.Attempt]) /\
  valid_price (Number.Finite 50000).
Proof.
  assert (H : BinanceAPI.getPrice PriceSource.sleep NodeSample.show
                (fun _ => PriceSource.scripted NodeSample.flaky_ticker)
                Sample.binance_source "BTC" []
              = (JS.Return (Some (Number.Finite 50000)),
                 [PriceSource.Attempt; PriceSource.Sleep 1000; PriceSource.Attempt]))
    by (vm_compute; reflexivity).
  split; [exact H|].
  apply (BinanceAPI_getPrice_outcomes NodeSample.show NodeSample.flaky_ticker
           Sample.binance_source "BTC").
  etransitivity; [exact (f_equal fst H)|]. reflexivity.
Defined.

Lemma GeckoTerminalAPI_getPrice_outcomes_witness :
  GeckoTerminalAPI.getPrice PriceSource.sleep NodeSample.show
    (fun _ => PriceSource.scripted NodeSample.flaky_ticker)
    NodeSample.gecko_source "DAI" []
  = (JS.Return (Some (Number.Finite 50000)),
     [PriceSource.Attempt; PriceSource.Sleep 1000; PriceSource.Attempt]) /\
  valid_price (Number.Finite 50000).
Proof.
  assert (H : GeckoTerminalAPI.getPrice PriceSource.sleep NodeSample.show
                (fun _ => PriceSource.scripted NodeSample.flaky_ticker)
                NodeSample.gecko_source "DAI" []
              = (JS.Return (Some (Number.Finite 50000)),
                 [PriceSource.Attempt; PriceSource.Sleep 1000; PriceSource.Attempt]))
    by (vm_compute; reflexivity).
  split; [exact H|].
  apply (GeckoTerminalAPI_getPrice_outcomes NodeSample.show NodeSample.flaky_ticker
           NodeSample.gecko_source "DAI").
  etransitivity; [exact (f_equal fst H)|]. reflexivity.
Defined.

(** ** The health check *)

Section HealthCheckProofs.

Import OracleNode.

Context {num : Type}.

Lemma alerts_app (tr1 tr2 : list event) :
  alerts (tr1 ++ tr2) = alerts tr1 ++ alerts tr2.
Proof. apply omap_app. Qed.

Lemma check_lift (c : JS.completion unit) (issue : string) (issues : list string)
    (w : world) :
  check (JS.lift c) issue issues w
  = (JS.Return (issues ++ if failed c then [issue] else []), w).
Proof.
  unfold check, JS.try_catch, JS.bind, JS.lift, JS.ret.
  destruct c; cbn; by rewrite ?app_nil_r.
Qed.

Lemma check_oracles (oracles : list (string * JS.completion unit)) :
  forall (issues : list string) (w : world),
  for_of_issues oracles
    (fun entry =>
       check (JS.lift (snd entry))
         (String.append "Oracle contract for "
            (String.append (fst entry) " not responding"))) issues w
  = (JS.Return
       (issues ++ omap (fun entry : string * JS.completion unit =>
                          if failed (snd entry)
                          then Some (String.append "Oracle contract for "
                                       (String.append (fst entry) " not responding"))
                          else None) oracles), w).
Proof.
  induction oracles as [|[asset o] oracles IH]; intros issues w.
  - cbn. by rewrite app_nil_r.
  - cbn [for_of_issues]. unfold JS.bind at 1. rewrite check_lift.
    rewrite IH. cbn [omap list_omap fst snd].
    destruct (failed o); cbn; by rewrite <- ?app_assoc, ?app_nil_r.
Qed.

Lemma check_source (s : string) (src : price_source num) (issue : string)
    (issues : list string) (w : world) :
  check (let! _ := getPrice s src "BTC" in JS.ret tt) issue issues w
  = (JS.Return (issues ++ match src "BTC" with
                          | JS.Throw _ => [issue]
                          | JS.Return _ => []
                          end),
     mkWorld (failureCount w) (trace w ++ [GetPrice s "BTC"])).
Proof.
  unfold check, JS.try_catch, JS.bind, getPrice, JS.bind, emit, JS.lift, JS.ret.
  destruct (src "BTC"); cbn; by rewrite ?app_nil_r.
Qed.

Lemma check_sources (sources : list (string * price_source num)) :
  forall (issues : list string) (w : world),
  for_of_issues sources
    (fun entry =>
       check (let! _ := getPrice (fst entry) (snd entry) "BTC" in JS.ret tt)
         (String.append "Price source "
            (String.append (fst entry) " not responding"))) issues w
  = (JS.Return
       (issues ++ omap (fun entry : string * price_source num =>
                          match snd entry "BTC" with
                          | JS.Throw _ =>
                              Some (String.append "Price source "
                                      (String.append (fst entry) " not responding"))
                          | JS.Return _ => None
                          end) sources),
     mkWorld (failureCount w)
       (trace w ++ map (fun entry => GetPrice (fst entry) "BTC") sources)).
Proof.
  induction sources as [|[s src] sources IH]; intros issues w.
  - cbn. rewrite !app_nil_r. by destruct w.
  - cbn [for_of_issues]. unfold JS.bind at 1. cbn [fst snd].
    rewrite check_source, IH. cbn [omap list_omap fst snd map failureCount trace].
    destruct (src "BTC") as [p|e]; cbn; by rewrite <- ?app_assoc, ?app_nil_r.
Qed.

Lemma alerts_getPrice (sources : list (string * price_source num)) :
  alerts (map (fun entry => GetPrice (fst entry) "BTC") sources) = [].
Proof. by induction sources. Qed.

Lemma getPrice_calls_getPrice (sources : list (string * price_source num)) :
  getPrice_calls (map (fun entry => GetPrice (fst entry) "BTC") sources)
  = map (fun entry => (fst entry, "BTC")) sources.
Proof. induction sources as [|e l IH]; [done|]. cbn. by f_equal. Qed.

Lemma healthCheck_run (getBlockNumber : JS.completion unit)
    (oracles : list (string * JS.completion unit))
    (sources : list (string * price_source num)) (w : world) :
  exists tail,
    healthCheck getBlockNumber oracles sources w
    = (JS.Return tt,
       mkWorld (failureCount w)
         (trace w ++ [LogInfo "Performing health check..."]
          ++ map (fun entry => GetPrice (fst entry) "BTC") sources ++ tail)) /\
    alerts tail = health_alert (expected_issues getBlockNumber oracles sources) /\
    getPrice_calls tail = [].
Proof.
  unfold healthCheck.
  unfold JS.bind at 1, emit at 1. unfold JS.bind at 1. rewrite check_lift.
  unfold JS.bind at 1. rewrite check_oracles.
  unfold JS.bind at 1. rewrite check_sources.
  cbn [app failureCount trace].
  rewrite <- (app_assoc (if failed getBlockNumber then _ else _)
                (omap _ oracles) (omap _ sources)).
  fold (expected_issues getBlockNumber oracles sources).
  destruct (expected_issues getBlockNumber oracles sources) as [|i issues'].
  - exists [LogInfo "Health check passed"]. split; [|done].
    cbn [length Nat.ltb Nat.leb]. unfold emit.
    cbn [failureCount trace]. by rewrite <- !app_assoc.
  - eexists [LogError _; SendAlert _; LogError _]. split; [|done].
    cbn [length Nat.ltb Nat.leb]. unfold JS.bind, emit, sendAlert, JS.bind, emit.
    cbn [failureCount trace]. by rewrite <- !app_assoc.
Qed.

(** X26: [healthCheck] makes every check, whatever the outcome of the others, and
    never throws: each source is asked for the price of BTC, once and in
    order. It sends one alert when some check has failed, naming all the
    failed checks in the order blockchain, oracles, sources, and no alert
    when every check has passed. *)
Theorem healthCheck_reports (getBlockNumber : JS.completion unit)
    (oracles : list (string * JS.completion unit))
    (sources : list (string * price_source num)) (w : world) :
  let r := healthCheck getBlockNumber oracles sources w in
  let issues := expected_issues getBlockNumber oracles sources in
  fst r = JS.Return tt /\
  failureCount (snd r) = failureCount w /\
  alerts (trace (snd r)) = alerts (trace w) ++ health_alert issues /\
  getPrice_calls (trace (snd r))
  = getPrice_calls (trace w) ++ map (fun entry => (fst entry, "BTC")) sources.
Proof.
  intros r issues. subst r issues.
  destruct (healthCheck_run getBlockNumber oracles sources w) as (tail & -> & Ha & Hc).
  cbn [fst snd failureCount trace]. split; [done|]. split; [done|]. split.
  - rewrite !alerts_app, alerts_getPrice, Ha. done.
  - rewrite !getPrice_calls_app, getPrice_calls_getPrice, Hc. cbn.
    by rewrite app_nil_r.
Qed.

End HealthCheckProofs.

Lemma healthCheck_reports_witness :
  OracleNode.alerts
    (OracleNode.trace
       (snd (OracleNode.healthCheck (JS.Return tt) NodeSample.oracles
               Sample.three_sources (OracleNode.mkWorld ∅ []))))
  = ["Health check issues: Oracle contract for ETH not responding, Price source kraken not responding"].
Proof.
  destruct (healthCheck_reports (JS.Return tt) NodeSample.oracles
              Sample.three_sources (OracleNode.mkWorld ∅ []))
    as (_ & _ & Ha & _).
  etransitivity; [exact Ha|]. vm_compute. reflexivity.
Defined.

(** ** The update of one asset *)

Section UpdateAssetPriceProofs.

Import OracleNode.

Context {num : Type}.
Variable Date_now : string -> Z.
Variable publish : string -> list (reading num) -> JS.M world unit.

(** One source: as [settle_fetch_one], and the callback sends no alert. *)
Lemma settle_fetch_one_quiet (asset : string) (entry : string * price_source num)
    (w : world) :
  exists r evs,
    JS.settle (fetch_one Date_now asset entry) w
      = (JS.Return r, mkWorld (failureCount w) (trace w ++ evs)) /\
    fulfilled_value r = successful_reading Date_now asset entry /\
    getPrice_calls evs = attempted_calls asset [entry] /\
    alerts evs = [].
Proof.
  unfold JS.settle, fetch_one, JS.bind at 1, JS.lift at 1.
  unfold successful_reading, attempted_calls, attempted. cbn [omap list_omap].
  rewrite skip_includes_spec.
  destruct (bool_decide (asset ∈ object_prototype_keys)).
  - eexists _, []. cbn. rewrite app_nil_r. by destruct w.
  - destruct (excluded asset entry.1).
    + eexists _, []. cbn. rewrite app_nil_r. by destruct w.
    + unfold JS.try_catch, getPrice, JS.bind, JS.lift, emit. cbn.
      destruct (entry.2 asset) as [p|e]; cbn.
      * by eexists _, [_].
      * eexists _, [_; _]. cbn. by rewrite <- app_assoc.
Qed.

Lemma fetch_run (asset : string) (sources : list (string * price_source num)) :
  forall w : world,
  exists evs,
    fetchPricesFromAllSources Date_now sources asset w
      = (JS.Return (omap (successful_reading Date_now asset) sources),
         mkWorld (failureCount w) (trace w ++ evs)) /\
    getPrice_calls evs = attempted_calls asset sources /\
    alerts evs = [].
Proof.
  unfold fetchPricesFromAllSources, JS.bind.
  assert (H : forall w : world, exists rs evs,
             JS.allSettled (map (fetch_one Date_now asset) sources) w
               = (JS.Return rs, mkWorld (failureCount w) (trace w ++ evs)) /\
             omap fulfilled_value rs = omap (successful_reading Date_now asset) sources /\
             getPrice_calls evs = attempted_calls asset sources /\
             alerts evs = []).
  { induction sources as [|entry sources IH]; intros w.
    - exists [], []. cbn. rewrite app_nil_r. by destruct w.
    - destruct (settle_fetch_one_quiet asset entry w) as (r & evs1 & H1 & Hr & Hc1 & Ha1).
      destruct (IH (mkWorld (failureCount w) (trace w ++ evs1)))
        as (rs & evs2 & H2 & Hrs & Hc2 & Ha2).
      exists (r :: rs), (evs1 ++ evs2).
      cbn [map JS.allSettled]. unfold JS.bind at 1. rewrite H1.
      unfold JS.bind at 1. rewrite H2. cbn. rewrite <- app_assoc.
      split; [done|]. split; [by rewrite Hr, Hrs|]. split.
      + rewrite getPrice_calls_app, Hc1, Hc2.
        symmetry. apply attempted_calls_cons.
      + unfold alerts in *. by rewrite omap_app, Ha1, Ha2. }
  intros w. destruct (H w) as (rs & evs & -> & Hrs & Hc & Ha).
  exists evs. cbn. by rewrite Hrs.
Qed.

Lemma update_one_throw (f : string -> JS.M world unit) (asset : string)
    (w w1 : world) (e : JS.exn) :
  f asset w = (JS.Throw e, w1) ->
  update_one f asset w = (JS.Return tt, after_one (fun _ => JS.Throw e) asset w1).
Proof.
  intros H. rewrite <- update_one_eq.
  unfold update_one, completes_as, JS.try_catch, JS.bind at 1 3, JS.lift.
  by rewrite H.
Qed.

(** X27: [updateAssetPrice] publishes nothing from fewer than three sources. An
    asset without oracle contract is refused before any source is asked.
    Otherwise the sources are asked, and when fewer than three of them
    answer, the function throws with their number and does nothing else;
    only with three answers or more does it go on, with exactly the
    readings of the sources that answered. In the update cycle a round with
    too few answers counts as a failure of the asset: its counter goes up
    by one and the alert is sent from the fifth failure on. *)
Theorem updateAssetPrice_needs_three_sources (oracles : list string)
    (sources : list (string * price_source num)) (asset : string) (w : world) :
  let readings := omap (successful_reading Date_now asset) sources in
  let fetched := snd (fetchPricesFromAllSources Date_now sources asset w) in
  let run := updateAssetPrice Date_now publish oracles sources asset in
  (has_oracle oracles asset = false ->
   run w = (JS.Throw (JS.Error (String.append "No oracle contract for " asset)), w)) /\
  (has_oracle oracles asset = true -> (length readings < 3)%nat ->
   run w = (JS.Throw (insufficient asset (length readings)), fetched)) /\
  (has_oracle oracles asset = true -> (3 <= length readings)%nat ->
   run w = publish asset readings fetched) /\
  (asset ∉ object_prototype_keys ->
   has_oracle oracles asset = true -> (length readings < 3)%nat ->
   let r := update_one (updateAssetPrice Date_now publish oracles sources) asset w in
   fst r = JS.Return tt /\
   count_of (snd r) asset = count_of w asset + 1 /\
   getPrice_calls (trace (snd r))
   = getPrice_calls (trace w) ++ attempted_calls asset sources /\
   alerts (trace (snd r))
   = alerts (trace w)
     ++ if count_of w asset + 1 >=? 5 then [alert_message asset] else []).
Proof.
  intros readings fetched run. subst run fetched.
  destruct (fetch_run asset sources w) as (evs & Hfetch & Hcalls & Halerts).
  fold readings in Hfetch.
  assert (Hfew : has_oracle oracles asset = true -> (length readings < 3)%nat ->
            updateAssetPrice Date_now publish oracles sources asset w
            = (JS.Throw (insufficient asset (length readings)),
               mkWorld (failureCount w) (trace w ++ evs))).
  { intros Ho Hn. unfold updateAssetPrice. rewrite Ho. cbn [negb].
    unfold JS.bind. rewrite Hfetch.
    apply Nat.ltb_lt in Hn. by rewrite Hn. }
  rewrite Hfetch. cbn [snd].
  split; [|split; [|split]].
  - intros Ho. unfold updateAssetPrice. by rewrite Ho.
  - exact Hfew.
  - intros Ho Hn. unfold updateAssetPrice. rewrite Ho. cbn [negb].
    unfold JS.bind. rewrite Hfetch.
    apply Nat.ltb_ge in Hn. by rewrite Hn.
  - intros _ Ho Hn.
    rewrite (update_one_throw _ asset w _ _ (Hfew Ho Hn)). cbn [fst snd].
    split; [done|]. split; [|split].
    + rewrite count_of_after_one. rewrite decide_True by done. cbn [failed].
      unfold count_of. done.
    + unfold after_one. cbn [trace failureCount].
      destruct (_ >=? 5); cbn [trace];
        rewrite !getPrice_calls_app, Hcalls; cbn; by rewrite ?app_nil_r.
    + rewrite alerts_after_one. cbn [trace]. rewrite alerts_app, Halerts, app_nil_r.
      unfold cycle_alerts. cbn [omap list_omap failed andb].
      unfold count_of. cbn [failureCount].
      by destruct (_ >=? 5).
Qed.

End UpdateAssetPriceProofs.

Lemma updateAssetPrice_needs_three_sources_witness :
  fst (OracleNode.updateAssetPrice Sample.clock NodeSample.no_publication
         ["BTC"; "ETH"] Sample.three_sources "BTC" (OracleNode.mkWorld ∅ []))
  = JS.Throw (JS.Error "Insufficient price sources for BTC: 2").
Proof.
  destruct (updateAssetPrice_needs_three_sources Sample.clock
              NodeSample.no_publication ["BTC"; "ETH"] Sample.three_sources "BTC"
              (OracleNode.mkWorld ∅ [])) as (_ & Hfew & _).
  etransitivity.
  - apply (f_equal fst). apply Hfew.
    + vm_compute. reflexivity.
    + vm_compute. lia.
  - vm_compute. reflexivity.
Defined.
